(** * Grade aggregation, ranking and grade upload: a shallow embedding

    The development follows the TypeScript components and the SQL
    migration of the grade-management application:

    - [GradingScales]        the [grading_scales] table and the SQL functions
                             [get_letter_grade] / [get_grade_point];
    - [SemesterGradeReport]  [getGradePoint] and [loadReport];
    - [ExcelGradeUpload]     [getLetterGrade] and [handleUpload] of the Excel upload;
    - [GradeUpload]          [getLetterGrade] and [handleUpload] of the CSV upload;
    - [ManualGradeInput]     [calculateLetterGrade] of the enrollment grade entry.

    The embedding comes first, then the vocabulary of the properties and
    concrete data, then the lemmas and theorems.

    Numbers.  Where the components compute with numbers (the sums and
    the quotient of the semester report, its sort comparator, the average
    of the transcript), the numbers are IEEE 754 doubles ([Double]): every
    operation rounds to the nearest double, and [NaN] and the infinities
    are values.  A number that is only read, compared or passed on (a
    parsed score, a threshold, a column of the database) is kept as the
    exact rational it denotes ([Q]); where [parseFloat] or [Number] can
    produce it, [NaN] is a separate constructor ([JS.number]).  The
    average of the dashboard ([Dashboard.calculateGPA]) is kept as the
    exact quotient of exact sums. *)

From Stdlib Require Import QArith Qfield List String Bool Arith ZArith Lia Lqa.
From Stdlib Require Import Qround Qpower Qabs Qreduction.
From Stdlib Require PrimFloat FloatOps SpecFloat Uint63.
From Stdlib Require Import Permutation Sorted DecimalString Ascii.
Import ListNotations.

Set Implicit Arguments.

(* ===================================================================== *)
(** ** JavaScript values used by the components *)
(* ===================================================================== *)

Module JS.

  (** An object used as a dictionary.  All keys in this program are uuids,
      so property enumeration ([Object.values], [for ... in]) follows
      insertion order, and assigning to an existing key keeps its place. *)
Definition object (A : Type) := list (string * A).

Fixpoint obj_get {A} (o : object A) (k : string) : option A :=
    match o with
    | [] => None
    | (k', v) :: o' => if String.eqb k' k then Some v else obj_get o' k
    end.

Fixpoint obj_set {A} (o : object A) (k : string) (v : A) : object A :=
    match o with
    | [] => [(k, v)]
    | (k', v') :: o' =>
        if String.eqb k' k then (k', v) :: o' else (k', v') :: obj_set o' k v
    end.

Definition obj_keys {A} (o : object A) : list string := map fst o.
Definition obj_values {A} (o : object A) : list A := map snd o.

  (** [number]: a finite value or [NaN]. *)
Inductive number := NaN | Num (q : Q).

  (** [a >= b], [a < b], [a > b] against a numeric literal: false on [NaN]. *)
Definition ge (a : number) (b : Q) : bool :=
    match a with NaN => false | Num q => Qle_bool b q end.
Definition lt (a : number) (b : Q) : bool :=
    match a with NaN => false | Num q => negb (Qle_bool b q) end.
Definition gt (a : number) (b : Q) : bool :=
    match a with NaN => false | Num q => negb (Qle_bool q b) end.

  (** [!n] for a number: true on [0] and [NaN]. *)
Definition not_number (n : number) : bool :=
    match n with NaN => true | Num q => Qeq_bool q 0 end.

  (** [!s] for a string: true on the empty string. *)
Definition not_string (s : string) : bool := String.eqb s EmptyString.

  (** [!x] for a possibly undefined string (a missing property). *)
Definition not_opt_string (s : option string) : bool :=
    match s with None => true | Some s => not_string s end.

  (** [a || b] on possibly undefined strings. *)
Definition or_string (a b : option string) : option string :=
    if not_opt_string a then b else a.

  (** [x || 0] on a finite number. *)
Definition or_zero (x : Q) : Q := if Qeq_bool x 0 then 0 else x.

  (** [Array.prototype.sort(cmp)]: the sort is stable; [a] is placed before
      [b] when [cmp a b < 0] and equal elements keep their input order.  For
      a consistent comparator the result is the one of this insertion sort. *)
Section Sort.
Variable A : Type.
Variable cmp : A -> A -> Q.

Fixpoint insert (x : A) (l : list A) : list A :=
      match l with
      | [] => [x]
      | y :: l' => if Qle_bool (cmp x y) 0 then x :: l else y :: insert x l'
      end.

Definition sort (l : list A) : list A := fold_right insert [] l.
End Sort.

(** [a <= b] against a numeric literal, and [isNaN]. *)
Definition le (a : number) (b : Q) : bool :=
  match a with NaN => false | Num q => Qle_bool q b end.

Definition isNaN (a : number) : bool :=
  match a with NaN => true | Num _ => false end.

End JS.

(* ===================================================================== *)
(** ** The Number type: IEEE 754 binary64 *)
(* ===================================================================== *)

(** Arithmetic on JavaScript numbers is arithmetic on doubles: the result
    of [+], [-], [*] and [/] is the exact result rounded to the nearest
    double, ties to the even mantissa.  A finite double is kept as its
    sign and its magnitude, an exact rational; the two zeros are
    [Fin false 0] and [Fin true 0]. *)
Module Double.
Local Open Scope Q_scope.

Inductive double := NaN | Inf (neg : bool) | Fin (neg : bool) (mag : Q).

Definition pow2 (e : Z) : Q := 2 ^ e.

(** The exponent of a positive rational: [2^e <= q < 2^(e+1)]. *)
Definition ilog2 (q : Q) : Z :=
  let d := (Z.log2 (Qnum q) - Z.log2 (Zpos (Qden q)))%Z in
  if Qle_bool (pow2 d) q then d else (d - 1)%Z.

(** The nearest integer, ties to even. *)
Definition rne (q : Q) : Z :=
  let f := Qfloor q in
  match Qcompare (q - inject_Z f) (1 # 2) with
  | Lt => f
  | Gt => (f + 1)%Z
  | Eq => if Z.even f then f else (f + 1)%Z
  end.

(** The exponent of the last mantissa bit of the doubles around [q]: 53
    bits of mantissa, and no exponent below that of the subnormals. *)
Definition quantum (q : Q) : Z := Z.max (ilog2 q - 52) (-1074).

(** The magnitude [q >= 0] rounded to the grid of the doubles around it. *)
Definition rnd (q : Q) : Q :=
  Qred (inject_Z (rne (q / pow2 (quantum q))) * pow2 (quantum q)).

(** Rounding with overflow: a magnitude that rounds to [2^1024] or more
    is an infinity. *)
Definition round (neg : bool) (q : Q) : double :=
  let r := rnd q in
  if Qle_bool (pow2 1024) r then Inf neg else Fin neg r.

Definition toQ (neg : bool) (mag : Q) : Q := if neg then - mag else mag.
Definition isNeg (q : Q) : bool := negb (Qle_bool 0 q).

(** The double of a decimal: a number column of the database read into
    JavaScript, or a numeric literal of the source. *)
Definition ofQ (q : Q) : double := round (isNeg q) (Qabs q).

Definition zero : double := Fin false 0.

Definition add (x y : double) : double :=
  match x, y with
  | NaN, _ | _, NaN => NaN
  | Inf s, Inf t => if Bool.eqb s t then Inf s else NaN
  | Inf s, Fin _ _ => Inf s
  | Fin _ _, Inf t => Inf t
  | Fin s m, Fin t n =>
      let q := toQ s m + toQ t n in
      if Qeq_bool q 0 then Fin (s && t) 0 else round (isNeg q) (Qabs q)
  end.

Definition opp (x : double) : double :=
  match x with
  | NaN => NaN
  | Inf s => Inf (negb s)
  | Fin s m => Fin (negb s) m
  end.

Definition sub (x y : double) : double := add x (opp y).

Definition mul (x y : double) : double :=
  match x, y with
  | NaN, _ | _, NaN => NaN
  | Inf s, Inf t => Inf (xorb s t)
  | Inf s, Fin t n => if Qeq_bool n 0 then NaN else Inf (xorb s t)
  | Fin s m, Inf t => if Qeq_bool m 0 then NaN else Inf (xorb s t)
  | Fin s m, Fin t n => round (xorb s t) (m * n)
  end.

Definition div (x y : double) : double :=
  match x, y with
  | NaN, _ | _, NaN => NaN
  | Inf _, Inf _ => NaN
  | Inf s, Fin t _ => Inf (xorb s t)
  | Fin s _, Inf t => Fin (xorb s t) 0
  | Fin s m, Fin t n =>
      if Qeq_bool n 0
      then if Qeq_bool m 0 then NaN else Inf (xorb s t)
      else round (xorb s t) (m / n)
  end.

(** [x < y], [x === y], [x <= y], [x > y]: false when an operand is
    [NaN]; the two zeros are equal. *)
Definition ltb (x y : double) : bool :=
  match x, y with
  | NaN, _ | _, NaN => false
  | Inf s, Inf t => s && negb t
  | Inf s, Fin _ _ => s
  | Fin _ _, Inf t => negb t
  | Fin s m, Fin t n => negb (Qle_bool (toQ t n) (toQ s m))
  end.

Definition eqb (x y : double) : bool :=
  match x, y with
  | Inf s, Inf t => Bool.eqb s t
  | Fin s m, Fin t n => Qeq_bool (toQ s m) (toQ t n)
  | _, _ => false
  end.

Definition leb (x y : double) : bool := ltb x y || eqb x y.
Definition gtb (x y : double) : bool := ltb y x.

Definition isNaN (x : double) : bool :=
  match x with NaN => true | _ => false end.

(** The result of a comparator as [Array.prototype.sort] reads it: [NaN]
    counts as [+0], and only the sign matters. *)
Definition sortValue (v : double) : Q :=
  match v with
  | NaN => 0
  | Inf s => if s then - (1) else 1
  | Fin s m => toQ s m
  end.

End Double.

(* ===================================================================== *)
(** ** The grading_scales table and its SQL functions *)
(* ===================================================================== *)

Module GradingScales.

Record GradingScale := {
    curriculum : string;
    letter_grade : string;
    min_score : Q;
    max_score : Q;
    grade_point : Q;
    description : string
  }.

  (** The table, in the order in which a scan returns its rows. *)
Definition table := list GradingScale.

  (** [WHERE curriculum = p_curriculum AND p_score >= min_score
       AND p_score <= max_score] *)
Definition covers (p_score : Q) (p_curriculum : string) (r : GradingScale) : bool :=
    String.eqb (curriculum r) p_curriculum
    && Qle_bool (min_score r) p_score
    && Qle_bool p_score (max_score r).

  (** [SELECT ... LIMIT 1] without [ORDER BY]: the first row of the scan
      that satisfies the condition, if any. *)
Definition select_limit_1 (t : table) (p_score : Q) (p_curriculum : string)
    : option GradingScale :=
    find (covers p_score p_curriculum) t.

Definition get_letter_grade (t : table) (p_score : Q) (p_curriculum : string) : string :=
    match select_limit_1 t p_score p_curriculum with
    | Some r => letter_grade r
    | None => "E"%string            (* COALESCE(v_letter_grade, 'E') *)
    end.

Definition get_grade_point (t : table) (p_score : Q) (p_curriculum : string) : Q :=
    match select_limit_1 t p_score p_curriculum with
    | Some r => grade_point r
    | None => 0                     (* COALESCE(v_grade_point, 0.00) *)
    end.

  (** The rows inserted by the migration for curriculum 2024. *)
Definition default_2024 : table :=
    [ Build_GradingScale "2024" "A"  85 100      4     "Sangat Baik";
      Build_GradingScale "2024" "A-" 80 (8499#100) (37#10) "Baik Sekali";
      Build_GradingScale "2024" "B+" 75 (7999#100) (33#10) "Lebih dari Baik";
      Build_GradingScale "2024" "B"  70 (7499#100) 3     "Baik";
      Build_GradingScale "2024" "B-" 65 (6999#100) (27#10) "Cukup Baik";
      Build_GradingScale "2024" "C+" 60 (6499#100) (23#10) "Lebih dari Cukup";
      Build_GradingScale "2024" "C"  55 (5999#100) 2     "Cukup";
      Build_GradingScale "2024" "D"  50 (5499#100) 1     "Kurang";
      Build_GradingScale "2024" "E"  0  (4999#100) 0     "Gagal" ].

End GradingScales.

(* ===================================================================== *)
(** ** SemesterGradeReport.tsx *)
(* ===================================================================== *)

Module SemesterGradeReport.
Import GradingScales.

Record Course := {
    c_id : string;
    c_code : string;
    c_name : string;
    c_credits : Q;
    c_semester : Z;
    c_curriculum : string
  }.

Record Grade := {
    g_score : Q;
    g_letter_grade : string;
    g_course_id : string;
    g_student_id : string
  }.

  (** A row of the [students] table as the report reads it. *)
Record Student := {
    s_id : string;
    s_nim : string;
    s_name : string;
    s_angkatan : string
  }.

  (** The value type of [StudentGrade.courses].  The three numbers come
      from columns of the database ([grades.score], [grading_scales.grade_point],
      [courses.credits]) and are kept as the decimals they denote; JavaScript
      holds each as the nearest double, [Double.ofQ]. *)
Record CourseGrade := {
    score : Q;
    cg_letter_grade : string;
    cg_grade_point : Q;
    credits : Q
  }.

Record StudentGrade := {
    student_id : string;
    nim : string;
    name : string;
    angkatan : string;
    courses : JS.object CourseGrade;
    totalScore : Double.double;
    totalGradePoint : Double.double;
    totalCredits : Double.double;
    gpa : Double.double;
    rank : nat
  }.

  (** [maybeSingle()] of the database client: the row when the query has
      exactly one, no data when it has none, and no data (with an error
      that the caller below ignores) when it has several. *)
Definition maybeSingle {A} (rows : list A) : option A :=
    match rows with
    | [r] => Some r
    | _ => None
    end.

  (** [getGradePoint]: [.eq('curriculum', curriculum).lte('min_score', score)
      .gte('max_score', score).maybeSingle()], then [data?.grade_point || 0]. *)
Definition getGradePoint (grading_scales : table) (score : Q) (curriculum : string) : Q :=
    match maybeSingle (filter (covers score curriculum) grading_scales) with
    | Some data => JS.or_zero (grade_point data)
    | None => 0
    end.

Section Report.
Variable grading_scales : table.
Variable curriculum : string.
Variable coursesData : list Course.
Variable studentsData : list Student.
Variable gradesData : list Grade.

    (** Lines 156-171: one entry per student, keyed by the student id. *)
Definition newStudentGrade (student : Student) : StudentGrade :=
      {| student_id := s_id student;
         nim := s_nim student;
         name := s_name student;
         angkatan := s_angkatan student;
         courses := [];
         totalScore := Double.zero;
         totalGradePoint := Double.zero;
         totalCredits := Double.zero;
         gpa := Double.zero;
         rank := 0 |}.

Definition initStudentGradesMap : JS.object StudentGrade :=
      fold_left (fun m student => JS.obj_set m (s_id student) (newStudentGrade student))
                studentsData [].

Definition set_courses (sg : StudentGrade) (cs : JS.object CourseGrade) : StudentGrade :=
      {| student_id := student_id sg; nim := nim sg; name := name sg;
         angkatan := angkatan sg; courses := cs;
         totalScore := totalScore sg; totalGradePoint := totalGradePoint sg;
         totalCredits := totalCredits sg; gpa := gpa sg; rank := rank sg |}.

Definition courseGradeOf (grade : Grade) (course : Course) : CourseGrade :=
      {| score := g_score grade;
         cg_letter_grade := g_letter_grade grade;
         cg_grade_point := getGradePoint grading_scales (g_score grade) curriculum;
         credits := c_credits course |}.

    (** Lines 173-185: the body of the loop over [gradesData]. *)
Definition addGrade (m : JS.object StudentGrade) (grade : Grade) : JS.object StudentGrade :=
      match find (fun c => String.eqb (c_id c) (g_course_id grade)) coursesData,
            JS.obj_get m (g_student_id grade) with
      | Some course, Some sg =>
          JS.obj_set m (g_student_id grade)
            (set_courses sg
               (JS.obj_set (courses sg) (g_course_id grade) (courseGradeOf grade course)))
      | _, _ => m
      end.

Definition studentGradesMap : JS.object StudentGrade :=
      fold_left addGrade gradesData initStudentGradesMap.

    (** Lines 187-208: the three accumulators of the loop over
        [student.courses]; [+=] and [*] are double arithmetic. *)
Definition accumulate (acc : Double.double * Double.double * Double.double)
           (courseGrade : CourseGrade) : Double.double * Double.double * Double.double :=
      let '(totalScore, totalWeightedGradePoint, totalCredits) := acc in
      (Double.add totalScore (Double.ofQ (score courseGrade)),
       Double.add totalWeightedGradePoint
                  (Double.mul (Double.ofQ (cg_grade_point courseGrade))
                              (Double.ofQ (credits courseGrade))),
       Double.add totalCredits (Double.ofQ (credits courseGrade))).

Definition withTotals (student : StudentGrade) : StudentGrade :=
      let '(totalScore, totalWeightedGradePoint, totalCredits) :=
        fold_left accumulate (JS.obj_values (courses student))
                  (Double.zero, Double.zero, Double.zero) in
      {| student_id := student_id student; nim := nim student; name := name student;
         angkatan := angkatan student; courses := courses student;
         totalScore := totalScore;
         totalGradePoint := totalWeightedGradePoint;
         totalCredits := totalCredits;
         gpa := if Double.gtb totalCredits Double.zero
                then Double.div totalWeightedGradePoint totalCredits else Double.zero;
         rank := rank student |}.

Definition studentsList : list StudentGrade :=
      map withTotals (JS.obj_values studentGradesMap).

    (** Lines 210-214: the comparator given to [sort]; [!==] and [-] on
        doubles. *)
Definition compareFn (a b : StudentGrade) : Double.double :=
      if negb (Double.eqb (gpa b) (gpa a)) then Double.sub (gpa b) (gpa a)
      else if negb (Double.eqb (totalGradePoint b) (totalGradePoint a))
           then Double.sub (totalGradePoint b) (totalGradePoint a)
           else Double.sub (totalScore b) (totalScore a).

    (** The value of the comparator as [sort] reads it. *)
Definition sortCompare (a b : StudentGrade) : Q := Double.sortValue (compareFn a b).

    (** Lines 216-218: [student.rank = index + 1]. *)
Definition set_rank (sg : StudentGrade) (r : nat) : StudentGrade :=
      {| student_id := student_id sg; nim := nim sg; name := name sg;
         angkatan := angkatan sg; courses := courses sg;
         totalScore := totalScore sg; totalGradePoint := totalGradePoint sg;
         totalCredits := totalCredits sg; gpa := gpa sg; rank := r |}.

Fixpoint assignRanks (index : nat) (l : list StudentGrade) : list StudentGrade :=
      match l with
      | [] => []
      | student :: l' => set_rank student (index + 1) :: assignRanks (S index) l'
      end.

    (** Lines 156-218: the list handed to [setStudentGrades]. *)
Definition report : list StudentGrade :=
      assignRanks 0 (JS.sort sortCompare studentsList).
End Report.

  (** The three queries of [loadReport]; [None] is a [null] result. *)
Record Queries := {
    select_courses : Z -> string -> option (list Course);
    select_students : string -> option (list Student);
    select_grades : list string -> list string -> option (list Grade);
    select_grading_scales : table
  }.

  (** [loadReport]: [None] stands for the early returns (an alert is shown
      and the displayed list is left as it was). *)
Definition loadReport (q : Queries) (selectedAngkatan : string)
             (selectedSemester : Z) (curriculumFilter : string)
    : option (list StudentGrade) :=
    if JS.not_string selectedAngkatan || Z.eqb selectedSemester 0 then None
    else
      let curriculum :=
        if JS.not_string curriculumFilter then selectedAngkatan else curriculumFilter in
      match select_courses q selectedSemester curriculum with
      | None | Some [] => None
      | Some coursesData =>
          match select_students q selectedAngkatan with
          | None | Some [] => None
          | Some studentsData =>
              let gradesData :=
                match select_grades q (map c_id coursesData) (map s_id studentsData) with
                | Some gs => gs
                | None => []          (* gradesData || [] *)
                end in
              Some (report (select_grading_scales q) curriculum
                           coursesData studentsData gradesData)
          end
      end.

(** *** The sorted view: [handleSort] and [getSortedStudents] *)

Inductive SortField := by_nim | by_name | by_rank.
Inductive SortDirection := asc | desc.

Definition SortField_eqb (a b : SortField) : bool :=
  match a, b with
  | by_nim, by_nim | by_name, by_name | by_rank, by_rank => true
  | _, _ => false
  end.

(** [handleSort]: the new [(sortField, sortDirection)]. *)
Definition handleSort (sortField : SortField) (sortDirection : SortDirection)
           (field : SortField) : SortField * SortDirection :=
  if SortField_eqb sortField field
  then (sortField, match sortDirection with asc => desc | desc => asc end)
  else (field, asc).

(** A rank as a number. *)
Definition rankNumber (a : StudentGrade) : Q := inject_Z (Z.of_nat (rank a)).

Section SortedView.
(** The built-in [String.prototype.localeCompare]. *)
Variable localeCompare : string -> string -> Q.

(** The comparator of [getSortedStudents]. *)
Definition viewCompare (sortField : SortField) (sortDirection : SortDirection)
           (a b : StudentGrade) : Q :=
  let compareValue :=
    match sortField with
    | by_nim => localeCompare (nim a) (nim b)
    | by_name => localeCompare (name a) (name b)
    | by_rank => rankNumber a - rankNumber b
    end in
  match sortDirection with
  | asc => compareValue
  | desc => - compareValue
  end.

(** [getSortedStudents]: a sorted copy of [studentGrades]. *)
Definition getSortedStudents (sortField : SortField) (sortDirection : SortDirection)
           (studentGrades : list StudentGrade) : list StudentGrade :=
  JS.sort (viewCompare sortField sortDirection) studentGrades.
End SortedView.

(** *** [exportToExcel]: the array of arrays given to the sheet builder,
    and the cells that receive a highlight *)

(** A cell value: a number read from the database or counted by the
    component (an exact decimal), a number computed by [loadReport] (a
    double), or a text. *)
Inductive cell := CNum (q : Q) | CDbl (d : Double.double) | CStr (s : string).

(** The style of a highlighted cell: fill and font colour. *)
Record Style := { fillColor : string; fontColor : string }.

(** A style assignment [worksheet[encode_cell({r, c})].s = ...]. *)
Record Styled := { at_row : nat; at_col : nat; style : Style }.

Section ExportToExcel.
(** The built-in [Number.prototype.toFixed(2)]. *)
Variable toFixed2 : Double.double -> string.
(** The component state [courses] and the list [sortedStudentGrades]. *)
Variable courses_state : list Course.
Variable sortedStudentGrades : list StudentGrade.

Definition headerRow1 : list cell :=
  [CStr "No"; CStr "NIM"; CStr "Nama Mahasiswa"]
    ++ flat_map (fun course =>
                   [CStr (c_code course); CStr EmptyString; CStr EmptyString;
                    CStr EmptyString]) courses_state
    ++ [CStr "Total Nilai"; CStr "Total Grade Point"; CStr "Total SKS"; CStr "IPK";
        CStr "Peringkat"].

Definition headerRow2 : list cell :=
  [CStr EmptyString; CStr EmptyString; CStr EmptyString]
    ++ flat_map (fun _ : Course => [CStr "Nilai"; CStr "Grade"; CStr "GP"; CStr "SKS"])
                courses_state
    ++ [CStr EmptyString; CStr EmptyString; CStr EmptyString; CStr EmptyString;
        CStr EmptyString].

(** The four cells of one course in a student's row. *)
Definition courseCells (student : StudentGrade) (course : Course) : list cell :=
  match JS.obj_get (courses student) (c_id course) with
  | Some grade =>
      [CNum (score grade); CStr (cg_letter_grade grade);
       CStr (toFixed2 (Double.ofQ (cg_grade_point grade))); CNum (credits grade)]
  | None => [CStr "-"; CStr "-"; CStr "-"; CStr "-"]
  end.

Definition dataRow (index : nat) (student : StudentGrade) : list cell :=
  [CNum (inject_Z (Z.of_nat (index + 1))); CStr (nim student); CStr (name student)]
    ++ flat_map (courseCells student) courses_state
    ++ [CStr (toFixed2 (totalScore student));
        CStr (toFixed2 (totalGradePoint student));
        CDbl (totalCredits student);
        CStr (toFixed2 (gpa student));
        CNum (rankNumber student)].

Fixpoint dataRows (index : nat) (students : list StudentGrade) : list (list cell) :=
  match students with
  | [] => []
  | student :: rest => dataRow index student :: dataRows (S index) rest
  end.

Definition worksheetData : list (list cell) :=
  headerRow1 :: headerRow2 :: dataRows 0 sortedStudentGrades.

(** [a > b] on two decimals. *)
Definition Qgtb (a b : Q) : bool := negb (Qle_bool a b).

(** [grade.score < 70 ? red : yellow] *)
Definition highlightStyle (score : Q) : Style :=
  if Qgtb 70 score
  then {| fillColor := "FFCCCC"; fontColor := "CC0000" |}
  else {| fillColor := "FFFFCC"; fontColor := "CC8800" |}.

(** The loop over the courses of one sheet row; [colIndex] advances by 4.
    A grade below 75 styles the score cell and the grade cell next to it. *)
Fixpoint styleCourses (row colIndex : nat) (student : option StudentGrade)
         (cs : list Course) : list Styled :=
  match cs with
  | [] => []
  | course :: rest =>
      let grade :=
        match student with
        | Some st => JS.obj_get (courses st) (c_id course)
        | None => None
        end in
      match grade with
      | Some g =>
          if Qgtb 75 (score g)
          then [ {| at_row := row; at_col := colIndex; style := highlightStyle (score g) |};
                 {| at_row := row; at_col := colIndex + 1;
                    style := highlightStyle (score g) |} ]
          else []
      | None => []
      end ++ styleCourses row (colIndex + 4) student rest
  end.

(** [for (let row = 2; row < worksheetData.length; row++)] *)
Definition styledCells : list Styled :=
  flat_map (fun row =>
              styleCourses row 3 (nth_error sortedStudentGrades (row - 2)) courses_state)
           (seq 2 (List.length worksheetData - 2)).
End ExportToExcel.

End SemesterGradeReport.

(* ===================================================================== *)
(** ** The backend as the upload components see it *)
(* ===================================================================== *)

Module Supabase.

  (** What a [catch (err)] clause receives. *)
Inductive thrown := ErrorObject (message : string) | OtherValue.

  (** An awaited call either throws or returns. *)
Inductive awaited (A : Type) := Throws (e : thrown) | Returns (a : A).
Arguments Throws {A} e.
Arguments Returns {A} a.

Definition bind {A B} (c : awaited A) (k : A -> awaited B) : awaited B :=
    match c with
    | Throws e => Throws e
    | Returns a => k a
    end.

  (** [err instanceof Error ? err.message : 'Unknown error'] *)
Definition catch_message (e : thrown) : string :=
    match e with
    | ErrorObject m => m
    | OtherValue => "Unknown error"
    end.

  (** The object given to [.from('grades').upsert(...)]. *)
Record GradeRecord := {
    student_id : string;
    course_id : string;
    score : JS.number;
    letter_grade : string
  }.

  (** The lookups return [data] ([None] for [null]): the [id] of the row
      found.  [upsert_grade] returns [upsertError?.message]. *)
Record Backend := {
    student_by_nim : string -> awaited (option string);
    student_by_nim_angkatan : string -> string -> awaited (option string);
    course_by_code : string -> awaited (option string);
    upsert_grade : GradeRecord -> awaited (option string)
  }.

Definition same_key (a b : GradeRecord) : bool :=
    String.eqb (student_id a) (student_id b) && String.eqb (course_id a) (course_id b).

  (** The effect of an accepted upsert with
      [onConflict: 'student_id,course_id'] on the [grades] table. *)
Fixpoint upsert (grades : list GradeRecord) (r : GradeRecord) : list GradeRecord :=
    match grades with
    | [] => [r]
    | g :: grades' => if same_key g r then r :: grades' else g :: upsert grades' r
    end.

End Supabase.

Declare Scope awaited_scope.
Notation "x <- c ;; k" := (Supabase.bind c (fun x => k))
  (at level 61, c at next level, right associativity) : awaited_scope.

(* ===================================================================== *)
(** ** ExcelGradeUpload (Excel upload of grades) *)
(* ===================================================================== *)

Module ExcelGradeUpload.
Import Supabase.
Local Open Scope string_scope.
Local Open Scope awaited_scope.

Inductive Status := pending | success | error.

Record UploadedRow := {
    nim : string;
    courseCode : string;
    angkatan : option string;
    score : JS.number;
    status : Status;
    message : option string
  }.

Definition getLetterGrade (score : JS.number) : string :=
    if JS.ge score 85 then "A"
    else if JS.ge score 80 then "B+"
    else if JS.ge score 75 then "B"
    else if JS.ge score 70 then "B-"
    else if JS.ge score 65 then "C+"
    else if JS.ge score 60 then "C"
    else if JS.ge score 55 then "D"
    else "E".

  (** [{...row, status, message}] *)
Definition with_status (row : UploadedRow) (s : Status) (m : option string) : UploadedRow :=
    {| nim := nim row; courseCode := courseCode row; angkatan := angkatan row;
       score := score row; status := s; message := m |}.

  (** A template-string hole holding a possibly undefined string. *)
Definition show (s : option string) : string :=
    match s with Some s => s | None => "undefined" end.

  (** [s || ''] *)
Definition or_empty (s : option string) : string :=
    match JS.or_string s (Some EmptyString) with Some s => s | None => EmptyString end.

Record State := {
    processedRows : list UploadedRow;
    successCount : nat;
    errorCount : nat;
    grades : list GradeRecord
  }.

Definition push_error (st : State) (row : UploadedRow) (m : string) : State :=
    {| processedRows := processedRows st ++ [with_status row error (Some m)];
       successCount := successCount st;
       errorCount := S (errorCount st);
       grades := grades st |}.

Definition push_success (st : State) (row : UploadedRow) (r : GradeRecord) : State :=
    {| processedRows := processedRows st ++ [with_status row success (message row)];
       successCount := S (successCount st);
       errorCount := errorCount st;
       grades := upsert (grades st) r |}.

  (** The [try] block of one iteration. *)
Definition tryRow (be : Backend) (st : State) (row : UploadedRow) : awaited State :=
    if JS.not_string (nim row) || JS.lt (score row) 0 || JS.gt (score row) 100
    then Returns (push_error st row "NIM atau nilai tidak valid")
    else
      student <- student_by_nim_angkatan be (nim row) (or_empty (angkatan row)) ;;
      match student with
      | Some sid =>
          if JS.not_string sid
          then Returns (push_error st row
                 ("Mahasiswa dengan NIM " ++ nim row ++ " angkatan "
                    ++ show (angkatan row) ++ " tidak ditemukan"))
          else
            course <- course_by_code be (courseCode row) ;;
            match course with
            | Some cid =>
                if JS.not_string cid
                then Returns (push_error st row
                       ("Mata kuliah " ++ courseCode row ++ " tidak ditemukan"))
                else
                  let letterGrade := getLetterGrade (score row) in
                  let record := {| student_id := sid; course_id := cid;
                                   Supabase.score := score row;
                                   letter_grade := letterGrade |} in
                  upsertError <- upsert_grade be record ;;
                  match upsertError with
                  | Some m => Returns (push_error st row m)
                  | None => Returns (push_success st row record)
                  end
            | None => Returns (push_error st row
                        ("Mata kuliah " ++ courseCode row ++ " tidak ditemukan"))
            end
      | None => Returns (push_error st row
                  ("Mahasiswa dengan NIM " ++ nim row ++ " angkatan "
                     ++ show (angkatan row) ++ " tidak ditemukan"))
      end.

  (** One iteration: the [try] block and its [catch]. *)
Definition processRow (be : Backend) (st : State) (row : UploadedRow) : State :=
    match tryRow be st row with
    | Returns st' => st'
    | Throws e => push_error st row (catch_message e)
    end.

Definition initial (grades0 : list GradeRecord) : State :=
    {| processedRows := []; successCount := 0; errorCount := 0; grades := grades0 |}.

  (** [handleUpload]: [None] when [preview] is empty (nothing is done). *)
Definition handleUpload (be : Backend) (grades0 : list GradeRecord)
             (preview : list UploadedRow) : option State :=
    match preview with
    | [] => None
    | _ => Some (fold_left (processRow be) preview (initial grades0))
    end.

(** *** The summary shown in step 'upload' *)

Definition Status_eqb (a b : Status) : bool :=
  match a, b with
  | pending, pending | success, success | error, error => true
  | _, _ => false
  end.

(** [uploadedRows.filter(r => r.status === 'success').length] and the same
    for ['error']. *)
Definition shownSuccessCount (uploadedRows : list UploadedRow) : nat :=
  List.length (filter (fun r => Status_eqb (status r) success) uploadedRows).

Definition shownErrorCount (uploadedRows : list UploadedRow) : nat :=
  List.length (filter (fun r => Status_eqb (status r) error) uploadedRows).

(** *** [handleAngkatanSelect]: from sheet rows to the preview *)

(** A cell value as the sheet reader returns it for a text or a numeric
    cell. *)
Inductive value := VStr (s : string) | VNum (n : JS.number).

(** [!v] *)
Definition not_value (v : option value) : bool :=
  match v with
  | None => true
  | Some (VStr s) => JS.not_string s
  | Some (VNum n) => JS.not_number n
  end.

(** [a || b] *)
Definition or_value (a b : option value) : option value :=
  if not_value a then b else a.

Section Preview.
(** The built-ins [parseFloat], [String.prototype.trim] and the conversion
    of a number to a string. *)
Variable parseFloat : string -> JS.number.
Variable trim : string -> string.
Variable numberToString : JS.number -> string.

(** [String(v)] *)
Definition toString (v : value) : string :=
  match v with
  | VStr s => s
  | VNum n => numberToString n
  end.

(** The value of [a || b || ... || 'text'], which is never undefined. *)
Definition or_text (v : option value) (text : string) : value :=
  match or_value v (Some (VStr text)) with
  | Some x => x
  | None => VStr text
  end.

(** The object built for one sheet row. *)
Definition previewRow (selectedCourse selectedAngkatan : string)
           (row : JS.object value) : UploadedRow :=
  {| nim :=
       trim (toString
               (or_text (or_value (JS.obj_get row "NIM") (JS.obj_get row "nim"))
                        EmptyString));
     courseCode := selectedCourse;
     angkatan := Some selectedAngkatan;
     score :=
       parseFloat
         (toString
            (or_text (or_value (or_value (JS.obj_get row "Nilai") (JS.obj_get row "nilai"))
                               (JS.obj_get row "Score"))
                     "0"));
     status := pending;
     message := None |}.

Definition preview (selectedCourse selectedAngkatan : string)
           (data : list (JS.object value)) : list UploadedRow :=
  map (previewRow selectedCourse selectedAngkatan) data.
End Preview.

End ExcelGradeUpload.

(* ===================================================================== *)
(** ** GradeUpload (CSV upload of grades) *)
(* ===================================================================== *)

Module GradeUpload.
Import Supabase.
Local Open Scope string_scope.
Local Open Scope awaited_scope.

Definition getLetterGrade (score : JS.number) : string :=
    if JS.ge score 85 then "A"
    else if JS.ge score 80 then "B+"
    else if JS.ge score 75 then "B"
    else if JS.ge score 70 then "B-"
    else if JS.ge score 65 then "C+"
    else if JS.ge score 60 then "C"
    else if JS.ge score 55 then "D"
    else "E".

  (** A parsed CSV line: header name to cell text. *)
Definition Row := JS.object string.

Inductive ResultType := success | error.

Record UploadResult := { type : ResultType; message : string }.

Record State := {
    successCount : nat;
    failedCount : nat;
    grades : list GradeRecord
  }.

Definition failed (st : State) : State :=
    {| successCount := successCount st; failedCount := S (failedCount st);
       grades := grades st |}.

Definition succeeded (st : State) (r : GradeRecord) : State :=
    {| successCount := S (successCount st); failedCount := failedCount st;
       grades := upsert (grades st) r |}.

Section WithParseFloat.
    (** The built-in [parseFloat]. *)
Variable parseFloat : string -> JS.number.

Definition nimOf (row : Row) : option string :=
      JS.or_string (JS.obj_get row "NIM") (JS.obj_get row "nim").

Definition courseCodeOf (row : Row) : option string :=
      JS.or_string (JS.obj_get row "Kode Mata Kuliah") (JS.obj_get row "course_code").

    (** [row['Nilai'] || row['score'] || '0'] *)
Definition scoreText (row : Row) : string :=
      match JS.or_string (JS.or_string (JS.obj_get row "Nilai") (JS.obj_get row "score"))
                         (Some "0") with
      | Some s => s
      | None => "0"
      end.

Definition scoreOf (row : Row) : JS.number := parseFloat (scoreText row).

    (** The [try] block of one iteration. *)
Definition tryRow (be : Backend) (st : State) (row : Row) : awaited State :=
      let nim := nimOf row in
      let courseCode := courseCodeOf row in
      let score := scoreOf row in
      match nim, courseCode with
      | Some nim', Some courseCode' =>
          if JS.not_string nim' || JS.not_string courseCode' || JS.not_number score
          then Returns (failed st)
          else
            student <- student_by_nim be nim' ;;
            match student with
            | Some sid =>
                if JS.not_string sid then Returns (failed st)
                else
                  course <- course_by_code be courseCode' ;;
                  match course with
                  | Some cid =>
                      if JS.not_string cid then Returns (failed st)
                      else
                        let letterGrade := getLetterGrade score in
                        let record := {| student_id := sid; course_id := cid;
                                         Supabase.score := score;
                                         letter_grade := letterGrade |} in
                        upsertError <- upsert_grade be record ;;
                        match upsertError with
                        | Some _ => Returns (failed st)
                        | None => Returns (succeeded st record)
                        end
                  | None => Returns (failed st)
                  end
            | None => Returns (failed st)
            end
      | _, _ => Returns (failed st)
      end.

    (** One iteration: the [try] block and its [catch]. *)
Definition processRow (be : Backend) (st : State) (row : Row) : State :=
      match tryRow be st row with
      | Returns st' => st'
      | Throws _ => failed st
      end.

Definition initial (grades0 : list GradeRecord) : State :=
      {| successCount := 0; failedCount := 0; grades := grades0 |}.

Definition show_nat (n : nat) : string :=
      NilEmpty.string_of_uint (Nat.to_uint n).

    (** What [handleUpload] leaves behind once the rows are parsed:
        [uploadStats], [result] and the [grades] table. *)
Record Outcome := {
      uploadStats : nat * nat;
      result : UploadResult;
      gradesAfter : list GradeRecord
    }.

    (** [handleUpload], from the loop over [csvData] on. *)
Definition handleUpload (be : Backend) (grades0 : list GradeRecord)
               (csvData : list Row) : Outcome :=
      let st := fold_left (processRow be) csvData (initial grades0) in
      {| uploadStats := (successCount st, failedCount st);
         result := {| type := success;
                      message := "Upload selesai! " ++ show_nat (successCount st)
                                   ++ " nilai berhasil diinput, "
                                   ++ show_nat (failedCount st) ++ " gagal." |};
         gradesAfter := grades st |}.
End WithParseFloat.

(** *** [parseCSV] *)

(** [s.split(sep)] for a separator of one character. *)
Fixpoint split (sep : ascii) (s : string) : list string :=
  match s with
  | EmptyString => [EmptyString]
  | String c s' =>
      if Ascii.eqb c sep then EmptyString :: split sep s'
      else match split sep s' with
           | w :: ws => String c w :: ws
           | [] => [String c EmptyString]
           end
  end.

Section ParseCSV.
(** The built-in [String.prototype.trim]. *)
Variable trim : string -> string.

(** [values[index] || ''] *)
Definition valueAt (values : list string) (index : nat) : string :=
  match nth_error values index with
  | Some v => if JS.not_string v then EmptyString else v
  | None => EmptyString
  end.

(** [headers.forEach((header, index) => row[header] = values[index] || '')] *)
Fixpoint fillRow (row : Row) (headers : list string) (index : nat)
         (values : list string) : Row :=
  match headers with
  | [] => row
  | header :: rest =>
      fillRow (JS.obj_set row header (valueAt values index)) rest (S index) values
  end.

Definition headersOf (text : string) : list string :=
  map trim (split "," (hd EmptyString (split "010" (trim text)))).

(** The body of the loop over the lines after the first. *)
Definition parseLine (headers : list string) (line : string) : list Row :=
  if JS.not_string (trim line) then []
  else [fillRow [] headers 0 (map trim (split "," line))].

Definition parseCSV (text : string) : list Row :=
  flat_map (parseLine (headersOf text)) (tl (split "010" (trim text))).
End ParseCSV.

End GradeUpload.

(* ===================================================================== *)
(** ** ManualGradeInput (grade entry per enrolled student) *)
(* ===================================================================== *)

Module ManualGradeInput.
Import Supabase.
Local Open Scope string_scope.

Definition calculateLetterGrade (score : JS.number) : string :=
    if JS.ge score 85 then "A"
    else if JS.ge score 80 then "A-"
    else if JS.ge score 75 then "B+"
    else if JS.ge score 70 then "B"
    else if JS.ge score 65 then "B-"
    else if JS.ge score 60 then "C+"
    else if JS.ge score 55 then "C"
    else if JS.ge score 50 then "C-"
    else if JS.ge score 45 then "D"
    else "E".

  (** The object built for one entry of [gradeInputs] in [handleSaveGrades]. *)
Definition gradeToSave (selectedCourse studentId : string) (numScore : JS.number)
    : GradeRecord :=
    {| student_id := studentId;
       course_id := selectedCourse;
       score := numScore;
       letter_grade := calculateLetterGrade numScore |}.

Section GradeInputs.
(** The built-in conversion [Number(text)]. *)
Variable Number : string -> JS.number.

(** [handleScoreChange]: the new [gradeInputs]. *)
Definition handleScoreChange (gradeInputs : JS.object string)
           (studentId value : string) : JS.object string :=
  if String.eqb value EmptyString
     || (negb (JS.isNaN (Number value)) && JS.ge (Number value) 0
         && JS.le (Number value) 100)
  then JS.obj_set gradeInputs studentId value
  else gradeInputs.

(** [gradesToSave] of [handleSaveGrades]: the entries that hold a number. *)
Definition gradesToSave (selectedCourse : string) (gradeInputs : JS.object string)
  : list GradeRecord :=
  map (fun entry => gradeToSave selectedCourse (fst entry) (Number (snd entry)))
      (filter (fun entry => negb (String.eqb (snd entry) EmptyString)
                            && negb (JS.isNaN (Number (snd entry))))
              gradeInputs).
End GradeInputs.

End ManualGradeInput.

(* ===================================================================== *)
(** ** Dashboard (the student's own grades) *)
(* ===================================================================== *)

Module Dashboard.
Local Open Scope string_scope.

(** [GradeWithCourse], as far as [calculateGPA] reads it; [course] may be
    null. *)
Record CourseInfo := { credits : Q }.

Record GradeWithCourse := {
  letter_grade : string;
  course : option CourseInfo
}.

(** [gradePoints[letter] || 0] for the table of [calculateGPA]. *)
Definition pointsOf (letter : string) : Q :=
  if String.eqb letter "A" then 4
  else if String.eqb letter "A-" then 37 # 10
  else if String.eqb letter "B+" then 33 # 10
  else if String.eqb letter "B" then 3
  else if String.eqb letter "B-" then 27 # 10
  else if String.eqb letter "C+" then 23 # 10
  else if String.eqb letter "C" then 2
  else if String.eqb letter "D" then 1
  else 0.

(** [grade.course?.credits || 3] *)
Definition creditsOf (grade : GradeWithCourse) : Q :=
  match course grade with
  | Some c => if Qeq_bool (credits c) 0 then 3 else credits c
  | None => 3
  end.

Definition totalPoints (grades : list GradeWithCourse) : Q :=
  fold_left (fun sum grade => sum + pointsOf (letter_grade grade) * creditsOf grade)%Q
            grades 0.

Definition totalCredits (grades : list GradeWithCourse) : Q :=
  fold_left (fun sum grade => sum + creditsOf grade)%Q grades 0.

(** The result of a division: a finite number, or none when the divisor
    is 0. *)
Inductive quotient := Finite (q : Q) | NotFinite.

Definition divide (a b : Q) : quotient :=
  if Qeq_bool b 0 then NotFinite else Finite (a / b).

Section GPA.
(** The built-in [toFixed(2)]. *)
Variable toFixed2 : quotient -> string.

Definition calculateGPA (grades : list GradeWithCourse) : string :=
  match grades with
  | [] => "0.00"
  | _ => toFixed2 (divide (totalPoints grades) (totalCredits grades))
  end.
End GPA.

End Dashboard.

(* ===================================================================== *)
(** ** GradingScaleManagement (editing the grading scales) *)
(* ===================================================================== *)

Module GradingScaleManagement.
Import GradingScales.
Local Open Scope string_scope.

Record GradingScaleForm := {
  f_curriculum : string;
  f_letter_grade : string;
  f_min_score : string;
  f_max_score : string;
  f_grade_point : string;
  f_description : string
}.

(** What [handleSubmit] does: it shows an error, or it sends the entry to
    the table (an update of [editingId] when there is one, an insert
    otherwise). *)
Inductive SubmitResult :=
| ShowError (text : string)
| Send (editingId : option string) (dataToSave : GradingScale).

Section Submit.
(** The built-in [parseFloat]. *)
Variable parseFloat : string -> JS.number.

Definition handleSubmit (formData : GradingScaleForm) (editingId : option string)
  : SubmitResult :=
  let minScore := parseFloat (f_min_score formData) in
  let maxScore := parseFloat (f_max_score formData) in
  let gradePoint := parseFloat (f_grade_point formData) in
  match minScore, maxScore, gradePoint with
  | JS.Num minQ, JS.Num maxQ, JS.Num pointQ =>
      if JS.lt minScore 0 || JS.gt minScore 100 || JS.lt maxScore 0 || JS.gt maxScore 100
      then ShowError "Nilai harus antara 0-100"
      else if negb (Qle_bool minQ maxQ)
      then ShowError "Nilai minimum tidak boleh lebih besar dari nilai maksimum"
      else if JS.lt gradePoint 0 || JS.gt gradePoint 4
      then ShowError "Grade point harus antara 0-4"
      else Send editingId
             {| curriculum := f_curriculum formData;
                letter_grade := f_letter_grade formData;
                min_score := minQ;
                max_score := maxQ;
                grade_point := pointQ;
                description := f_description formData |}
  | _, _, _ => ShowError "Nilai harus berupa angka yang valid"
  end.
End Submit.

Section Copy.
(** The built-in [String.prototype.trim]. *)
Variable trim : string -> string.

(** [handleCopyCurriculum]: the rows given to [insert]; [None] when nothing
    is inserted.  [answer] is what the prompt returned. *)
Definition handleCopyCurriculum (gradingScales : table) (fromCurriculum : string)
           (answer : option string) : option table :=
  match answer with
  | None => None
  | Some newCurriculum =>
      if JS.not_string newCurriculum || String.eqb (trim newCurriculum) EmptyString
      then None
      else
        match filter (fun s => String.eqb (curriculum s) fromCurriculum) gradingScales with
        | [] => None
        | scalesToCopy =>
            Some (map (fun scale =>
                         {| curriculum := trim newCurriculum;
                            letter_grade := letter_grade scale;
                            min_score := min_score scale;
                            max_score := max_score scale;
                            grade_point := grade_point scale;
                            description := description scale |})
                      scalesToCopy)
        end
  end.
End Copy.

End GradingScaleManagement.

(* ===================================================================== *)
(** ** TranscriptPrint (the transcript of a student) *)
(* ===================================================================== *)

Module TranscriptPrint.

(** A grade as the query returns it; [course] may be null.  The score is
    the decimal of the [grades.score] column; [parseFloat(grade.score)] is
    the double nearest to it, [Double.ofQ]. *)
Record CourseRow := { code : string; name : string; credits : Q }.

Record GradeRow := {
  score : Q;
  letter_grade : string;
  course : option CourseRow
}.

Record TranscriptCourse := {
  courseCode : string;
  courseName : string;
  sks : Q;
  t_score : Q;
  letterGrade : string
}.

(** [grades.filter(g => g.course).map(...)] *)
Definition coursesOf (grades : list GradeRow) : list TranscriptCourse :=
  flat_map (fun grade =>
              match course grade with
              | Some c =>
                  [ {| courseCode := code c; courseName := name c; sks := credits c;
                       t_score := score grade; letterGrade := letter_grade grade |} ]
              | None => []
              end) grades.

(** [courses.reduce((sum, c) => sum + c.sks, 0)], in double arithmetic. *)
Definition totalSKS (courses : list TranscriptCourse) : Double.double :=
  fold_left (fun sum c => Double.add sum (Double.ofQ (sks c))) courses Double.zero.

(** [courses.length > 0 ? courses.reduce((sum, c) => sum + c.score, 0)
    / courses.length : 0], in double arithmetic. *)
Definition averageScore (courses : list TranscriptCourse) : Double.double :=
  match courses with
  | [] => Double.zero
  | _ => Double.div
           (fold_left (fun sum c => Double.add sum (Double.ofQ (t_score c)))
                      courses Double.zero)
           (Double.ofQ (inject_Z (Z.of_nat (List.length courses))))
  end.

End TranscriptPrint.

(* ===================================================================== *)
(** * Vocabulary of the properties *)
(* ===================================================================== *)

(** ** Doubles *)

Module DoubleSpec.
Import Double.
Local Open Scope Q_scope.

(** A magnitude that a finite double can have: [n * 2^e] with [n <= 2^53]
    and [e >= -1074]. *)
Definition representable (q : Q) : Prop :=
  exists n e : Z, (0 <= n <= 2 ^ 53)%Z /\ (-1074 <= e)%Z /\ q == inject_Z n * pow2 e.

(** A multiple of the smallest positive double. *)
Definition ongrid (q : Q) : Prop := exists k : Z, q == inject_Z k * pow2 (-1074).

(** The finite doubles that the operations produce. *)
Definition valid (x : double) : Prop :=
  match x with
  | Fin _ m => representable m
  | _ => True
  end.

(** The class of a number (-1 for -Infinity, 0 for a finite number, 1 for
    Infinity) and its value; the comparisons order numbers by class, then
    by value. *)
Definition cls (x : double) : Z :=
  match x with
  | Inf true => -1
  | Inf false => 1
  | _ => 0
  end.

Definition val (x : double) : Q :=
  match x with
  | Fin s m => toQ s m
  | _ => 0
  end.

(** A binary64 value of the kernel read as a [double]. *)
Definition ofFloat (f : PrimFloat.float) : double :=
  match FloatOps.Prim2SF f with
  | SpecFloat.S754_zero s => Fin s 0
  | SpecFloat.S754_infinity s => Inf s
  | SpecFloat.S754_nan => NaN
  | SpecFloat.S754_finite s m e => Fin s (Qred (inject_Z (Zpos m) * pow2 e))
  end.

(** A whole number below [2^63] as a binary64 value of the kernel. *)
Definition float_of (n : Z) : PrimFloat.float := PrimFloat.of_uint63 (Uint63.of_Z n).

End DoubleSpec.

(** Doubles named by the decimal that JavaScript prints for them: the
    shortest decimal that reads back as the same double. *)
Module Printed.
Import PrimFloat.

#[warnings="-inexact-float"]
Definition js_11_100000000000001 : Double.double :=
  DoubleSpec.ofFloat 11.100000000000001%float.

#[warnings="-inexact-float"]
Definition js_3_7000000000000006 : Double.double :=
  DoubleSpec.ofFloat 3.7000000000000006%float.

#[warnings="-inexact-float"]
Definition js_3_6999999999999997 : Double.double :=
  DoubleSpec.ofFloat 3.6999999999999997%float.

#[warnings="-inexact-float"]
Definition js_25_9 : Double.double := DoubleSpec.ofFloat 25.9%float.

#[warnings="-inexact-float"]
Definition js_0_10000000000000002 : Double.double :=
  DoubleSpec.ofFloat 0.10000000000000002%float.

End Printed.

(** ** Sorting *)

Module SortSpec.

(** [before cmp a b]: the comparator does not ask for [b] ahead of [a]. *)
Definition before (A : Type) (cmp : A -> A -> Q) (a b : A) : Prop := cmp a b <= 0.

End SortSpec.

(** ** The semester report *)

Module ReportSpec.
Import JS GradingScales SemesterGradeReport.
Local Open Scope Q_scope.

(** The sort order in the specification's words: descending by [gpa], then
    by [totalGradePoint] (the weighted grade points), then by [totalScore];
    [<], [===] and [<=] are the comparisons of doubles.
    [keyOrder a b] reads "[a] is not behind [b]". *)
Definition keyOrder (a b : StudentGrade) : Prop :=
  Double.ltb (gpa b) (gpa a) = true \/
  (Double.eqb (gpa a) (gpa b) = true /\
   (Double.ltb (totalGradePoint b) (totalGradePoint a) = true \/
    (Double.eqb (totalGradePoint a) (totalGradePoint b) = true /\
     Double.leb (totalScore b) (totalScore a) = true))).

(** The three sort keys of an entry are numbers: none is [NaN]. *)
Definition numericKeys (a : StudentGrade) : Prop :=
  Double.isNaN (gpa a) = false /\
  Double.isNaN (totalGradePoint a) = false /\
  Double.isNaN (totalScore a) = false.

(** The three sort keys of an entry are doubles. *)
Definition validKeys (a : StudentGrade) : Prop :=
  DoubleSpec.valid (gpa a) /\
  DoubleSpec.valid (totalGradePoint a) /\
  DoubleSpec.valid (totalScore a).

(** The keys of an entry can be compared: they are doubles and none is
    [NaN]. *)
Definition comparable (a : StudentGrade) : Prop := numericKeys a /\ validKeys a.

(** The sum of a list of numbers as a loop with [+=] computes it: from 0,
    left to right, every addition rounded. *)
Definition dsum (l : list Double.double) : Double.double :=
  fold_left Double.add l Double.zero.

(** [gradePoint * credits] of one course result. *)
Definition weighted (cg : CourseGrade) : Double.double :=
  Double.mul (Double.ofQ (cg_grade_point cg)) (Double.ofQ (credits cg)).

(** The identity of a score record: its (student, course) pair. *)
Definition pairKey (g : Grade) : string * string := (g_student_id g, g_course_id g).

(** The object obtained by assigning the entries in order. *)
Definition build (es : list (string * CourseGrade)) : object CourseGrade :=
  fold_left (fun o e => obj_set o (fst e) (snd e)) es [].

Section Report.
Variable grading_scales : table.
Variable curriculum : string.
Variable coursesData : list Course.
Variable studentsData : list Student.
Variable gradesData : list Grade.

(** The grades of student [k] whose course is one of [coursesData]. *)
Definition inScope (k : string) : list Grade :=
  filter (fun g => String.eqb (g_student_id g) k
                   && existsb (fun c => String.eqb (c_id c) (g_course_id g)) coursesData)
         gradesData.

(** The credits of the course a grade refers to. *)
Definition creditsOf (g : Grade) : Q :=
  match find (fun c => String.eqb (c_id c) (g_course_id g)) coursesData with
  | Some course => c_credits course
  | None => 0
  end.

(** The grade point resolved for a grade. *)
Definition gradePointOf (g : Grade) : Q :=
  getGradePoint grading_scales (g_score g) curriculum.

(** What one grade contributes to the [courses] object of student [k]. *)
Definition entriesOf (k : string) (g : Grade) : list (string * CourseGrade) :=
  if String.eqb (g_student_id g) k then
    match find (fun c => String.eqb (c_id c) (g_course_id g)) coursesData with
    | Some course => [(g_course_id g, courseGradeOf grading_scales curriculum g course)]
    | None => []
    end
  else [].

Definition gradeEntries (k : string) (gs : list Grade) : list (string * CourseGrade) :=
  flat_map (entriesOf k) gs.

(** [filled m done]: [m] is the initial map in which every student's
    [courses] holds the entries of the grades in [done]. *)
Definition filled (m : object StudentGrade) (done : list Grade) : Prop :=
  obj_keys m = obj_keys (initStudentGradesMap studentsData) /\
  forall k, obj_get m k =
            option_map (fun sg0 => set_courses sg0 (build (gradeEntries k done)))
                       (obj_get (initStudentGradesMap studentsData) k).

(** The entry of the student [s] once the grades are filled in. *)
Definition entryOf (s : Student) : StudentGrade :=
  set_courses (newStudentGrade s) (build (gradeEntries (s_id s) gradesData)).

End Report.
End ReportSpec.

(** ** Grade resolution *)

Module ResolveGradeSpec.
Import GradingScales.

(** The comparator that orders entries by descending [minScore]. *)
Definition byMinScoreDesc (a b : GradingScale) : Q := (min_score b - min_score a)%Q.

(** The resolution rule in the specification's words: the entries ordered
    by descending [minScore], first match taken. *)
Definition spec_resolveGrade (t : table) (score : Q) (curriculum : string)
  : option GradingScale :=
  find (covers score curriculum) (JS.sort byMinScoreDesc t).

(** The rows come in descending [min_score] order. *)
Definition descending (t : table) : Prop :=
  StronglySorted (fun a b => (min_score b <= min_score a)%Q) t.

End ResolveGradeSpec.

(** ** The uploads *)

Module UploadSpec.
Import Supabase.

Section Excel.
Import ExcelGradeUpload.
Variable be : Backend.

(** The row fails the check on NIM and score range. *)
Definition excelInvalid (row : UploadedRow) : bool :=
  JS.not_string (nim row) || JS.lt (score row) 0 || JS.gt (score row) 100.

(** The lookup finds no student, resp. no course, for the row. *)
Definition excelStudentMissing (row : UploadedRow) : bool :=
  match student_by_nim_angkatan be (nim row) (or_empty (angkatan row)) with
  | Returns None => true
  | _ => false
  end.

Definition excelCourseMissing (row : UploadedRow) : bool :=
  match course_by_code be (courseCode row) with
  | Returns None => true
  | _ => false
  end.

(** [!data || !data.id] for the answer of a lookup. *)
Definition noId (data : option string) : bool :=
  match data with
  | Some id => JS.not_string id
  | None => true
  end.

(** The two lookups and the upsert of a row. *)
Definition studentOf (row : UploadedRow) : awaited (option string) :=
  student_by_nim_angkatan be (nim row) (or_empty (angkatan row)).

Definition courseOf (row : UploadedRow) : awaited (option string) :=
  course_by_code be (courseCode row).

Definition recordOf (row : UploadedRow) (sid cid : string) : GradeRecord :=
  {| student_id := sid; course_id := cid; Supabase.score := score row;
     letter_grade := getLetterGrade (score row) |}.

Definition studentMessage (row : UploadedRow) : string :=
  ("Mahasiswa dengan NIM " ++ nim row ++ " angkatan " ++ show (angkatan row)
     ++ " tidak ditemukan")%string.

Definition courseMessage (row : UploadedRow) : string :=
  ("Mata kuliah " ++ courseCode row ++ " tidak ditemukan")%string.

(** [excelReason row m]: the reason why [row] is an error, and the message
    [m] that states it: the row is invalid; its student is not found; its
    course is not found; the database refuses the upsert, with its own
    message; or one of the three calls fails, with the message of what was
    thrown. *)
Inductive excelReason (row : UploadedRow) : string -> Prop :=
| invalid_row :
    excelInvalid row = true ->
    excelReason row "NIM atau nilai tidak valid"
| student_not_found data :
    excelInvalid row = false ->
    studentOf row = Returns data -> noId data = true ->
    excelReason row (studentMessage row)
| course_not_found sid data :
    excelInvalid row = false ->
    studentOf row = Returns (Some sid) -> JS.not_string sid = false ->
    courseOf row = Returns data -> noId data = true ->
    excelReason row (courseMessage row)
| upsert_refused sid cid m :
    excelInvalid row = false ->
    studentOf row = Returns (Some sid) -> JS.not_string sid = false ->
    courseOf row = Returns (Some cid) -> JS.not_string cid = false ->
    upsert_grade be (recordOf row sid cid) = Returns (Some m) ->
    excelReason row m
| student_lookup_failed e :
    excelInvalid row = false ->
    studentOf row = Throws e ->
    excelReason row (catch_message e)
| course_lookup_failed sid e :
    excelInvalid row = false ->
    studentOf row = Returns (Some sid) -> JS.not_string sid = false ->
    courseOf row = Throws e ->
    excelReason row (catch_message e)
| upsert_failed sid cid e :
    excelInvalid row = false ->
    studentOf row = Returns (Some sid) -> JS.not_string sid = false ->
    courseOf row = Returns (Some cid) -> JS.not_string cid = false ->
    upsert_grade be (recordOf row sid cid) = Throws e ->
    excelReason row (catch_message e).

(** The row is valid, its student and its course are found, and the
    database accepts the record. *)
Definition excelAccepted (row : UploadedRow) : Prop :=
  excelInvalid row = false /\
  exists sid cid,
    studentOf row = Returns (Some sid) /\ JS.not_string sid = false /\
    courseOf row = Returns (Some cid) /\ JS.not_string cid = false /\
    upsert_grade be (recordOf row sid cid) = Returns None.

(** [out] is what the upload records for [row]: the row itself, marked as
    a success when it is accepted, or marked as an error together with the
    message that states the reason; an invalid row, a row without student
    and a row without course are errors. *)
Definition excelHandled (row out : UploadedRow) : Prop :=
  ((out = with_status row success (message row) /\ excelAccepted row) \/
   exists m, out = with_status row error (Some m) /\ excelReason row m) /\
  (excelInvalid row = true ->
     out = with_status row error (Some "NIM atau nilai tidak valid"%string)) /\
  (excelInvalid row = false -> excelStudentMissing row = true ->
     out = with_status row error (Some (studentMessage row))) /\
  (excelStudentMissing row = true -> status out = error) /\
  (excelCourseMissing row = true -> status out = error).
End Excel.

Section Csv.
Import GradeUpload.
Variable parseFloat : string -> JS.number.
Variable be : Backend.

(** NIM, course code or score is absent ([!nim || !courseCode || !score]). *)
Definition csvMissingField (row : Row) : bool :=
  JS.not_opt_string (nimOf row) || JS.not_opt_string (courseCodeOf row)
  || JS.not_number (scoreOf parseFloat row).

Definition csvStudentMissing (row : Row) : bool :=
  match nimOf row with
  | Some nim => match student_by_nim be nim with
                | Returns None => true
                | _ => false
                end
  | None => false
  end.

Definition csvCourseMissing (row : Row) : bool :=
  match courseCodeOf row with
  | Some code => match course_by_code be code with
                 | Returns None => true
                 | _ => false
                 end
  | None => false
  end.

Definition csvMustFail (row : Row) : bool :=
  csvMissingField row || csvStudentMissing row || csvCourseMissing row.

(** The error taxonomy of the specification, for one CSV row: a required
    field is absent ([ValidationError]), or the student or the course the
    row refers to does not exist ([MissingReferenceError]). *)
Inductive Problem :=
| ValidationError
| MissingReferenceError (what : string).

Definition problemOf (row : Row) : option Problem :=
  if csvMissingField row then Some ValidationError
  else if csvStudentMissing row then Some (MissingReferenceError "student")
  else if csvCourseMissing row then Some (MissingReferenceError "course")
  else None.

(** [v] is what the upload does with [row], whatever came before it: it
    counts a failure ([None]), or it stores one record and counts a success
    ([Some r]); the record holds the parsed score of the row and the letter
    grade of that score; a row that must fail is a failure. *)
Definition csvHandled (row : Row) (v : option GradeRecord) : Prop :=
  (forall st,
     processRow parseFloat be st row
     = match v with Some r => succeeded st r | None => failed st end) /\
  (csvMustFail row = true -> v = None) /\
  (forall r, v = Some r ->
     Supabase.score r = scoreOf parseFloat row /\
     letter_grade r = getLetterGrade (Supabase.score r) /\
     JS.not_number (Supabase.score r) = false).
End Csv.

(** The records stored and the failures counted by a list of verdicts,
    one per row. *)
Definition storedBy (vs : list (option GradeRecord)) : list GradeRecord :=
  flat_map (fun v => match v with Some r => [r] | None => [] end) vs.

Definition failuresOf (vs : list (option GradeRecord)) : nat :=
  List.length (filter (fun v => match v with Some _ => false | None => true end) vs).

End UploadSpec.

(** ** The grades table *)

Module GradesTable.
Import Supabase.

(** The conflict key of an upsert: the (student, course) pair. *)
Definition gradeKey (r : GradeRecord) : string * string := (student_id r, course_id r).

Definition key_eqb (a b : string * string) : bool :=
  String.eqb (fst a) (fst b) && String.eqb (snd a) (snd b).

(** The record stored for a key, if any. *)
Definition lookup (grades : list GradeRecord) (k : string * string)
  : option GradeRecord :=
  find (fun g => key_eqb (gradeKey g) k) grades.

(** The table after a sequence of accepted upserts. *)
Definition upsertAll (grades : list GradeRecord) (rs : list GradeRecord)
  : list GradeRecord :=
  fold_left upsert rs grades.

(** What a sequence of upserts leaves for the key [k], starting from [acc]:
    the last record of the sequence with this key, if there is one. *)
Definition lastWrite (k : string * string) (acc : option GradeRecord)
           (rs : list GradeRecord) : option GradeRecord :=
  fold_left (fun acc r => if key_eqb (gradeKey r) k then Some r else acc) rs acc.

End GradesTable.

(** ** Runs of the upload loops *)

Module UploadRuns.
Import Supabase GradesTable.

(** The state of the Excel upload after a run that appended the rows
    [outs], had the records [rs] accepted and counted [ne] errors. *)
Definition excelRun (st : ExcelGradeUpload.State)
           (outs : list ExcelGradeUpload.UploadedRow) (rs : list GradeRecord) (ne : nat)
  : ExcelGradeUpload.State :=
  {| ExcelGradeUpload.processedRows := ExcelGradeUpload.processedRows st ++ outs;
     ExcelGradeUpload.successCount := ExcelGradeUpload.successCount st + List.length rs;
     ExcelGradeUpload.errorCount := ExcelGradeUpload.errorCount st + ne;
     ExcelGradeUpload.grades := upsertAll (ExcelGradeUpload.grades st) rs |}.

(** The state of the CSV upload after a run that had the records [rs]
    accepted and counted [nf] failures. *)
Definition csvRun (st : GradeUpload.State) (rs : list GradeRecord) (nf : nat)
  : GradeUpload.State :=
  {| GradeUpload.successCount := GradeUpload.successCount st + List.length rs;
     GradeUpload.failedCount := GradeUpload.failedCount st + nf;
     GradeUpload.grades := upsertAll (GradeUpload.grades st) rs |}.

(** A record as the Excel upload writes it: the letter is the mapping of
    the score, and the score is neither below 0 nor above 100. *)
Definition excelWritten (r : GradeRecord) : Prop :=
  letter_grade r = ExcelGradeUpload.getLetterGrade (score r) /\
  JS.lt (score r) 0 = false /\ JS.gt (score r) 100 = false.

(** A record as the CSV upload writes it: the letter is the mapping of the
    score, and the score is neither 0 nor [NaN]. *)
Definition csvWritten (r : GradeRecord) : Prop :=
  letter_grade r = GradeUpload.getLetterGrade (score r) /\
  JS.not_number (score r) = false.

End UploadRuns.

(** ** The transcript *)

Module TranscriptSpec.
Import TranscriptPrint.

(** The grades that the transcript counts: those with a course. *)
Definition counted (grades : list GradeRow) : list GradeRow :=
  filter (fun g => match course g with Some _ => true | None => false end) grades.

End TranscriptSpec.

(** ** Manual grade entry, grading scales *)

Module EntrySpec.
Import GradingScales.

(** The [gradeInputs] reached from the empty object by a sequence of
    [handleScoreChange] calls, each given as (student id, typed text). *)
Definition entered (Number : string -> JS.number) (events : list (string * string))
  : JS.object string :=
  fold_left (fun gradeInputs e =>
               ManualGradeInput.handleScoreChange Number gradeInputs (fst e) (snd e))
            events [].

(** The CHECK constraints of the [grading_scales] table. *)
Definition table_checks (d : GradingScale) : Prop :=
  (0 <= min_score d /\ min_score d <= 100)%Q /\
  (0 <= max_score d /\ max_score d <= 100)%Q /\
  (0 <= grade_point d /\ grade_point d <= 4)%Q /\
  (min_score d <= max_score d)%Q.

(** A text that [handleScoreChange] lets in. *)
Definition accepted (Number : string -> JS.number) (value : string) : Prop :=
  value = EmptyString \/
  exists q, Number value = JS.Num q /\ (0 <= q <= 100)%Q.

(** A scale row under another curriculum name. *)
Definition relabel (newName : string) (scale : GradingScale) : GradingScale :=
  {| curriculum := newName;
     letter_grade := letter_grade scale;
     min_score := min_score scale;
     max_score := max_score scale;
     grade_point := grade_point scale;
     description := description scale |}.

End EntrySpec.

(** ** The exported sheet *)

Module ExportSpec.
Import SemesterGradeReport.

(** The cell at a sheet address. *)
Definition cellAt (data : list (list cell)) (r c : nat) : option cell :=
  match nth_error data r with
  | Some row => nth_error row c
  | None => None
  end.

End ExportSpec.

(* ===================================================================== *)
(** * Concrete data *)
(* ===================================================================== *)

Module Examples.
Import GradingScales SemesterGradeReport.
Local Open Scope string_scope.
Local Open Scope Q_scope.

(** The scale of the worked example: A [85,100] 4.0, B [70,84.99] 3.0,
    E [0,69.99] 0.0. *)
Definition scale : table :=
  [ Build_GradingScale "2024" "A" 85 100 4 EmptyString;
    Build_GradingScale "2024" "B" 70 (8499#100) 3 EmptyString;
    Build_GradingScale "2024" "E" 0 (6999#100) 0 EmptyString ].

Definition courseP : Course :=
  {| c_id := "course-p"; c_code := "P"; c_name := "P"; c_credits := 3;
     c_semester := 1; c_curriculum := "2024" |}.
Definition courseQ : Course :=
  {| c_id := "course-q"; c_code := "Q"; c_name := "Q"; c_credits := 2;
     c_semester := 1; c_curriculum := "2024" |}.

Definition studentX : Student :=
  {| s_id := "student-x"; s_nim := "2024001"; s_name := "X"; s_angkatan := "2024" |}.
Definition studentY : Student :=
  {| s_id := "student-y"; s_nim := "2024002"; s_name := "Y"; s_angkatan := "2024" |}.
(** A student without any grade. *)
Definition studentW : Student :=
  {| s_id := "student-w"; s_nim := "2024003"; s_name := "W"; s_angkatan := "2024" |}.

Definition grade (sid cid : string) (s : Q) (letter : string) : Grade :=
  {| g_score := s; g_letter_grade := letter; g_course_id := cid; g_student_id := sid |}.

Definition gradesX : list Grade :=
  [ grade "student-x" "course-p" 90 "A"; grade "student-x" "course-q" 72 "B-" ].
Definition gradesY : list Grade :=
  [ grade "student-y" "course-p" 90 "A"; grade "student-y" "course-q" 72 "B-" ].

(** Student X alone. *)
Definition reportX : list StudentGrade :=
  report scale "2024" [courseP; courseQ] [studentX] gradesX.

(** X and Y with the same scores. *)
Definition reportTie : list StudentGrade :=
  report scale "2024" [courseP; courseQ] [studentX; studentY] (gradesX ++ gradesY).

(** W (no grades) listed before X. *)
Definition reportWX : list StudentGrade :=
  report scale "2024" [courseP; courseQ] [studentW; studentX] gradesX.

(** Two students whose averages are both 3.7 in exact arithmetic: "s-a"
    has 82 (A-) in a course of 3 credits, "s-b" has 90 (A) in a course of
    4 credits and 77 (B+) in a course of 3 credits; "s-b" is listed first. *)
Definition reportRounding : list StudentGrade :=
  report default_2024 "2024"
    [ {| c_id := "c1"; c_code := "C1"; c_name := "C1"; c_credits := 3;
         c_semester := 1; c_curriculum := "2024" |};
      {| c_id := "c2"; c_code := "C2"; c_name := "C2"; c_credits := 4;
         c_semester := 1; c_curriculum := "2024" |};
      {| c_id := "c3"; c_code := "C3"; c_name := "C3"; c_credits := 3;
         c_semester := 1; c_curriculum := "2024" |} ]
    [ {| s_id := "s-b"; s_nim := "2024011"; s_name := "B"; s_angkatan := "2024" |};
      {| s_id := "s-a"; s_nim := "2024012"; s_name := "A"; s_angkatan := "2024" |} ]
    [ grade "s-a" "c1" 82 "A-"; grade "s-b" "c2" 90 "A"; grade "s-b" "c3" 77 "B+" ].

(** One grade in a course whose credits no double holds. *)
Definition reportOverflow : list StudentGrade :=
  report scale "2024"
    [ {| c_id := "course-p"; c_code := "P"; c_name := "P";
         c_credits := inject_Z (2 ^ 1024); c_semester := 1; c_curriculum := "2024" |} ]
    [studentX] [grade "student-x" "course-p" 90 "A"].

(** A scale with nothing between 75 and 79.99. *)
Definition gapScale : table :=
  [ Build_GradingScale "2024" "A" 80 100 4 EmptyString;
    Build_GradingScale "2024" "B" 70 (7499#100) 3 EmptyString;
    Build_GradingScale "2024" "E" 0 (6999#100) 0 EmptyString ].

(** A scale whose rows B and A both cover [80, 84.99]; B is scanned first. *)
Definition overlapScale : table :=
  [ Build_GradingScale "2024" "B" 70 (8499#100) 3 EmptyString;
    Build_GradingScale "2024" "A" 80 100 4 EmptyString ].

End Examples.

(** ** Concrete uploads *)

Module UploadExamples.
Import Supabase.
Local Open Scope string_scope.

(** [parseFloat] on unsigned decimal numerals ("85", "72.5"); anything
    that does not start with a digit or a point followed by a digit is
    [NaN].  It instantiates the built-in in the examples. *)
Definition digit (c : Ascii.ascii) : option Z :=
  let n := Ascii.nat_of_ascii c in
  if ((48 <=? n) && (n <=? 57))%nat then Some (Z.of_nat (n - 48)) else None.

Fixpoint digits (s : string) (acc : Z) (count : nat) : Z * nat * string :=
  match s with
  | String c s' =>
      match digit c with
      | Some d => digits s' (10 * acc + d)%Z (S count)
      | None => (acc, count, s)
      end
  | EmptyString => (acc, count, s)
  end.

Definition parseFloat_decimal (s : string) : JS.number :=
  let '(i, ni, rest) := digits s 0%Z 0%nat in
  match rest with
  | String "."%char rest' =>
      let '(f, nf, _) := digits rest' 0%Z 0%nat in
      if (ni + nf =? 0)%nat then JS.NaN
      else JS.Num (inject_Z i + Qmake f (Pos.pow 10 (Pos.of_nat nf)))
  | _ => if (ni =? 0)%nat then JS.NaN else JS.Num (inject_Z i)
  end.

(** A backend that knows the student with NIM 2024001 and the course
    CS101, and accepts every upsert. *)
Definition backend : Backend :=
  {| student_by_nim := fun nim =>
       Returns (if String.eqb nim "2024001" then Some "student-x" else None);
     student_by_nim_angkatan := fun nim angkatan =>
       Returns (if String.eqb nim "2024001" && String.eqb angkatan "2024"
                then Some "student-x" else None);
     course_by_code := fun code =>
       Returns (if String.eqb code "CS101" then Some "course-p" else None);
     upsert_grade := fun _ => Returns None |}.

Definition csvRow (nim code nilai : string) : GradeUpload.Row :=
  [("NIM", nim); ("Kode Mata Kuliah", code); ("Nilai", nilai)].

Definition excelRow (nim : string) (score : JS.number) : ExcelGradeUpload.UploadedRow :=
  {| ExcelGradeUpload.nim := nim;
     ExcelGradeUpload.courseCode := "CS101";
     ExcelGradeUpload.angkatan := Some "2024";
     ExcelGradeUpload.score := score;
     ExcelGradeUpload.status := ExcelGradeUpload.pending;
     ExcelGradeUpload.message := None |}.

(** [trim] on texts whose white space is made of blanks, tabs, carriage
    returns and line feeds.  It instantiates the built-in in the examples. *)
Definition is_space (c : ascii) : bool :=
  let n := Ascii.nat_of_ascii c in
  ((n =? 32) || (n =? 9) || (n =? 10) || (n =? 13))%nat.

Fixpoint trim_start (s : string) : string :=
  match s with
  | String c s' => if is_space c then trim_start s' else s
  | EmptyString => EmptyString
  end.

Fixpoint trim_end (s : string) : string :=
  match s with
  | String c s' =>
      match trim_end s' with
      | EmptyString => if is_space c then EmptyString else String c EmptyString
      | t => String c t
      end
  | EmptyString => EmptyString
  end.

Definition trim_ascii (s : string) : string := trim_end (trim_start s).

(** A CSV text with a complete line, a blank line and a line without score. *)
Definition csvText : string :=
  "NIM,Kode Mata Kuliah,Nilai" ++ String "010" "2024001, CS101 ,85"
    ++ String "010" "   " ++ String "010" "2024001,CS101" ++ String "010" EmptyString.

End UploadExamples.

(* ===================================================================== *)
(** * Properties *)
(* ===================================================================== *)

(** ** Doubles *)

Module DoubleFacts.
Import Double DoubleSpec.
Local Open Scope Q_scope.


Lemma pow2_pos (e : Z) : 0 < pow2 e.
Proof. apply Qpower_0_lt. reflexivity. Qed.

Lemma pow2_add (a b : Z) : pow2 (a + b) == pow2 a * pow2 b.
Proof. apply Qpower_plus. discriminate. Qed.

Lemma pow2_sub (a b : Z) : pow2 (a - b) == pow2 a / pow2 b.
Proof. apply Qpower_minus. discriminate. Qed.

Lemma pow2_le (a b : Z) : (a <= b)%Z -> pow2 a <= pow2 b.
Proof. intros H. apply Qpower_le_compat_l; [exact H | discriminate]. Qed.

Lemma pow2_lt (a b : Z) : (a < b)%Z -> pow2 a < pow2 b.
Proof. intros H. apply Qpower_lt_compat_l; [exact H | reflexivity]. Qed.

Lemma pow2_lt_inv (a b : Z) : pow2 a < pow2 b -> (a < b)%Z.
Proof. intros H. apply Qpower_lt_compat_l_inv with 2; [exact H | reflexivity]. Qed.

Lemma pow2_Z (n : Z) : (0 <= n)%Z -> pow2 n == inject_Z (2 ^ n).
Proof. intros H. unfold pow2. now rewrite Zpower_Qpower. Qed.

Lemma Qdiv_le_r (a b p : Q) : 0 < p -> a <= b -> a / p <= b / p.
Proof.
  intros Hp H. unfold Qdiv. apply Qmult_le_compat_r; [exact H|].
  apply Qlt_le_weak, Qinv_lt_0_compat, Hp.
Qed.

Lemma Qdiv_mul_cancel (a p : Q) : 0 < p -> a / p * p == a.
Proof. intros Hp. field. intros E. rewrite E in Hp. discriminate. Qed.

Lemma ilog2_spec (q : Q) : 0 < q -> pow2 (ilog2 q) <= q /\ q < pow2 (ilog2 q + 1).
Proof.
  intros Hq. destruct q as [a b]. 
  assert (Ha : (0 < a)%Z) by (unfold Qlt in Hq; simpl in Hq; lia).
  unfold ilog2. cbn [Qnum Qden].
  set (la := Z.log2 a). set (lb := Z.log2 (Z.pos b)).
  assert (Hla : (0 <= la)%Z) by apply Z.log2_nonneg.
  assert (Hlb : (0 <= lb)%Z) by apply Z.log2_nonneg.
  destruct (Z.log2_spec a Ha) as [A1 A2]. fold la in A1, A2.
  destruct (Z.log2_spec (Z.pos b) eq_refl) as [B1 B2]. fold lb in B1, B2.
  assert (QA1 : pow2 la <= inject_Z a) by (rewrite pow2_Z by lia; now rewrite <- Zle_Qle).
  assert (QA2 : inject_Z a < pow2 (la + 1))
    by (rewrite pow2_Z by lia; rewrite <- Zlt_Qlt; now rewrite <- Z.add_1_r in A2).
  assert (QB1 : pow2 lb <= inject_Z (Z.pos b)) by (rewrite pow2_Z by lia; now rewrite <- Zle_Qle).
  assert (QB2 : inject_Z (Z.pos b) < pow2 (lb + 1))
    by (rewrite pow2_Z by lia; rewrite <- Zlt_Qlt; now rewrite <- Z.add_1_r in B2).
  assert (Eq : a # b == inject_Z a / inject_Z (Z.pos b)) by apply Qmake_Qdiv.
  assert (Hb : 0 < inject_Z (Z.pos b)) by reflexivity.
  assert (Hmul : (a # b) * inject_Z (Z.pos b) == inject_Z a)
    by (rewrite Eq; now apply Qdiv_mul_cancel).
  pose proof (pow2_pos lb) as Plb. pose proof (pow2_pos (la - lb)) as Pd.
  pose proof (pow2_pos (la - lb - 1)) as Pd1.
  (* upper: q < 2^(d+1) ; lower: 2^(d-1) <= q *)
  assert (Up : a # b < pow2 (la - lb + 1)).
  { apply Qmult_lt_r with (pow2 lb); [exact Plb|].
    rewrite <- pow2_add. replace (la - lb + 1 + lb)%Z with (la + 1)%Z by lia.
    apply Qle_lt_trans with (inject_Z a); [|exact QA2].
    rewrite <- Hmul. apply Qmult_le_l; [exact Hq | exact QB1]. }
  assert (Lo : pow2 (la - lb - 1) < a # b).
  { apply Qmult_lt_r with (pow2 (lb + 1)); [apply pow2_pos|].
    rewrite <- pow2_add. replace (la - lb - 1 + (lb + 1))%Z with la by lia.
    apply Qle_lt_trans with (inject_Z a); [exact QA1|].
    rewrite <- Hmul. apply Qmult_lt_l; [exact Hq | exact QB2]. }
  destruct (Qle_bool (pow2 (la - lb)) (a # b)) eqn:E.
  - apply Qle_bool_iff in E. split; [exact E | exact Up].
  - split; [now apply Qlt_le_weak|].
    replace (la - lb - 1 + 1)%Z with (la - lb)%Z by lia.
    apply Qnot_le_lt. intros H. apply Qle_bool_iff in H. congruence.
Qed.

Lemma ilog2_unique (q : Q) (e : Z) : pow2 e <= q -> q < pow2 (e + 1) -> ilog2 q = e.
Proof.
  intros H1 H2.
  assert (Hq : 0 < q) by (eapply Qlt_le_trans; [apply pow2_pos | exact H1]).
  destruct (ilog2_spec Hq) as [S1 S2].
  assert (ilog2 q < e + 1)%Z by (apply pow2_lt_inv; eapply Qle_lt_trans; eauto).
  assert (e < ilog2 q + 1)%Z by (apply pow2_lt_inv; eapply Qle_lt_trans; eauto).
  lia.
Qed.

Lemma ilog2_mono (p q : Q) : 0 < p -> p <= q -> (ilog2 p <= ilog2 q)%Z.
Proof.
  intros Hp Hpq.
  assert (Hq : 0 < q) by (eapply Qlt_le_trans; eauto).
  destruct (ilog2_spec Hp) as [S1 _]. destruct (ilog2_spec Hq) as [_ T2].
  assert (ilog2 p < ilog2 q + 1)%Z; [|lia].
  apply pow2_lt_inv. eapply Qle_lt_trans; [exact S1|]. eapply Qle_lt_trans; eauto.
Qed.

Lemma ilog2_comp (p q : Q) : 0 < p -> p == q -> ilog2 p = ilog2 q.
Proof.
  intros Hp E. destruct (ilog2_spec Hp) as [S1 S2].
  symmetry. apply ilog2_unique; now rewrite <- E.
Qed.


Lemma rne_comp (p q : Q) : p == q -> rne p = rne q.
Proof.
  intros E. unfold rne. rewrite (Qfloor_comp _ _ E).
  now rewrite (Qcompare_comp (p - inject_Z (Qfloor q)) (q - inject_Z (Qfloor q))
                 ltac:(now rewrite E) (1 # 2) (1 # 2) ltac:(reflexivity)).
Qed.

Lemma rne_Z (n : Z) : rne (inject_Z n) = n.
Proof.
  unfold rne. rewrite Qfloor_Z.
  destruct (Qcompare (inject_Z n - inject_Z n) (1 # 2)) eqn:C.
  - apply Qeq_alt in C. lra.
  - reflexivity.
  - apply Qgt_alt in C. lra.
Qed.

Lemma rne_floor (q : Q) : (Qfloor q <= rne q <= Qfloor q + 1)%Z.
Proof.
  unfold rne. destruct (Qcompare _ _); [destruct (Z.even _)| |]; lia.
Qed.

Lemma rne_mono (p q : Q) : p <= q -> (rne p <= rne q)%Z.
Proof.
  intros H. pose proof (Qfloor_resp_le _ _ H) as Hf.
  pose proof (rne_floor p) as Bp. pose proof (rne_floor q) as Bq.
  destruct (Z.eq_dec (Qfloor p) (Qfloor q)) as [E|NE]; [|lia].
  unfold rne in *. rewrite E in *.
  destruct (Qcompare (p - inject_Z (Qfloor q)) (1 # 2)) eqn:Cp.
  - apply Qeq_alt in Cp.
    destruct (Qcompare (q - inject_Z (Qfloor q)) (1 # 2)) eqn:Cq.
    + lia.
    + apply Qlt_alt in Cq. lra.
    + destruct (Z.even (Qfloor q)); lia.
  - lia.
  - apply Qgt_alt in Cp.
    destruct (Qcompare (q - inject_Z (Qfloor q)) (1 # 2)) eqn:Cq.
    + apply Qeq_alt in Cq. lra.
    + apply Qlt_alt in Cq. lra.
    + lia.
Qed.

Lemma rne_nonneg (q : Q) : 0 <= q -> (0 <= rne q)%Z.
Proof.
  intros H. change 0%Z with (rne (inject_Z 0)) at 1. rewrite (rne_Z 0). 
  rewrite <- (rne_Z 0). now apply rne_mono.
Qed.

(** The rounded magnitude in terms of [==]. *)
Lemma rnd_eq (q : Q) :
  rnd q == inject_Z (rne (q / pow2 (quantum q))) * pow2 (quantum q).
Proof. unfold rnd. apply Qred_correct. Qed.

Lemma quantum_min (q : Q) : (-1074 <= quantum q)%Z.
Proof. unfold quantum. lia. Qed.

Lemma quantum_mono (p q : Q) : 0 < p -> p <= q -> (quantum p <= quantum q)%Z.
Proof.
  intros Hp H. pose proof (ilog2_mono Hp H). unfold quantum. lia.
Qed.

Lemma rnd_nonneg (q : Q) : 0 <= q -> 0 <= rnd q.
Proof.
  intros H. rewrite rnd_eq. apply Qmult_le_0_compat.
  - change 0 with (inject_Z 0). rewrite <- Zle_Qle. apply rne_nonneg.
    apply Qle_shift_div_l; [apply pow2_pos | lra].
  - apply Qlt_le_weak, pow2_pos.
Qed.

(** A power of two on the grid of [q] bounds the rounded value as it
    bounds [q]. *)
Lemma rnd_le_pow2 (q : Q) (k : Z) :
  (quantum q <= k)%Z -> q <= pow2 k -> rnd q <= pow2 k.
Proof.
  intros Hk H. rewrite rnd_eq.
  assert (E : pow2 k == inject_Z (2 ^ (k - quantum q)) * pow2 (quantum q)).
  { rewrite <- pow2_Z by lia. rewrite <- pow2_add. now replace (k - quantum q + quantum q)%Z with k by lia. }
  rewrite E. apply Qmult_le_compat_r; [|apply Qlt_le_weak, pow2_pos].
  rewrite <- Zle_Qle. rewrite <- (rne_Z (2 ^ (k - quantum q))).
  apply rne_mono. rewrite <- pow2_Z by lia. rewrite pow2_sub.
  apply Qdiv_le_r; [apply pow2_pos | exact H].
Qed.

Lemma rnd_ge_pow2 (q : Q) (k : Z) :
  (quantum q <= k)%Z -> pow2 k <= q -> pow2 k <= rnd q.
Proof.
  intros Hk H. rewrite rnd_eq.
  assert (E : pow2 k == inject_Z (2 ^ (k - quantum q)) * pow2 (quantum q)).
  { rewrite <- pow2_Z by lia. rewrite <- pow2_add. now replace (k - quantum q + quantum q)%Z with k by lia. }
  rewrite E. apply Qmult_le_compat_r; [|apply Qlt_le_weak, pow2_pos].
  rewrite <- Zle_Qle. rewrite <- (rne_Z (2 ^ (k - quantum q))).
  apply rne_mono. rewrite <- pow2_Z by lia. rewrite pow2_sub.
  apply Qdiv_le_r; [apply pow2_pos | exact H].
Qed.

Lemma rnd_0 (q : Q) : q == 0 -> rnd q == 0.
Proof.
  intros E. rewrite rnd_eq.
  generalize (pow2 (quantum q)). intros P.
  assert (H : q / P == inject_Z 0) by (rewrite E; unfold Qdiv; ring).
  rewrite (rne_comp H), rne_Z. ring.
Qed.

Lemma rnd_mono (p q : Q) : 0 <= p -> p <= q -> rnd p <= rnd q.
Proof.
  intros Hp H.
  destruct (Qeq_dec p 0) as [E|NE].
  { rewrite (rnd_0 E). apply rnd_nonneg. lra. }
  assert (Hp' : 0 < p) by (destruct (Qlt_le_dec 0 p); [assumption | exfalso; apply NE; lra]).
  assert (Hq : 0 < q) by lra.
  pose proof (quantum_mono Hp' H) as Hm.
  destruct (Z.eq_dec (quantum p) (quantum q)) as [E|NE'].
  - rewrite !rnd_eq, E. apply Qmult_le_compat_r; [|apply Qlt_le_weak, pow2_pos].
    rewrite <- Zle_Qle. apply rne_mono, Qdiv_le_r; [apply pow2_pos | exact H].
  - assert (Hlt : (quantum p < quantum q)%Z) by lia.
    destruct (ilog2_spec Hp') as [P1 P2]. destruct (ilog2_spec Hq) as [Q1 Q2].
    assert (He : (ilog2 p < ilog2 q)%Z) by (unfold quantum in *; lia).
    apply Qle_trans with (pow2 (ilog2 q)).
    + apply rnd_le_pow2; [unfold quantum in *; lia|].
      apply Qle_trans with (pow2 (ilog2 p + 1)); [lra | apply pow2_le; lia].
    + apply rnd_ge_pow2; [unfold quantum in *; lia | exact Q1].
Qed.




Lemma rnd_comp (p q : Q) : 0 <= p -> p == q -> rnd p = rnd q.
Proof.
  intros Hp E. unfold rnd. apply Qred_complete.
  destruct (Qeq_dec p 0) as [Z|NZ].
  - assert (Zq : q == 0) by now rewrite <- E.
    pose proof (rnd_0 Z) as R1. pose proof (rnd_0 Zq) as R2.
    rewrite rnd_eq in R1, R2. now rewrite R1, R2.
  - assert (Hp' : 0 < p) by (destruct (Qlt_le_dec 0 p); [assumption | exfalso; apply NZ; lra]).
    unfold quantum. rewrite <- (ilog2_comp Hp' E).
    generalize (pow2 (Z.max (ilog2 p - 52) (-1074))). intros P.
    assert (H : p / P == q / P) by now rewrite E.
    now rewrite (rne_comp H).
Qed.

Lemma rnd_on_grid (q : Q) (m : Z) :
  q == inject_Z m * pow2 (quantum q) -> rnd q == q.
Proof.
  intros E. rewrite rnd_eq.
  pose proof (pow2_pos (quantum q)) as HP. revert E HP.
  generalize (pow2 (quantum q)). intros P E HP.
  assert (H : q / P == inject_Z m) by (rewrite E; field; lra).
  rewrite (rne_comp H), rne_Z. now symmetry.
Qed.

Lemma inject_Z_pow2 (n : Z) : (0 <= n)%Z -> inject_Z (2 ^ n) == pow2 n.
Proof. intros H. now rewrite pow2_Z. Qed.

Lemma rnd_representable (q : Q) : 0 <= q -> representable (rnd q).
Proof.
  intros Hq. exists (rne (q / pow2 (quantum q))), (quantum q).
  split; [|split; [apply quantum_min | apply rnd_eq]].
  split.
  - apply rne_nonneg. apply Qle_shift_div_l; [apply pow2_pos | lra].
  - rewrite <- (rne_Z (2 ^ 53)). apply rne_mono.
    destruct (Qeq_dec q 0) as [Z|NZ].
    { apply Qle_shift_div_r; [apply pow2_pos|]. apply Qle_trans with 0; [lra|].
      apply Qmult_le_0_compat; [discriminate | apply Qlt_le_weak, pow2_pos]. }
    assert (Hq' : 0 < q) by (destruct (Qlt_le_dec 0 q); [assumption | exfalso; apply NZ; lra]).
    destruct (ilog2_spec Hq') as [_ S2].
    apply Qle_shift_div_r; [apply pow2_pos|].
    rewrite inject_Z_pow2 by lia. rewrite <- pow2_add.
    apply Qle_trans with (pow2 (ilog2 q + 1)); [lra|].
    apply pow2_le. unfold quantum. lia.
Qed.

Lemma representable_0 (q : Q) : q == 0 -> representable q.
Proof.
  intros E. exists 0%Z, 0%Z. split; [lia|]. split; [lia|]. rewrite E. reflexivity.
Qed.

Lemma representable_nonneg (q : Q) : representable q -> 0 <= q.
Proof.
  intros (n & e & [Hn _] & _ & E). rewrite E.
  apply Qmult_le_0_compat; [|apply Qlt_le_weak, pow2_pos].
  change 0 with (inject_Z 0). now rewrite <- Zle_Qle.
Qed.

Lemma rnd_exact (q : Q) : representable q -> rnd q == q.
Proof.
  intros (n & e & [Hn0 Hn] & He & E).
  destruct (Z.eq_dec n 0) as [->|NZ].
  { assert (Z : q == 0) by (rewrite E; ring). rewrite (rnd_0 Z). now symmetry. }
  assert (Hq : 0 < q).
  { rewrite E. apply Qmult_lt_0_compat; [|apply pow2_pos].
    change 0 with (inject_Z 0). rewrite <- Zlt_Qlt. lia. }
  destruct (ilog2_spec Hq) as [S1 S2].
  destruct (Z.eq_dec n (2 ^ 53)) as [->|NE].
  - assert (Eq : q == pow2 (53 + e)).
    { rewrite E, inject_Z_pow2 by lia. now rewrite <- pow2_add. }
    assert (Hl : ilog2 q = (53 + e)%Z).
    { apply ilog2_unique; rewrite Eq; [apply Qle_refl | apply pow2_lt; lia]. }
    apply rnd_on_grid with (2 ^ 52)%Z. unfold quantum. rewrite Hl.
    replace (Z.max (53 + e - 52) (-1074)) with (e + 1)%Z by lia.
    rewrite inject_Z_pow2 by lia. rewrite <- pow2_add, Eq.
    now replace (52 + (e + 1))%Z with (53 + e)%Z by lia.
  - assert (Hlt : q < pow2 (53 + e)).
    { rewrite E, pow2_add. apply Qmult_lt_r; [apply pow2_pos|].
      rewrite <- inject_Z_pow2 by lia. rewrite <- Zlt_Qlt. lia. }
    assert (Hl : (ilog2 q < 53 + e)%Z).
    { apply pow2_lt_inv. eapply Qle_lt_trans; eauto. }
    assert (Hqu : (quantum q <= e)%Z) by (unfold quantum; lia).
    apply rnd_on_grid with (n * 2 ^ (e - quantum q))%Z.
    rewrite inject_Z_mult, inject_Z_pow2 by lia.
    rewrite <- Qmult_assoc, <- pow2_add.
    now replace (e - quantum q + quantum q)%Z with e by lia.
Qed.

Lemma rnd_idem (q : Q) : 0 <= q -> rnd (rnd q) == rnd q.
Proof. intros H. apply rnd_exact, rnd_representable, H. Qed.

(** Scaling by 4 commutes with rounding in the normal range. *)
Lemma rnd_scale4_normal (q : Q) : pow2 (-1022) <= q -> rnd (4 * q) == 4 * rnd q.
Proof.
  intros H.
  assert (Hq : 0 < q) by (eapply Qlt_le_trans; [apply pow2_pos | exact H]).
  destruct (ilog2_spec Hq) as [S1 S2].
  assert (He : (-1022 <= ilog2 q)%Z).
  { assert (-1022 < ilog2 q + 1)%Z; [|lia]. apply pow2_lt_inv. lra. }
  assert (E4 : forall a, pow2 (a + 2) == 4 * pow2 a).
  { intros a. rewrite pow2_add. change (pow2 2) with 4. ring. }
  assert (Hl : ilog2 (4 * q) = (ilog2 q + 2)%Z).
  { apply ilog2_unique.
    - rewrite E4. lra.
    - replace (ilog2 q + 2 + 1)%Z with (ilog2 q + 1 + 2)%Z by lia. rewrite E4. lra. }
  rewrite (rnd_eq (4 * q)), (rnd_eq q).
  assert (Q4 : quantum (4 * q) = (quantum q + 2)%Z) by (unfold quantum; rewrite Hl; lia).
  rewrite Q4. pose proof (E4 (quantum q)) as EA.
  pose proof (pow2_pos (quantum q)) as HP. revert EA HP.
  generalize (pow2 (quantum q + 2)) (pow2 (quantum q)). intros A P EA HP.
  assert (R : 4 * q / A == q / P) by (rewrite EA; field; lra).
  rewrite (rne_comp R), EA. ring.
Qed.

Lemma representable_ongrid (q : Q) : representable q -> ongrid q.
Proof.
  intros (n & e & _ & He & E). exists (n * 2 ^ (e + 1074))%Z.
  rewrite inject_Z_mult, inject_Z_pow2 by lia.
  rewrite <- Qmult_assoc, <- pow2_add.
  now replace (e + 1074 + -1074)%Z with e by lia.
Qed.

Lemma ongrid_small_representable (q : Q) :
  0 <= q -> ongrid q -> q < pow2 (-1021) -> representable q.
Proof.
  intros Hq [k E] Hlt. exists k, (-1074)%Z. 
  pose proof (pow2_pos (-1074)) as HP.
  assert (Hk : 0 <= inject_Z k).
  { rewrite E in Hq. apply Qnot_lt_le. intros Hneg.
    assert (inject_Z k * pow2 (-1074) < 0); [|lra].
    setoid_replace 0 with (0 * pow2 (-1074)) by ring.
    apply Qmult_lt_r; assumption. }
  assert (Hk2 : inject_Z k < pow2 53).
  { apply Qmult_lt_r with (pow2 (-1074)); [exact HP|].
    rewrite <- pow2_add, <- E. exact Hlt. }
  rewrite <- inject_Z_pow2 in Hk2 by lia.
  change 0 with (inject_Z 0) in Hk. rewrite <- Zle_Qle in Hk. rewrite <- Zlt_Qlt in Hk2.
  split; [lia|]. split; [lia | exact E].
Qed.

Lemma ongrid_plus (p q : Q) : ongrid p -> ongrid q -> ongrid (p + q).
Proof.
  intros [k Ek] [l El]. exists (k + l)%Z. rewrite Ek, El, inject_Z_plus. ring.
Qed.

Lemma ongrid_opp (p : Q) : ongrid p -> ongrid (- p).
Proof.
  intros [k Ek]. exists (- k)%Z. rewrite Ek, inject_Z_opp. ring.
Qed.

Lemma ongrid_abs (p : Q) : ongrid p -> ongrid (Qabs p).
Proof.
  intros H. apply Qabs_case; intros _; [exact H | now apply ongrid_opp].
Qed.

Lemma representable_scale4 (q : Q) :
  representable q -> representable (4 * q).
Proof.
  intros (n & e & Hn & He & E). exists n, (e + 2)%Z.
  split; [exact Hn|]. split; [lia|]. rewrite E, pow2_add. change (pow2 2) with 4. ring.
Qed.

(** Scaling by 4 commutes with rounding for every multiple of the
    smallest positive double (a sum or difference of doubles). *)
Lemma rnd_scale4 (q : Q) : 0 <= q -> ongrid q -> rnd (4 * q) == 4 * rnd q.
Proof.
  intros Hq Hg. destruct (Qlt_le_dec q (pow2 (-1022))) as [Hs|Hn].
  - assert (R : representable q).
    { apply ongrid_small_representable; auto.
      eapply Qlt_trans; [exact Hs | apply pow2_lt; lia]. }
    rewrite (rnd_exact R). apply rnd_exact. now apply representable_scale4.
  - now apply rnd_scale4_normal.
Qed.

(** A nonzero multiple of the smallest positive double does not round to
    zero. *)
Lemma rnd_pos (q : Q) : 0 < q -> ongrid q -> 0 < rnd q.
Proof.
  intros Hq [k E].
  pose proof (pow2_pos (-1074)) as HP.
  assert (Hk : (1 <= k)%Z).
  { assert (0 < inject_Z k).
    { apply Qnot_le_lt. intros Hle.
      assert (inject_Z k * pow2 (-1074) <= 0); [|lra].
      setoid_replace 0 with (0 * pow2 (-1074)) by ring.
      apply Qmult_le_compat_r; [exact Hle | lra]. }
    change 0 with (inject_Z 0) in H. rewrite <- Zlt_Qlt in H. lia. }
  assert (Hge : pow2 (-1074) <= q).
  { rewrite E. setoid_replace (pow2 (-1074)) with (1 * pow2 (-1074)) at 1 by ring.
    apply Qmult_le_compat_r; [|lra]. change 1 with (inject_Z 1).
    now rewrite <- Zle_Qle. }
  eapply Qlt_le_trans; [exact HP|].
  assert (R : representable (pow2 (-1074))).
  { exists 1%Z, (-1074)%Z. split; [lia|]. split; [lia|]. ring. }
  rewrite <- (rnd_exact R). apply rnd_mono; [lra | exact Hge].
Qed.


(** *** Results of the operations *)


Lemma round_valid (s : bool) (q : Q) : 0 <= q -> valid (round s q).
Proof.
  intros H. unfold round. destruct (Qle_bool _ _); simpl; auto.
  now apply rnd_representable.
Qed.

Lemma zero_valid (s : bool) : valid (Fin s 0).
Proof. simpl. now apply representable_0. Qed.

Lemma ofQ_valid (q : Q) : valid (ofQ q).
Proof. apply round_valid, Qabs_nonneg. Qed.

Lemma add_valid (x y : double) : valid (add x y).
Proof.
  destruct x as [|s|s m], y as [|t|t n]; try exact I.
  - simpl. now destruct (Bool.eqb s t).
  - unfold add. destruct (Qeq_bool _ _); [apply zero_valid | apply round_valid, Qabs_nonneg].
Qed.

Lemma sub_valid (x y : double) : valid (sub x y).
Proof. apply add_valid. Qed.

Lemma mul_valid (x y : double) : valid x -> valid y -> valid (mul x y).
Proof.
  destruct x as [|s|s m], y as [|t|t n]; simpl; auto.
  - now destruct (Qeq_bool n 0).
  - now destruct (Qeq_bool m 0).
  - intros Hm Hn. apply round_valid.
    apply Qmult_le_0_compat; now apply representable_nonneg.
Qed.

Lemma div_valid (x y : double) : valid x -> valid y -> valid (div x y).
Proof.
  destruct x as [|s|s m], y as [|t|t n]; simpl; auto.
  - intros _ _. now apply representable_0.
  - intros Hm Hn. destruct (Qeq_bool n 0) eqn:E.
    + now destruct (Qeq_bool m 0).
    + apply round_valid. apply representable_nonneg in Hm, Hn.
      apply Qle_shift_div_l; [|lra].
      destruct (Qlt_le_dec 0 n); [assumption|].
      assert (n == 0) by lra. apply Qeq_bool_iff in H. congruence.
Qed.


(** *** The order of the comparisons *)



Lemma Qle_bool_false (a b : Q) : Qle_bool a b = false <-> b < a.
Proof.
  split; intros H.
  - apply Qnot_le_lt. intros Hle. apply Qle_bool_iff in Hle. congruence.
  - destruct (Qle_bool a b) eqn:E; auto. apply Qle_bool_iff in E. lra.
Qed.

Lemma Qeq_bool_false (a b : Q) : Qeq_bool a b = false <-> ~ a == b.
Proof.
  split; intros H.
  - intros E. apply Qeq_bool_iff in E. congruence.
  - destruct (Qeq_bool a b) eqn:E; auto. apply Qeq_bool_iff in E. contradiction.
Qed.

Lemma ltb_spec (x y : double) :
  isNaN x = false -> isNaN y = false ->
  (ltb x y = true <-> (cls x < cls y)%Z \/ (cls x = cls y /\ val x < val y)).
Proof.
  destruct x as [|[]|s m], y as [|[]|t n]; try discriminate; intros _ _;
    cbn [ltb cls val andb negb].
  all: try (rewrite negb_true_iff, Qle_bool_false).
  all: split; [intros H | intros [H|[H1 H2]]];
    try reflexivity; try discriminate; try lia; try lra; auto.
  all: try (left; lia).
Qed.

Lemma eqb_spec (x y : double) :
  isNaN x = false -> isNaN y = false ->
  (eqb x y = true <-> cls x = cls y /\ val x == val y).
Proof.
  destruct x as [|[]|s m], y as [|[]|t n]; try discriminate; intros _ _;
    cbn [eqb cls val Bool.eqb].
  all: try rewrite Qeq_bool_iff.
  all: split; [intros H | intros [H1 H2]];
    try reflexivity; try discriminate; auto.
  all: split; [reflexivity | lra].
Qed.

Lemma leb_spec (x y : double) :
  isNaN x = false -> isNaN y = false ->
  (leb x y = true <-> (cls x < cls y)%Z \/ (cls x = cls y /\ val x <= val y)).
Proof.
  intros Hx Hy. unfold leb. rewrite orb_true_iff, (ltb_spec _ _ Hx Hy), (eqb_spec _ _ Hx Hy).
  split.
  - intros [[H|[H1 H2]]|[H1 H2]]; [left; exact H | right; split; [exact H1 | lra] |
                                   right; split; [exact H1 | lra]].
  - intros [H|[H1 H2]]; [left; left; exact H|].
    destruct (Qlt_le_dec (val x) (val y)); [left; right; auto | right; split; [auto | lra]].
Qed.

(** *** The sign of a difference *)

Lemma Qabs_pos_lt (q : Q) : ~ q == 0 -> 0 < Qabs q.
Proof.
  intros H. apply Qabs_case; intros Hq.
  - destruct (Qlt_le_dec 0 q); [assumption | exfalso; apply H; lra].
  - destruct (Qlt_le_dec q 0); [lra | exfalso; apply H; lra].
Qed.

Lemma isNeg_true (q : Q) : isNeg q = true <-> q < 0.
Proof. unfold isNeg. now rewrite negb_true_iff, Qle_bool_false. Qed.

Lemma isNeg_false (q : Q) : isNeg q = false <-> 0 <= q.
Proof. unfold isNeg. now rewrite negb_false_iff, Qle_bool_iff. Qed.

Lemma toQ_ongrid (s : bool) (m : Q) : representable m -> ongrid (toQ s m).
Proof.
  intros H. apply representable_ongrid in H.
  destruct s; simpl; [now apply ongrid_opp | exact H].
Qed.

Lemma sortValue_round (s : bool) (q : Q) :
  0 < q -> ongrid q ->
  (s = true -> sortValue (round s q) < 0) /\ (s = false -> 0 < sortValue (round s q)).
Proof.
  intros Hq Hg. pose proof (rnd_pos Hq Hg) as Hr. unfold round.
  destruct (Qle_bool (pow2 1024) (rnd q)); split; intros ->; simpl; lra.
Qed.

(** For two different numbers the difference has the sign of their order:
    it does not underflow to zero. *)
Lemma sub_sign (x y : double) :
  valid x -> valid y -> isNaN x = false -> isNaN y = false ->
  eqb x y = false ->
  (sortValue (sub x y) <= 0 <-> ltb x y = true) /\ ~ sortValue (sub x y) == 0.
Proof.
  intros Vx Vy Nx Ny.
  destruct x as [|s|s m], y as [|t|t n]; try discriminate.
  - destruct s, t; simpl; intros H; try discriminate; split; try lra;
      split; intros; try reflexivity; try discriminate; lra.
  - intros _. destruct s; simpl; split; try lra; split; intros; try reflexivity;
      try discriminate; lra.
  - intros _. destruct t; simpl; split; try lra; split; intros; try reflexivity;
      try discriminate; lra.
  - intros E. cbn [eqb] in E. apply Qeq_bool_false in E.
    unfold sub, opp, add. cbn [ltb].
    assert (Hq : toQ s m + toQ (negb t) n == toQ s m - toQ t n)
      by (destruct t; simpl; ring).
    set (q := toQ s m + toQ (negb t) n) in *.
    assert (Hnz : ~ q == 0) by (rewrite Hq; lra).
    apply Qeq_bool_false in Hnz as Hb. rewrite Hb.
    assert (Hg : ongrid (Qabs q)).
    { apply ongrid_abs. unfold q. apply ongrid_plus; now apply toQ_ongrid. }
    assert (Hpos : 0 < Qabs q) by now apply Qabs_pos_lt.
    destruct (sortValue_round (isNeg q) Hpos Hg) as [S1 S2].
    rewrite negb_true_iff, Qle_bool_false.
    destruct (isNeg q) eqn:N.
    + apply isNeg_true in N. specialize (S1 eq_refl). split; [|lra].
      split; intros; lra.
    + apply isNeg_false in N. specialize (S2 eq_refl). split; [|lra].
      split; intros; lra.
Qed.

(** Without the test for equality: the difference is at most zero when
    the first number is at most the second. *)
Lemma sub_sign_le (x y : double) :
  valid x -> valid y -> isNaN x = false -> isNaN y = false ->
  (sortValue (sub x y) <= 0 <-> leb x y = true).
Proof.
  intros Vx Vy Nx Ny. unfold leb. destruct (eqb x y) eqn:E.
  - rewrite orb_true_r. split; [reflexivity | intros _].
    destruct x as [|s|s m], y as [|t|t n]; try discriminate.
    + destruct s, t; try discriminate; simpl; lra.
    + cbn [eqb] in E. apply Qeq_bool_iff in E.
      unfold sub, opp, add.
      assert (Hq : toQ s m + toQ (negb t) n == 0) by (destruct t; simpl in *; lra).
      apply Qeq_bool_iff in Hq. rewrite Hq. destruct s, t; cbn [sortValue toQ andb negb]; lra.
  - rewrite orb_false_r. now apply sub_sign.
Qed.


(** *** Numbers that are not negative *)

Lemma rnd_0_eq (q : Q) : q == 0 -> rnd q = 0.
Proof.
  intros E. pose proof (rnd_0 E) as H. rewrite rnd_eq in H.
  unfold rnd. now rewrite (Qred_complete _ _ H).
Qed.

Lemma round_cases (s : bool) (q : Q) :
  round s q = Inf s \/ (round s q = Fin s (rnd q) /\ rnd q < pow2 1024).
Proof.
  unfold round. destruct (Qle_bool (pow2 1024) (rnd q)) eqn:E; [now left|].
  right. split; [reflexivity|]. now apply Qle_bool_false.
Qed.

Lemma round_below (s : bool) (q : Q) :
  rnd q < pow2 1024 -> round s q = Fin s (rnd q).
Proof.
  intros H. unfold round. apply Qle_bool_false in H. now rewrite H.
Qed.

Lemma round_comp (s : bool) (p q : Q) : 0 <= p -> p == q -> round s p = round s q.
Proof.
  intros Hp E. unfold round. now rewrite (rnd_comp Hp E).
Qed.

Lemma ofQ_nonneg (q : Q) : 0 <= q -> ofQ q = round false q.
Proof.
  intros H. unfold ofQ. rewrite (proj2 (isNeg_false q) H).
  apply round_comp; [apply Qabs_nonneg | now apply Qabs_pos].
Qed.

Lemma add_nonneg (a b : Q) :
  0 <= a -> 0 <= b -> add (Fin false a) (Fin false b) = round false (a + b).
Proof.
  intros Ha Hb. unfold add, toQ. destruct (Qeq_bool (a + b) 0) eqn:E.
  - apply Qeq_bool_iff in E. unfold round. now rewrite (rnd_0_eq E).
  - assert (H : 0 <= a + b) by lra. rewrite (proj2 (isNeg_false _) H).
    apply round_comp; [apply Qabs_nonneg | apply Qabs_pos; lra].
Qed.

Lemma div_nonneg (a b : Q) :
  0 < b -> div (Fin false a) (Fin false b) = round false (a / b).
Proof.
  intros Hb. unfold div.
  assert (E : Qeq_bool b 0 = false) by (apply Qeq_bool_false; lra).
  now rewrite E.
Qed.

(** Rounding keeps a bound that is itself a double. *)
Lemma round_le (q q' : Q) :
  0 <= q -> q <= q' -> rnd q' < pow2 1024 ->
  exists r, round false q = Fin false r /\ 0 <= r /\ r <= rnd q'.
Proof.
  intros H0 H Hfin. pose proof (rnd_mono H0 H) as Hm.
  exists (rnd q). split; [apply round_below; lra|].
  split; [now apply rnd_nonneg | exact Hm].
Qed.


(** *** The comparisons as an order *)

Lemma ltb_notNaN (x y : double) : ltb x y = true -> isNaN x = false /\ isNaN y = false.
Proof. destruct x as [|s|s m], y as [|t|t n]; simpl; intros H; try discriminate; auto. Qed.

Lemma eqb_notNaN (x y : double) : eqb x y = true -> isNaN x = false /\ isNaN y = false.
Proof. destruct x as [|s|s m], y as [|t|t n]; simpl; intros H; try discriminate; auto. Qed.

Lemma leb_notNaN (x y : double) : leb x y = true -> isNaN x = false /\ isNaN y = false.
Proof.
  unfold leb. intros H. apply orb_true_iff in H as [H|H];
    [now apply ltb_notNaN | now apply eqb_notNaN].
Qed.

Lemma eqb_sym (x y : double) : eqb x y = eqb y x.
Proof.
  destruct x as [|s|s m], y as [|t|t n]; simpl; auto.
  - now destruct s, t.
  - destruct (Qeq_bool (toQ s m) (toQ t n)) eqn:E1, (Qeq_bool (toQ t n) (toQ s m)) eqn:E2;
      auto.
    + apply Qeq_bool_iff in E1. apply Qeq_bool_false in E2. exfalso. apply E2. now symmetry.
    + apply Qeq_bool_iff in E2. apply Qeq_bool_false in E1. exfalso. apply E1. now symmetry.
Qed.

Lemma eqb_refl (x : double) : isNaN x = false -> eqb x x = true.
Proof. intros H. apply eqb_spec; auto. split; reflexivity. Qed.

Lemma eqb_trans (x y z : double) : eqb x y = true -> eqb y z = true -> eqb x z = true.
Proof.
  intros H1 H2. destruct (eqb_notNaN _ _ H1) as [Nx Ny]. destruct (eqb_notNaN _ _ H2) as [_ Nz].
  apply eqb_spec in H1 as [C1 V1]; auto. apply eqb_spec in H2 as [C2 V2]; auto.
  apply eqb_spec; auto. split; [lia | lra].
Qed.

Lemma ltb_trans (x y z : double) : ltb x y = true -> ltb y z = true -> ltb x z = true.
Proof.
  intros H1 H2. destruct (ltb_notNaN _ _ H1) as [Nx Ny]. destruct (ltb_notNaN _ _ H2) as [_ Nz].
  apply ltb_spec in H1; auto. apply ltb_spec in H2; auto. apply ltb_spec; auto.
  destruct H1 as [H1|[C1 V1]], H2 as [H2|[C2 V2]];
    [left; lia | left; lia | left; lia | right; split; [lia | lra]].
Qed.

Lemma ltb_eqb_trans (x y z : double) : ltb x y = true -> eqb y z = true -> ltb x z = true.
Proof.
  intros H1 H2. destruct (ltb_notNaN _ _ H1) as [Nx Ny]. destruct (eqb_notNaN _ _ H2) as [_ Nz].
  apply ltb_spec in H1; auto. apply eqb_spec in H2 as [C2 V2]; auto. apply ltb_spec; auto.
  destruct H1 as [H1|[C1 V1]]; [left; lia | right; split; [lia | lra]].
Qed.

Lemma eqb_ltb_trans (x y z : double) : eqb x y = true -> ltb y z = true -> ltb x z = true.
Proof.
  intros H1 H2. destruct (eqb_notNaN _ _ H1) as [Nx Ny]. destruct (ltb_notNaN _ _ H2) as [_ Nz].
  apply eqb_spec in H1 as [C1 V1]; auto. apply ltb_spec in H2; auto. apply ltb_spec; auto.
  destruct H2 as [H2|[C2 V2]]; [left; lia | right; split; [lia | lra]].
Qed.

Lemma ltb_irrefl (x y : double) : ltb x y = true -> eqb x y = true -> False.
Proof.
  intros H1 H2. destruct (ltb_notNaN _ _ H1) as [Nx Ny].
  apply ltb_spec in H1; auto. apply eqb_spec in H2 as [C V]; auto.
  destruct H1 as [H1|[_ H1]]; [lia | lra].
Qed.

Lemma ltb_asym (x y : double) : ltb x y = true -> ltb y x = true -> False.
Proof.
  intros H1 H2. destruct (ltb_notNaN _ _ H1) as [Nx Ny].
  apply ltb_spec in H1; auto. apply ltb_spec in H2; auto.
  destruct H1 as [H1|[C1 V1]], H2 as [H2|[C2 V2]]; try lia. lra.
Qed.

Lemma trichotomy (x y : double) :
  isNaN x = false -> isNaN y = false ->
  ltb x y = true \/ eqb x y = true \/ ltb y x = true.
Proof.
  intros Nx Ny. rewrite (ltb_spec _ _ Nx Ny), (eqb_spec _ _ Nx Ny), (ltb_spec _ _ Ny Nx).
  destruct (Z.lt_trichotomy (cls x) (cls y)) as [H|[H|H]]; [left; left; exact H | | right; right; left; exact H].
  destruct (Q_dec (val x) (val y)) as [[V|V]|V].
  - left. right. auto.
  - right. right. right. auto.
  - right. left. auto.
Qed.

Lemma leb_trans (x y z : double) : leb x y = true -> leb y z = true -> leb x z = true.
Proof.
  unfold leb. rewrite !orb_true_iff. intros [H1|H1] [H2|H2].
  - left. eapply ltb_trans; eauto.
  - left. eapply ltb_eqb_trans; eauto.
  - left. eapply eqb_ltb_trans; eauto.
  - right. eapply eqb_trans; eauto.
Qed.

Lemma leb_total (x y : double) :
  isNaN x = false -> isNaN y = false -> leb x y = true \/ leb y x = true.
Proof.
  intros Nx Ny. unfold leb. rewrite !orb_true_iff.
  destruct (@trichotomy x y Nx Ny) as [H|[H|H]]; auto.
Qed.


(** *** Agreement with the kernel's binary64 arithmetic *)

(** On the numbers of the examples below, the operations give what the
    kernel's IEEE 754 binary64 arithmetic gives: 3.7 * 3 is
    11.100000000000001, that divided by 3 is 3.7000000000000006,
    (4 * 4 + 3.3 * 3) / 7 is 3.6999999999999997, and (0.1 + 0.1 + 0.1) / 3
    is 0.10000000000000002, not 0.1. *)
Lemma binary64_samples :
  let fdiv := PrimFloat.div in
  let fmul := PrimFloat.mul in
  let fadd := PrimFloat.add in
  ofFloat (fdiv (float_of 37) (float_of 10)) = ofQ (37 # 10) /\
  ofFloat (fmul (fdiv (float_of 37) (float_of 10)) (float_of 3)) = mul (ofQ (37 # 10)) (ofQ 3) /\
  ofFloat (fdiv (fmul (fdiv (float_of 37) (float_of 10)) (float_of 3)) (float_of 3))
    = div (mul (ofQ (37 # 10)) (ofQ 3)) (ofQ 3) /\
  ofFloat (fdiv (fadd (fmul (float_of 4) (float_of 4)) (fmul (fdiv (float_of 33) (float_of 10)) (float_of 3))) (float_of 7))
    = div (add (mul (ofQ 4) (ofQ 4)) (mul (ofQ (33 # 10)) (ofQ 3))) (ofQ 7) /\
  ofFloat (fdiv (fadd (fadd (fdiv (float_of 1) (float_of 10)) (fdiv (float_of 1) (float_of 10))) (fdiv (float_of 1) (float_of 10)))
                (float_of 3))
    = div (add (add (ofQ (1 # 10)) (ofQ (1 # 10))) (ofQ (1 # 10))) (ofQ 3) /\
  ofFloat (fdiv (float_of 18) (float_of 5)) = ofQ (36 # 10) /\
  ofFloat (PrimFloat.sub (fdiv (float_of 1) (float_of 10)) (fdiv (float_of 3) (float_of 10)))
    = sub (ofQ (1 # 10)) (ofQ (3 # 10)) /\
  ltb (div (mul (ofQ (37 # 10)) (ofQ 3)) (ofQ 3)) (ofQ (37 # 10)) = false /\
  eqb (div (add (add (ofQ (1 # 10)) (ofQ (1 # 10))) (ofQ (1 # 10))) (ofQ 3))
      (ofQ (1 # 10)) = false.
Proof.
  vm_compute. repeat split.
Qed.

End DoubleFacts.

(** ** Objects, sorting *)

Module JSFacts.
Import JS SortSpec.

Section Objects.
Variable A : Type.
Implicit Types (o : object A) (k : string) (v : A).

Lemma obj_get_set_eq o k v : obj_get (obj_set o k v) k = Some v.
Proof.
  induction o as [|[k' v'] o IH]; simpl.
  - now rewrite String.eqb_refl.
  - destruct (String.eqb k' k) eqn:E; simpl; rewrite E; auto.
Qed.

Lemma obj_get_set_ne o k k' v :
  k <> k' -> obj_get (obj_set o k v) k' = obj_get o k'.
Proof.
  intros Hne. induction o as [|[k0 v0] o IH]; simpl.
  - destruct (String.eqb_spec k k'); congruence.
  - destruct (String.eqb_spec k0 k) as [->|]; simpl.
    + destruct (String.eqb_spec k k'); congruence.
    + now rewrite IH.
Qed.

Lemma obj_set_fresh o k v :
  obj_get o k = None -> obj_set o k v = o ++ [(k, v)].
Proof.
  induction o as [|[k0 v0] o IH]; simpl; intros H; auto.
  destruct (String.eqb k0 k); [discriminate|]. now rewrite IH.
Qed.

Lemma obj_keys_set_present o k v :
  obj_get o k <> None -> obj_keys (obj_set o k v) = obj_keys o.
Proof.
  induction o as [|[k0 v0] o IH]; simpl; intros H; [congruence|].
  destruct (String.eqb k0 k); simpl; auto. now rewrite IH.
Qed.

Lemma obj_get_None_keys o k : obj_get o k = None <-> ~ In k (obj_keys o).
Proof.
  induction o as [|[k0 v0] o IH]; simpl.
  - tauto.
  - destruct (String.eqb_spec k0 k) as [->|Hne].
    + split; [discriminate | tauto].
    + rewrite IH. tauto.
Qed.

Lemma obj_get_In o k v : obj_get o k = Some v -> In (k, v) o.
Proof.
  induction o as [|[k0 v0] o IH]; simpl; [discriminate|].
  destruct (String.eqb_spec k0 k) as [->|Hne]; intros H.
  - injection H as ->. now left.
  - right. auto.
Qed.

Lemma obj_In_get o k v :
  NoDup (obj_keys o) -> In (k, v) o -> obj_get o k = Some v.
Proof.
  induction o as [|[k0 v0] o IH]; simpl; [tauto|].
  intros Hnd [Heq|Hin]; inversion Hnd as [|? ? Hnotin Hnd']; subst.
  - injection Heq as -> ->. now rewrite String.eqb_refl.
  - destruct (String.eqb_spec k0 k) as [->|Hne]; auto.
    exfalso. apply Hnotin. change k with (fst (k, v)). now apply in_map.
Qed.

Lemma obj_set_NoDup o k v : NoDup (obj_keys o) -> NoDup (obj_keys (obj_set o k v)).
Proof.
  intros Hnd. destruct (obj_get o k) eqn:E.
  - rewrite obj_keys_set_present; congruence.
  - rewrite obj_set_fresh by assumption. unfold obj_keys. rewrite map_app. simpl.
    apply NoDup_app; [assumption | repeat constructor; simpl; tauto |].
    intros x Hx [<-|[]]. now apply obj_get_None_keys in E.
Qed.
End Objects.

Section SortFacts.
Variable A : Type.
Variable cmp : A -> A -> Q.

Abbreviation before := (SortSpec.before cmp).

Hypothesis before_total : forall a b, before a b \/ before b a.
Hypothesis before_trans : forall a b c, before a b -> before b c -> before a c.

Lemma insert_perm (x : A) (l : list A) : Permutation (insert cmp x l) (x :: l).
Proof.
  induction l as [|y l IH]; simpl; auto.
  destruct (Qle_bool (cmp x y) 0); auto.
  rewrite IH. apply perm_swap.
Qed.

Lemma sort_perm (l : list A) : Permutation (sort cmp l) l.
Proof.
  induction l as [|x l IH]; simpl; auto.
  rewrite insert_perm. now constructor.
Qed.

Lemma insert_sorted (x : A) (l : list A) :
  StronglySorted before l -> StronglySorted before (insert cmp x l).
Proof.
  induction 1 as [|y l Hs IH Hy]; simpl.
  - repeat constructor.
  - destruct (Qle_bool (cmp x y) 0) eqn:E.
    + apply Qle_bool_iff in E.
      constructor; [now constructor|].
      constructor; [exact E|].
      eapply Forall_impl; [|exact Hy]. intros z Hz. eapply before_trans; eauto.
    + constructor; [exact IH|].
      eapply Permutation_Forall; [symmetry; apply insert_perm|].
      constructor; [|exact Hy].
      destruct (before_total x y) as [H|H]; [|exact H].
      apply Qle_bool_iff in H. congruence.
Qed.

Lemma sort_sorted (l : list A) : StronglySorted before (sort cmp l).
Proof.
  induction l as [|x l IH]; simpl; [constructor | now apply insert_sorted].
Qed.
End SortFacts.

Section SortOn.
Variable A : Type.
Variable cmp : A -> A -> Q.
Variable P : A -> Prop.

Abbreviation precedes := (SortSpec.before cmp).

Hypothesis total_on : forall a b, P a -> P b -> precedes a b \/ precedes b a.
Hypothesis trans_on : forall a b c,
    P a -> P b -> P c -> precedes a b -> precedes b c -> precedes a c.

Lemma insert_sorted_on (x : A) (l : list A) :
  P x -> Forall P l ->
  StronglySorted precedes l -> StronglySorted precedes (insert cmp x l).
Proof.
  intros Px Pl Hs. induction Hs as [|y l Hs IH Hy]; simpl.
  - repeat constructor.
  - inversion Pl as [|? ? Py Pl']; subst.
    destruct (Qle_bool (cmp x y) 0) eqn:E.
    + apply Qle_bool_iff in E.
      constructor; [now constructor|].
      constructor; [exact E|].
      rewrite Forall_forall in *. intros z Hz.
      apply trans_on with y; auto.
    + constructor; [now apply IH|].
      eapply Permutation_Forall; [symmetry; apply insert_perm|].
      constructor; [|exact Hy].
      destruct (total_on Px Py) as [H|H]; [|exact H].
      apply Qle_bool_iff in H. congruence.
Qed.

Lemma sort_sorted_on (l : list A) :
  Forall P l -> StronglySorted precedes (sort cmp l).
Proof.
  induction l as [|x l IH]; simpl; intros Pl; [constructor|].
  inversion Pl as [|? ? Px Pl']; subst.
  apply insert_sorted_on; auto.
  eapply Permutation_Forall; [symmetry; apply sort_perm | exact Pl'].
Qed.
End SortOn.

Lemma StronglySorted_nth (A : Type) (R : A -> A -> Prop) (l : list A) :
  StronglySorted R l ->
  forall i j a b, (i < j)%nat ->
    nth_error l i = Some a -> nth_error l j = Some b -> R a b.
Proof.
  induction 1 as [|x l Hs IH Hx]; intros i j a b Hij Hi Hj.
  - destruct i; discriminate.
  - destruct j as [|j]; [lia|]. simpl in Hj.
    destruct i as [|i]; simpl in Hi.
    + injection Hi as <-. rewrite Forall_forall in Hx. apply Hx.
      eapply nth_error_In; eauto.
    + apply (IH i j a b); [lia | assumption | assumption].
Qed.

End JSFacts.

(** ** The semester report: ranking *)

Module RankingFacts.
Import JS SortSpec JSFacts GradingScales SemesterGradeReport ReportSpec.
Local Open Scope Q_scope.

Import DoubleSpec DoubleFacts.

Lemma compareFn_keyOrder (a b : StudentGrade) :
  comparable a -> comparable b ->
  (before sortCompare a b <-> keyOrder a b).
Proof.
  intros [(Na1 & Na2 & Na3) (Va1 & Va2 & Va3)] [(Nb1 & Nb2 & Nb3) (Vb1 & Vb2 & Vb3)].
  unfold before, sortCompare, compareFn, keyOrder.
  destruct (Double.eqb (gpa b) (gpa a)) eqn:E1; cbn [negb].
  - assert (E1' : Double.eqb (gpa a) (gpa b) = true) by now rewrite eqb_sym.
    destruct (Double.eqb (totalGradePoint b) (totalGradePoint a)) eqn:E2; cbn [negb].
    + assert (E2' : Double.eqb (totalGradePoint a) (totalGradePoint b) = true)
        by now rewrite eqb_sym.
      rewrite (sub_sign_le _ _ Vb3 Va3 Nb3 Na3). split.
      * intros H. right. split; [exact E1'|]. right. split; [exact E2' | exact H].
      * intros [H|[_ [H|[_ H]]]]; [| | exact H].
        -- exfalso. exact (ltb_irrefl _ _ H E1).
        -- exfalso. exact (ltb_irrefl _ _ H E2).
    + destruct (sub_sign _ _ Vb2 Va2 Nb2 Na2 E2) as [S _]. rewrite S. split.
      * intros H. right. split; [exact E1'|]. left. exact H.
      * intros [H|[_ [H|[H _]]]]; [| exact H |].
        -- exfalso. exact (ltb_irrefl _ _ H E1).
        -- rewrite eqb_sym in H. congruence.
  - destruct (sub_sign _ _ Vb1 Va1 Nb1 Na1 E1) as [S _]. rewrite S. split.
    + intros H. left. exact H.
    + intros [H|[H _]]; [exact H|]. rewrite eqb_sym in H. congruence.
Qed.

Lemma keyOrder_total (a b : StudentGrade) :
  numericKeys a -> numericKeys b -> keyOrder a b \/ keyOrder b a.
Proof.
  intros (Na1 & Na2 & Na3) (Nb1 & Nb2 & Nb3). unfold keyOrder.
  destruct (trichotomy _ _ Na1 Nb1) as [H1|[H1|H1]]; [right; left; exact H1 | | left; left; exact H1].
  assert (H1' : Double.eqb (gpa b) (gpa a) = true) by now rewrite eqb_sym.
  destruct (trichotomy _ _ Na2 Nb2) as [H2|[H2|H2]].
  - right. right. split; [exact H1'|]. left. exact H2.
  - assert (H2' : Double.eqb (totalGradePoint b) (totalGradePoint a) = true)
      by now rewrite eqb_sym.
    destruct (leb_total _ _ Na3 Nb3) as [H3|H3].
    + right. right. split; [exact H1'|]. right. split; [exact H2' | exact H3].
    + left. right. split; [exact H1|]. right. split; [exact H2 | exact H3].
  - left. right. split; [exact H1|]. left. exact H2.
Qed.

Lemma keyOrder_trans (a b c : StudentGrade) :
  keyOrder a b -> keyOrder b c -> keyOrder a c.
Proof.
  unfold keyOrder. intros [H1|[H1 H2]] [K1|[K1 K2]].
  - left. eapply ltb_trans; eauto.
  - left. rewrite eqb_sym in K1. eapply eqb_ltb_trans; eauto.
  - left. rewrite eqb_sym in H1. eapply ltb_eqb_trans; eauto.
  - right. split; [eapply eqb_trans; eauto|].
    destruct H2 as [H2|[H2 H3]], K2 as [K2|[K2 K3]].
    + left. eapply ltb_trans; eauto.
    + left. rewrite eqb_sym in K2. eapply eqb_ltb_trans; eauto.
    + left. rewrite eqb_sym in H2. eapply ltb_eqb_trans; eauto.
    + right. split; [eapply eqb_trans; eauto | eapply leb_trans; eauto].
Qed.

Lemma StronglySorted_impl_In (A : Type) (R S : A -> A -> Prop) (l : list A) :
  (forall a b, In a l -> In b l -> R a b -> S a b) ->
  StronglySorted R l -> StronglySorted S l.
Proof.
  intros HRS Hs. induction Hs as [|x l Hs IH Hx]; constructor.
  - apply IH. intros a b Ha Hb. apply HRS; now right.
  - rewrite Forall_forall in *. intros y Hy. apply HRS; [now left | now right | auto].
Qed.

Lemma sort_compareFn_sorted (l : list StudentGrade) :
  Forall comparable l -> StronglySorted keyOrder (sort sortCompare l).
Proof.
  intros Hl.
  assert (Hs : Forall comparable (sort sortCompare l)).
  { eapply Permutation_Forall; [symmetry; apply sort_perm | exact Hl]. }
  apply StronglySorted_impl_In with (R := before sortCompare).
  - rewrite Forall_forall in Hs. intros a b Ha Hb. apply compareFn_keyOrder; auto.
  - apply sort_sorted_on with (P := comparable); [| |exact Hl].
    + intros a b Pa Pb. rewrite !compareFn_keyOrder by assumption.
      apply keyOrder_total; [apply Pa | apply Pb].
    + intros a b c Pa Pb Pc. rewrite !compareFn_keyOrder by assumption.
      apply keyOrder_trans.
Qed.

(** *** [assignRanks] *)

Lemma assignRanks_length (l : list StudentGrade) (i : nat) :
  List.length (assignRanks i l) = List.length l.
Proof.
  revert i. induction l as [|x l IH]; intros i; simpl; auto.
Qed.

Lemma assignRanks_ranks (l : list StudentGrade) (i : nat) :
  map rank (assignRanks i l) = seq (i + 1) (List.length l).
Proof.
  revert i. induction l as [|x l IH]; intros i; simpl; auto.
  f_equal. rewrite IH. f_equal.
Qed.

Lemma assignRanks_nth (l : list StudentGrade) (i n : nat) :
  nth_error (assignRanks i l) n =
  option_map (fun s => set_rank s (i + n + 1)) (nth_error l n).
Proof.
  revert i n. induction l as [|x l IH]; intros i n; simpl.
  - now destruct n.
  - destruct n as [|n]; simpl.
    + now rewrite Nat.add_0_r.
    + rewrite IH. now replace (S i + n + 1)%nat with (i + S n + 1)%nat by lia.
Qed.

Lemma assignRanks_In (l : list StudentGrade) (i : nat) (a : StudentGrade) :
  In a (assignRanks i l) <->
  exists n a0, nth_error l n = Some a0 /\ a = set_rank a0 (i + n + 1).
Proof.
  split.
  - intros H. apply In_nth_error in H as [n Hn].
    rewrite assignRanks_nth in Hn.
    destruct (nth_error l n) as [a0|] eqn:E; [|discriminate].
    injection Hn as <-. eauto.
  - intros (n & a0 & Hn & ->).
    apply nth_error_In with n. now rewrite assignRanks_nth, Hn.
Qed.

Lemma assignRanks_sorted (l : list StudentGrade) (i : nat) :
  StronglySorted keyOrder l -> StronglySorted keyOrder (assignRanks i l).
Proof.
  intros H. revert i. induction H as [|x l Hs IH Hx]; intros i; simpl; constructor.
  - apply IH.
  - apply Forall_forall. intros y Hy.
    apply assignRanks_In in Hy as (n & y0 & Hn & ->).
    rewrite Forall_forall in Hx. apply (Hx y0). eapply nth_error_In; eauto.
Qed.

End RankingFacts.

(** ** The semester report: aggregation *)

Module AggregationFacts.
Import JS SortSpec JSFacts GradingScales SemesterGradeReport ReportSpec RankingFacts.
Local Open Scope Q_scope.

Import DoubleSpec DoubleFacts.

Lemma fold_accumulate (l : list CourseGrade) (a b c : Double.double) :
  fold_left accumulate l (a, b, c)
  = (fold_left Double.add (map (fun cg => Double.ofQ (score cg)) l) a,
     fold_left Double.add (map weighted l) b,
     fold_left Double.add (map (fun cg => Double.ofQ (credits cg)) l) c).
Proof.
  revert a b c. induction l as [|cg l IH]; intros a b c; simpl; [reflexivity|].
  now rewrite IH.
Qed.

Lemma withTotals_totals (s : StudentGrade) :
  totalScore (withTotals s)
    = dsum (map (fun cg => Double.ofQ (score cg)) (obj_values (courses s))) /\
  totalGradePoint (withTotals s) = dsum (map weighted (obj_values (courses s))) /\
  totalCredits (withTotals s)
    = dsum (map (fun cg => Double.ofQ (credits cg)) (obj_values (courses s))).
Proof.
  unfold withTotals. rewrite fold_accumulate. simpl. auto.
Qed.

Lemma withTotals_gpa (s : StudentGrade) :
  gpa (withTotals s) =
  if Double.gtb (totalCredits (withTotals s)) Double.zero
  then Double.div (totalGradePoint (withTotals s)) (totalCredits (withTotals s))
  else Double.zero.
Proof.
  unfold withTotals. now rewrite fold_accumulate.
Qed.

Lemma withTotals_student_id (s : StudentGrade) :
  student_id (withTotals s) = student_id s.
Proof.
  unfold withTotals. now rewrite fold_accumulate.
Qed.

Lemma withTotals_courses (s : StudentGrade) : courses (withTotals s) = courses s.
Proof.
  unfold withTotals. now rewrite fold_accumulate.
Qed.

Lemma eqb_zero_not_gtb (x : Double.double) :
  Double.eqb x Double.zero = true -> Double.gtb x Double.zero = false.
Proof.
  intros H. unfold Double.gtb.
  destruct (Double.ltb Double.zero x) eqn:E; [|reflexivity].
  exfalso. rewrite eqb_sym in H. exact (ltb_irrefl _ _ E H).
Qed.

(** The invariant of §3 on one summarised entry. *)
Lemma withTotals_invariant (s : StudentGrade) :
  let a := withTotals s in
  (Double.gtb (totalCredits a) Double.zero = true ->
   gpa a = Double.div (totalGradePoint a) (totalCredits a)) /\
  (Double.eqb (totalCredits a) Double.zero = true -> gpa a = Double.zero).
Proof.
  cbv zeta. rewrite withTotals_gpa. split; intros H.
  - now rewrite H.
  - now rewrite (eqb_zero_not_gtb _ H).
Qed.

Lemma fold_add_valid (l : list Double.double) (a : Double.double) :
  valid a -> valid (fold_left Double.add l a).
Proof.
  revert a. induction l as [|x l IH]; intros a Ha; simpl; [exact Ha|].
  apply IH, add_valid.
Qed.

(** The totals and the average of a summarised entry are doubles. *)
Lemma withTotals_valid (s : StudentGrade) : validKeys (withTotals s).
Proof.
  assert (Z : valid Double.zero) by apply zero_valid.
  destruct (withTotals_totals s) as (H1 & H2 & H3).
  unfold validKeys. rewrite withTotals_gpa, H1, H2, H3. unfold dsum.
  split; [|split; now apply fold_add_valid].
  destruct (Double.gtb _ _); [|exact Z].
  apply div_valid; now apply fold_add_valid.
Qed.

Section Report.
Variable grading_scales : table.
Variable curriculum : string.
Variable coursesData : list Course.
Variable studentsData : list Student.
Variable gradesData : list Grade.

Abbreviation findCourse g :=
  (find (fun c => String.eqb (c_id c) (g_course_id g)) coursesData).
Abbreviation entriesOf := (ReportSpec.entriesOf grading_scales curriculum coursesData).
Abbreviation gradeEntries := (ReportSpec.gradeEntries grading_scales curriculum coursesData).
Abbreviation filled :=
  (ReportSpec.filled grading_scales curriculum coursesData studentsData).
Abbreviation entryOf :=
  (ReportSpec.entryOf grading_scales curriculum coursesData gradesData).
Abbreviation inScope := (ReportSpec.inScope coursesData gradesData).
Abbreviation creditsOf := (ReportSpec.creditsOf coursesData).
Abbreviation gradePointOf := (ReportSpec.gradePointOf grading_scales curriculum).

(** *** The map of students (lines 156-171) *)

Lemma init_fold (l : list Student) (m : object StudentGrade) :
  let m' := fold_left (fun m student => obj_set m (s_id student) (newStudentGrade student))
                      l m in
  (NoDup (obj_keys m) -> NoDup (obj_keys m')) /\
  (forall s, In s l -> obj_get m' (s_id s) <> None) /\
  (forall k, obj_get m k <> None -> obj_get m' k <> None) /\
  (forall k v, obj_get m' k = Some v ->
     obj_get m k = Some v \/ exists s, In s l /\ k = s_id s /\ v = newStudentGrade s).
Proof.
  revert m. induction l as [|s l IH]; intros m; simpl.
  - repeat split; auto; tauto.
  - destruct (IH (obj_set m (s_id s) (newStudentGrade s))) as (H1 & H2 & H3 & H4).
    repeat split.
    + intros Hnd. apply H1. now apply obj_set_NoDup.
    + intros s' [<-|Hs']; [|now apply H2].
      apply H3. rewrite obj_get_set_eq. discriminate.
    + intros k Hk. apply H3.
      destruct (String.eqb_spec (s_id s) k) as [<-|Hne].
      * rewrite obj_get_set_eq. discriminate.
      * now rewrite obj_get_set_ne.
    + intros k v Hk. destruct (H4 k v Hk) as [Hm|(s' & Hs' & -> & ->)].
      * destruct (String.eqb_spec (s_id s) k) as [<-|Hne].
        -- rewrite obj_get_set_eq in Hm. injection Hm as <-. right. exists s. auto.
        -- rewrite obj_get_set_ne in Hm by assumption. now left.
      * right. exists s'. auto.
Qed.

Lemma init_NoDup : NoDup (obj_keys (initStudentGradesMap studentsData)).
Proof.
  apply (init_fold studentsData []). constructor.
Qed.

Lemma init_present (s : Student) :
  In s studentsData ->
  exists s', In s' studentsData /\ s_id s' = s_id s /\
    obj_get (initStudentGradesMap studentsData) (s_id s) = Some (newStudentGrade s').
Proof.
  intros Hs. destruct (init_fold studentsData []) as (_ & H2 & _ & H4).
  specialize (H2 s Hs).
  destruct (obj_get _ (s_id s)) as [v|] eqn:E; [|congruence].
  destruct (H4 _ _ E) as [Hm|(s' & Hs' & Hid & ->)]; [discriminate|].
  exists s'. split; [exact Hs'|]. split; [now rewrite Hid | reflexivity].
Qed.

Lemma init_values (k : string) (v : StudentGrade) :
  obj_get (initStudentGradesMap studentsData) k = Some v ->
  exists s, In s studentsData /\ k = s_id s /\ v = newStudentGrade s.
Proof.
  intros E. destruct (init_fold studentsData []) as (_ & _ & _ & H4).
  destruct (H4 _ _ E) as [Hm|H]; [discriminate | exact H].
Qed.

(** *** The loop over the grades (lines 173-185) *)

Lemma build_snoc es k v : build (es ++ [(k, v)]) = obj_set (build es) k v.
Proof.
  unfold build. now rewrite fold_left_app.
Qed.

Lemma filled_init : filled (initStudentGradesMap studentsData) [].
Proof.
  split; [reflexivity|]. intros k.
  destruct (obj_get _ k) as [v|] eqn:E; [|reflexivity].
  destruct (init_values _ E) as (s & _ & _ & ->). reflexivity.
Qed.

Lemma gradeEntries_snoc k done g :
  gradeEntries k (done ++ [g]) = gradeEntries k done ++ entriesOf k g.
Proof.
  unfold ReportSpec.gradeEntries. rewrite flat_map_app. simpl. now rewrite app_nil_r.
Qed.

Lemma addGrade_filled m done g :
  filled m done ->
  filled (addGrade grading_scales curriculum coursesData m g) (done ++ [g]).
Proof.
  intros [Hkeys Hget]. unfold addGrade.
  destruct (findCourse g) as [course|] eqn:Ec.
  - destruct (obj_get m (g_student_id g)) as [sg|] eqn:Es.
    + split.
      * rewrite obj_keys_set_present; [exact Hkeys | congruence].
      * intros k. destruct (String.eqb_spec (g_student_id g) k) as [<-|Hne].
        -- rewrite obj_get_set_eq. rewrite Hget in Es.
           destruct (obj_get (initStudentGradesMap studentsData) (g_student_id g))
             as [sg0|]; [|discriminate].
           simpl in *. injection Es as <-.
           rewrite gradeEntries_snoc. unfold ReportSpec.entriesOf.
           rewrite String.eqb_refl, Ec, build_snoc. reflexivity.
        -- rewrite obj_get_set_ne by assumption. rewrite Hget.
           rewrite gradeEntries_snoc. unfold ReportSpec.entriesOf.
           destruct (String.eqb_spec (g_student_id g) k); [contradiction|].
           now rewrite app_nil_r.
    + split; [exact Hkeys|]. intros k. rewrite Hget.
      rewrite gradeEntries_snoc. unfold ReportSpec.entriesOf.
      destruct (String.eqb_spec (g_student_id g) k) as [<-|Hne].
      * rewrite Hget in Es.
        destruct (obj_get (initStudentGradesMap studentsData) (g_student_id g));
          [discriminate | reflexivity].
      * now rewrite app_nil_r.
  - split; [exact Hkeys|]. intros k. rewrite Hget.
    rewrite gradeEntries_snoc. unfold ReportSpec.entriesOf. rewrite Ec.
    destruct (String.eqb (g_student_id g) k); now rewrite app_nil_r.
Qed.

Lemma fold_addGrade_filled gs m done :
  filled m done ->
  filled (fold_left (addGrade grading_scales curriculum coursesData) gs m) (done ++ gs).
Proof.
  revert m done. induction gs as [|g gs IH]; intros m done H; simpl.
  - now rewrite app_nil_r.
  - replace (done ++ g :: gs) with ((done ++ [g]) ++ gs) by now rewrite <- app_assoc.
    apply IH. now apply addGrade_filled.
Qed.

Lemma studentGradesMap_filled :
  filled (studentGradesMap grading_scales curriculum coursesData studentsData gradesData)
         gradesData.
Proof.
  apply (fold_addGrade_filled gradesData filled_init).
Qed.


(** *** The summarised list (lines 187-208) and the ranked report *)

Abbreviation theMap :=
  (studentGradesMap grading_scales curriculum coursesData studentsData gradesData).
Abbreviation theList :=
  (studentsList grading_scales curriculum coursesData studentsData gradesData).
Abbreviation theReport :=
  (report grading_scales curriculum coursesData studentsData gradesData).

Lemma studentsList_of_student (s : Student) :
  In s studentsData ->
  exists s', In s' studentsData /\ s_id s' = s_id s /\ In (withTotals (entryOf s')) theList.
Proof.
  intros Hs. destruct (init_present s Hs) as (s' & Hs' & Hid & Hget).
  exists s'. split; [exact Hs'|]. split; [exact Hid|].
  destruct studentGradesMap_filled as [_ Hfilled].
  specialize (Hfilled (s_id s)). rewrite Hget in Hfilled. simpl in Hfilled.
  apply obj_get_In in Hfilled.
  unfold studentsList, obj_values. apply in_map.
  apply (in_map snd) in Hfilled. simpl in Hfilled.
  unfold ReportSpec.entryOf. now rewrite Hid.
Qed.

Lemma studentsList_values (a : StudentGrade) :
  In a theList ->
  exists s, In s studentsData /\ a = withTotals (entryOf s).
Proof.
  unfold studentsList, obj_values. rewrite map_map. intros H.
  apply in_map_iff in H as ([k v] & <- & Hin). simpl.
  destruct studentGradesMap_filled as [Hkeys Hfilled].
  apply obj_In_get in Hin; [|rewrite Hkeys; apply init_NoDup].
  rewrite Hfilled in Hin.
  destruct (obj_get (initStudentGradesMap studentsData) k) as [sg0|] eqn:E;
    [|discriminate].
  simpl in Hin. injection Hin as <-.
  destruct (init_values _ E) as (s & Hs & -> & ->).
  exists s. split; [exact Hs | reflexivity].
Qed.

Lemma report_length : List.length theReport = List.length theList.
Proof.
  unfold report. rewrite assignRanks_length.
  apply Permutation_length, sort_perm.
Qed.

Lemma report_In (a : StudentGrade) :
  In a theReport ->
  exists a0 n, In a0 theList /\ a = set_rank a0 (n + 1) /\ (n < List.length theList)%nat.
Proof.
  unfold report. intros H. apply assignRanks_In in H as (n & a0 & Hn & ->).
  exists a0, n. split; [|split; [reflexivity|]].
  - eapply Permutation_in; [apply sort_perm|]. eapply nth_error_In; eauto.
  - rewrite <- (Permutation_length (sort_perm sortCompare theList)).
    apply nth_error_Some. congruence.
Qed.

Lemma report_of_list (a0 : StudentGrade) :
  In a0 theList ->
  exists n, In (set_rank a0 (n + 1)) theReport /\ (n < List.length theList)%nat.
Proof.
  intros H.
  apply (Permutation_in _ (Permutation_sym (sort_perm sortCompare theList))) in H.
  apply In_nth_error in H as [n Hn]. exists n. split.
  - unfold report. apply assignRanks_In. exists n, a0. auto.
  - rewrite <- (Permutation_length (sort_perm sortCompare theList)).
    apply nth_error_Some. congruence.
Qed.

(** *** Sums over a student's grades in scope *)

Lemma existsb_find (g : Grade) :
  existsb (fun c => String.eqb (c_id c) (g_course_id g)) coursesData =
  match findCourse g with Some _ => true | None => false end.
Proof.
  induction coursesData as [|c cs IH]; simpl; auto.
  destruct (String.eqb (c_id c) (g_course_id g)); simpl; auto.
Qed.

Lemma entries_inScope (B : Type) (k : string) (f : CourseGrade -> B) (h : Grade -> B) :
  (forall g course, findCourse g = Some course ->
     f (courseGradeOf grading_scales curriculum g course) = h g) ->
  map f (map snd (gradeEntries k gradesData)) = map h (inScope k).
Proof.
  intros Hfh. unfold ReportSpec.gradeEntries, ReportSpec.inScope.
  induction gradesData as [|g gs IH]; simpl; auto.
  rewrite !map_app, IH, existsb_find. unfold ReportSpec.entriesOf.
  destruct (String.eqb (g_student_id g) k); simpl; auto.
  destruct (findCourse g) as [course|] eqn:E; simpl; auto.
  f_equal. now apply Hfh.
Qed.

Lemma build_fresh (es : list (string * CourseGrade)) (o : object CourseGrade) :
  NoDup (obj_keys o ++ map fst es) ->
  fold_left (fun o e => obj_set o (fst e) (snd e)) es o = o ++ es.
Proof.
  revert o. induction es as [|[k v] es IH]; intros o Hnd; simpl.
  - now rewrite app_nil_r.
  - rewrite obj_set_fresh.
    + rewrite IH; [now rewrite <- app_assoc|].
      unfold obj_keys. rewrite map_app. simpl. now rewrite <- app_assoc.
    + apply obj_get_None_keys. intros Hin.
      simpl in Hnd. apply NoDup_remove_2 in Hnd. apply Hnd.
      apply in_or_app. now left.
Qed.

Lemma gradeEntries_keys (k c : string) (gs : list Grade) :
  In c (map fst (flat_map (entriesOf k) gs)) -> In (k, c) (map pairKey gs).
Proof.
  induction gs as [|g gs IH]; simpl; [tauto|].
  rewrite map_app, in_app_iff. intros [H|H]; [left | right; auto].
  unfold ReportSpec.entriesOf in H.
  destruct (String.eqb_spec (g_student_id g) k) as [<-|]; [|destruct H].
  destruct (findCourse g); [|destruct H].
  destruct H as [<-|[]]. reflexivity.
Qed.

Lemma gradeEntries_NoDup (k : string) (gs : list Grade) :
  NoDup (map pairKey gs) -> NoDup (map fst (flat_map (entriesOf k) gs)).
Proof.
  induction gs as [|g gs IH]; simpl; intros Hnd; [constructor|].
  inversion Hnd as [|? ? Hnotin Hnd']; subst.
  rewrite map_app. apply NoDup_app; auto.
  - unfold ReportSpec.entriesOf. destruct (String.eqb (g_student_id g) k); [|constructor].
    destruct (findCourse g); repeat constructor. simpl; tauto.
  - intros c Hc Hc'. apply gradeEntries_keys in Hc'.
    unfold ReportSpec.entriesOf in Hc.
    destruct (String.eqb_spec (g_student_id g) k) as [<-|]; [|destruct Hc].
    destruct (findCourse g); [|destruct Hc].
    destruct Hc as [<-|[]]. contradiction.
Qed.

Lemma build_unique (k : string) :
  NoDup (map pairKey gradesData) ->
  build (gradeEntries k gradesData) = gradeEntries k gradesData.
Proof.
  intros Hnd. unfold build. rewrite build_fresh; [reflexivity|].
  simpl. now apply gradeEntries_NoDup.
Qed.

(** *** Distinct student ids: one entry per student *)

Lemma init_keys_fold (l : list Student) (m : object StudentGrade) :
  NoDup (obj_keys m ++ map s_id l) ->
  obj_keys (fold_left (fun m student => obj_set m (s_id student) (newStudentGrade student))
                      l m)
  = obj_keys m ++ map s_id l.
Proof.
  revert m. induction l as [|s l IH]; intros m Hnd; simpl.
  - now rewrite app_nil_r.
  - assert (Hfresh : obj_get m (s_id s) = None).
    { apply obj_get_None_keys. intros Hin. simpl in Hnd.
      apply NoDup_remove_2 in Hnd. apply Hnd, in_or_app. now left. }
    rewrite obj_set_fresh by assumption.
    rewrite IH; unfold obj_keys; rewrite map_app; simpl; rewrite <- app_assoc;
      [reflexivity | exact Hnd].
Qed.

Lemma report_length_students :
  NoDup (map s_id studentsData) -> List.length theReport = List.length studentsData.
Proof.
  intros Hnd. rewrite report_length. unfold studentsList, obj_values.
  rewrite !length_map.
  destruct studentGradesMap_filled as [Hkeys _].
  apply (f_equal (@List.length string)) in Hkeys. unfold obj_keys in Hkeys at 1.
  rewrite length_map in Hkeys. rewrite Hkeys.
  unfold initStudentGradesMap. rewrite init_keys_fold by exact Hnd.
  simpl. now rewrite length_map.
Qed.

End Report.
End AggregationFacts.

(* ===================================================================== *)
(** * The semester report: aggregation, invariant, ranking *)
(* ===================================================================== *)

Import JS SortSpec JSFacts GradingScales SemesterGradeReport ReportSpec RankingFacts
  AggregationFacts ResolveGradeSpec.

(** C1.  With one score per (student, course) pair, every student of the
    input has an entry in the report whose [totalScore] is the sum of the
    student's scores in scope, whose [totalGradePoint] is the sum of
    grade point times credits over those courses, and whose [totalCredits]
    is the sum of their credits; sums and products are those of double
    arithmetic, taken from 0 in the order of the grades.  For the worked
    example (P: 3 credits, score 90; Q: 2 credits, score 72) the entry has
    total score 162, weighted grade points 18, credits 5 and gpa 3.6 (the
    double nearest to 3.6). *)
Theorem aggregate_totals :
  (forall scales cur cs ss gs,
     NoDup (map pairKey gs) ->
     forall s, In s ss ->
     exists a, In a (report scales cur cs ss gs) /\
       student_id a = s_id s /\
       totalScore a
         = dsum (map (fun g => Double.ofQ (g_score g)) (inScope cs gs (s_id s))) /\
       totalGradePoint a
         = dsum (map (fun g => Double.mul (Double.ofQ (gradePointOf scales cur g))
                                          (Double.ofQ (creditsOf cs g)))
                     (inScope cs gs (s_id s))) /\
       totalCredits a
         = dsum (map (fun g => Double.ofQ (creditsOf cs g)) (inScope cs gs (s_id s)))) /\
  (exists a, Examples.reportX = [a] /\
     map snd (courses a) =
       [ Build_CourseGrade 90 "A" 4 3; Build_CourseGrade 72 "B-" 3 2 ] /\
     totalScore a = Double.ofQ 162 /\
     totalGradePoint a = Double.ofQ 18 /\ totalCredits a = Double.ofQ 5 /\
     gpa a = Double.ofQ (36 # 10)).
Proof.
  split.
  - intros scales cur cs ss gs Hnd s Hs.
    destruct (studentsList_of_student scales cur cs ss gs s Hs) as (s' & Hs' & Hid & Hin).
    destruct (report_of_list scales cur cs ss gs _ Hin) as (n & Hrep & _).
    exists (set_rank (withTotals (entryOf scales cur cs gs s')) (n + 1)).
    split; [exact Hrep|]. cbn [set_rank student_id totalScore totalGradePoint totalCredits].
    destruct (withTotals_totals (entryOf scales cur cs gs s')) as (H1 & H2 & H3).
    rewrite withTotals_student_id. split; [exact Hid|].
    rewrite H1, H2, H3. unfold ReportSpec.entryOf.
    cbn [set_courses courses].
    rewrite build_unique by assumption. unfold obj_values. rewrite Hid.
    split; [|split]; f_equal.
    + apply (entries_inScope scales cur cs gs (s_id s)
               (fun cg => Double.ofQ (score cg)) (fun g => Double.ofQ (g_score g))).
      reflexivity.
    + apply (entries_inScope scales cur cs gs (s_id s) weighted
               (fun g => Double.mul (Double.ofQ (gradePointOf scales cur g))
                                    (Double.ofQ (creditsOf cs g)))).
      intros g course E. unfold weighted, ReportSpec.creditsOf, ReportSpec.gradePointOf.
      cbn [courseGradeOf cg_grade_point credits]. now rewrite E.
    + apply (entries_inScope scales cur cs gs (s_id s)
               (fun cg => Double.ofQ (credits cg)) (fun g => Double.ofQ (creditsOf cs g))).
      intros g course E. unfold ReportSpec.creditsOf.
      cbn [courseGradeOf credits]. now rewrite E.
  - eexists. split; [vm_compute; reflexivity|]. vm_compute. repeat split.
Qed.

Lemma aggregate_totals_witness :
  NoDup (map pairKey Examples.gradesX) /\
  In Examples.studentX [Examples.studentX] /\
  exists a, In a Examples.reportX /\
    student_id a = "student-x"%string /\
    totalScore a
      = dsum (map (fun g => Double.ofQ (g_score g))
                  (inScope [Examples.courseP; Examples.courseQ] Examples.gradesX
                           "student-x")) /\
    totalGradePoint a
      = dsum (map (fun g => Double.mul
                              (Double.ofQ (gradePointOf Examples.scale "2024" g))
                              (Double.ofQ
                                 (creditsOf [Examples.courseP; Examples.courseQ] g)))
                  (inScope [Examples.courseP; Examples.courseQ] Examples.gradesX
                           "student-x")) /\
    totalCredits a
      = dsum (map (fun g => Double.ofQ (creditsOf [Examples.courseP; Examples.courseQ] g))
                  (inScope [Examples.courseP; Examples.courseQ] Examples.gradesX
                           "student-x")).
Proof.
  assert (Hnd : NoDup (map pairKey Examples.gradesX)).
  { repeat constructor; simpl; intuition discriminate. }
  assert (Hin : In Examples.studentX [Examples.studentX]) by (left; reflexivity).
  split; [exact Hnd|]. split; [exact Hin|].
  exact (proj1 aggregate_totals Examples.scale "2024"%string
           [Examples.courseP; Examples.courseQ] [Examples.studentX] Examples.gradesX
           Hnd Examples.studentX Hin).
Defined.

(** C2.  Every entry of the report satisfies the invariant: [gpa] is the
    weighted grade points divided by the credits (the division of doubles)
    when the credits are positive, and 0 when the credits are 0. *)
Theorem gpa_invariant scales cur cs ss gs (a : StudentGrade) :
  In a (report scales cur cs ss gs) ->
  (Double.gtb (totalCredits a) Double.zero = true ->
     gpa a = Double.div (totalGradePoint a) (totalCredits a)) /\
  (Double.eqb (totalCredits a) Double.zero = true -> gpa a = Double.zero).
Proof.
  intros H. apply report_In in H as (a0 & n & Hin & -> & _).
  apply studentsList_values in Hin as (s & _ & ->).
  cbn [set_rank gpa totalCredits totalGradePoint].
  apply withTotals_invariant.
Qed.

Lemma gpa_invariant_witness :
  gpa (nth 0 Examples.reportX (newStudentGrade Examples.studentX))
  = Double.div (Double.ofQ 18) (Double.ofQ 5).
Proof.
  destruct (gpa_invariant Examples.scale "2024"%string
              [Examples.courseP; Examples.courseQ] [Examples.studentX] Examples.gradesX
              (nth 0 Examples.reportX (newStudentGrade Examples.studentX)))
    as [Hpos _].
  - vm_compute. left. reflexivity.
  - rewrite Hpos; vm_compute; reflexivity.
Defined.

Lemma report_comparable scales cur cs ss gs :
  (forall a, In a (report scales cur cs ss gs) -> numericKeys a) ->
  Forall comparable (studentsList scales cur cs ss gs).
Proof.
  intros H. apply Forall_forall. intros a0 Hin. split.
  - destruct (report_of_list scales cur cs ss gs _ Hin) as (n & Hrep & _).
    exact (H _ Hrep).
  - apply studentsList_values in Hin as (s & _ & ->). apply withTotals_valid.
Qed.

(** C3.  When the sort keys of the entries are numbers (none is [NaN]),
    the report is sorted best first by [gpa], then by the weighted grade
    points, then by [totalScore], in the order of doubles; and for any two
    entries [A], [B] of the report, [A.gpa > B.gpa] implies
    [A.rank < B.rank]. *)
Theorem report_sorted_and_ranked scales cur cs ss gs :
  (forall a, In a (report scales cur cs ss gs) -> numericKeys a) ->
  StronglySorted keyOrder (report scales cur cs ss gs) /\
  forall A B, In A (report scales cur cs ss gs) -> In B (report scales cur cs ss gs) ->
    Double.gtb (gpa A) (gpa B) = true -> (rank A < rank B)%nat.
Proof.
  intros Hnum. apply report_comparable in Hnum.
  pose proof (sort_compareFn_sorted Hnum) as Hsorted.
  split.
  - now apply assignRanks_sorted.
  - unfold report. intros A B HA HB Hgpa. unfold Double.gtb in Hgpa.
    apply assignRanks_In in HA as (i & A0 & Hi & ->).
    apply assignRanks_In in HB as (j & B0 & Hj & ->).
    cbn [set_rank gpa rank] in *.
    destruct (Nat.lt_trichotomy i j) as [Hlt|[<-|Hgt]]; [lia| |].
    + exfalso. rewrite Hi in Hj. injection Hj as <-.
      exact (DoubleFacts.ltb_asym _ _ Hgpa Hgpa).
    + exfalso.
      pose proof (StronglySorted_nth Hsorted Hgt Hj Hi) as Hord.
      unfold keyOrder in Hord. destruct Hord as [H|[H _]].
      * exact (DoubleFacts.ltb_asym _ _ Hgpa H).
      * exact (DoubleFacts.ltb_irrefl _ _ Hgpa H).
Qed.

Lemma report_sorted_and_ranked_witness :
  (rank (nth 0 Examples.reportWX (newStudentGrade Examples.studentW))
   < rank (nth 1 Examples.reportWX (newStudentGrade Examples.studentW)))%nat.
Proof.
  assert (Hnum : forall a, In a Examples.reportWX -> numericKeys a).
  { intros a Ha. vm_compute in Ha. destruct Ha as [<-|[<-|[]]]; repeat split. }
  apply (proj2 (report_sorted_and_ranked Examples.scale "2024"%string
                  [Examples.courseP; Examples.courseQ]
                  [Examples.studentW; Examples.studentX] Examples.gradesX Hnum)).
  - vm_compute. left. reflexivity.
  - vm_compute. right. left. reflexivity.
  - vm_compute. reflexivity.
Defined.

(** X22.  Rounding decides the order.  On the scale seeded for curriculum
    2024, a student with one A- (3.7) in a course of 3 credits and a
    student with an A (4.0) in a course of 4 credits and a B+ (3.3) in a
    course of 3 credits both have the average 3.7 in exact arithmetic.
    The report computes 3.7 * 3 / 3 = 3.7000000000000006 for the first and
    (4 * 4 + 3.3 * 3) / 7 = 3.6999999999999997 for the second, and ranks
    the first ahead of the second on [gpa]; the weighted grade points (11.1
    against 25.9) are not consulted. *)
Lemma rounding_decides_rank_example :
  exists a b,
    Examples.reportRounding = [a; b] /\
    student_id a = "s-a"%string /\ student_id b = "s-b"%string /\
    rank a = 1%nat /\ rank b = 2%nat /\
    gpa a = Double.div (Double.mul (Double.ofQ (37 # 10)) (Double.ofQ 3)) (Double.ofQ 3) /\
    gpa b = Double.div (Double.add (Double.mul (Double.ofQ 4) (Double.ofQ 4))
                                   (Double.mul (Double.ofQ (33 # 10)) (Double.ofQ 3)))
                       (Double.ofQ 7) /\
    totalGradePoint a = Printed.js_11_100000000000001 /\
    gpa a = Printed.js_3_7000000000000006 /\
    totalGradePoint b = Printed.js_25_9 /\
    gpa b = Printed.js_3_6999999999999997 /\
    Double.ltb (gpa b) (gpa a) = true /\
    Double.ltb (totalGradePoint a) (totalGradePoint b) = true.
Proof.
  do 2 eexists. split; [vm_compute; reflexivity|]. vm_compute. repeat split.
Qed.

(** C4.  Ranks are 1, 2, 3, ... by position in the sorted order, so no two
    entries share a rank; two students equal on [gpa] (3.6), weighted grade
    points (18) and [totalScore] (162) get the ranks 1 and 2. *)
Theorem ranks_sequential :
  (forall scales cur cs ss gs,
     map rank (report scales cur cs ss gs)
     = seq 1 (List.length (report scales cur cs ss gs)) /\
     NoDup (map rank (report scales cur cs ss gs))) /\
  (exists a b, Examples.reportTie = [a; b] /\
     gpa a = Double.ofQ (36 # 10) /\ gpa b = Double.ofQ (36 # 10) /\
     totalGradePoint a = Double.ofQ 18 /\ totalGradePoint b = Double.ofQ 18 /\
     totalScore a = Double.ofQ 162 /\ totalScore b = Double.ofQ 162 /\
     rank a = 1%nat /\ rank b = 2%nat).
Proof.
  split.
  - intros scales cur cs ss gs.
    assert (H : map rank (report scales cur cs ss gs)
                = seq 1 (List.length (report scales cur cs ss gs))).
    { unfold report. now rewrite assignRanks_ranks, assignRanks_length. }
    split; [exact H|]. rewrite H. apply seq_NoDup.
  - do 2 eexists. split; [vm_compute; reflexivity|].
    vm_compute. repeat split.
Qed.

(** C7.  Every student of the input has an entry in the ranked report, with
    a rank between 1 and the number of entries; a student without any grade
    in scope has no course results, [totalScore = 0], [totalCredits = 0]
    and [gpa = 0]. *)
Theorem every_student_ranked scales cur cs ss gs (s : Student) :
  In s ss ->
  exists a, In a (report scales cur cs ss gs) /\
    student_id a = s_id s /\
    (1 <= rank a <= List.length (report scales cur cs ss gs))%nat /\
    (inScope cs gs (s_id s) = [] ->
       courses a = [] /\
       totalScore a = Double.zero /\ totalCredits a = Double.zero /\
       gpa a = Double.zero).
Proof.
  intros Hs.
  destruct (studentsList_of_student scales cur cs ss gs s Hs) as (s' & Hs' & Hid & Hin).
  destruct (report_of_list scales cur cs ss gs _ Hin) as (n & Hrep & Hn).
  exists (set_rank (withTotals (entryOf scales cur cs gs s')) (n + 1)).
  split; [exact Hrep|].
  cbn [set_rank student_id rank courses totalScore totalCredits gpa].
  rewrite withTotals_student_id. cbn [ReportSpec.entryOf set_courses student_id newStudentGrade].
  split; [exact Hid|]. split; [rewrite report_length; lia|].
  intros Hnone.
  assert (Hempty : gradeEntries scales cur cs (s_id s') gs = []).
  { pose proof (entries_inScope scales cur cs gs (s_id s') score g_score
                  (fun _ _ _ => eq_refl)) as E.
    rewrite Hid, Hnone in E.
    destruct (gradeEntries scales cur cs (s_id s') gs) eqn:G; [reflexivity|].
    rewrite Hid in G. rewrite G in E. discriminate E. }
  unfold ReportSpec.entryOf. rewrite Hempty. vm_compute. repeat split.
Qed.

Lemma every_student_ranked_witness :
  exists a, In a Examples.reportWX /\
    student_id a = "student-w"%string /\
    totalScore a = Double.zero /\ totalCredits a = Double.zero /\ gpa a = Double.zero.
Proof.
  destruct (every_student_ranked Examples.scale "2024"%string
              [Examples.courseP; Examples.courseQ]
              [Examples.studentW; Examples.studentX] Examples.gradesX
              Examples.studentW (or_introl eq_refl))
    as (a & Hin & Hid & _ & Hzero).
  destruct (Hzero eq_refl) as (_ & H1 & H2 & H3).
  exists a. split; [exact Hin|]. split; [exact Hid|]. split; [exact H1|].
  split; [exact H2 | exact H3].
Defined.

(** [loadReport] shows this report as soon as a cohort and a semester are
    selected and the queries return at least one course and one student;
    otherwise it raises an alert and leaves the displayed list as it was. *)
Lemma loadReport_report (q : Queries) (selectedAngkatan : string)
      (selectedSemester : Z) (curriculumFilter : string)
      (cs : list Course) (ss : list Student) :
  selectedAngkatan <> EmptyString -> selectedSemester <> 0%Z ->
  select_courses q selectedSemester
    (if not_string curriculumFilter then selectedAngkatan else curriculumFilter)
  = Some cs ->
  cs <> [] ->
  select_students q selectedAngkatan = Some ss -> ss <> [] ->
  loadReport q selectedAngkatan selectedSemester curriculumFilter =
  Some (report (select_grading_scales q)
          (if not_string curriculumFilter then selectedAngkatan else curriculumFilter)
          cs ss
          (match select_grades q (map c_id cs) (map s_id ss) with
           | Some gs => gs
           | None => []
           end)).
Proof.
  intros Ha Hs Hc Hcs Hst Hss. unfold loadReport, not_string in *.
  destruct (String.eqb_spec selectedAngkatan EmptyString); [contradiction|].
  destruct (Z.eqb_spec selectedSemester 0); [contradiction|]. simpl.
  rewrite Hc. destruct cs as [|c cs]; [contradiction|].
  rewrite Hst. destruct ss as [|s ss]; [contradiction|]. reflexivity.
Qed.

(* ===================================================================== *)
(** * Grade resolution: no covering entry, several covering entries *)
(* ===================================================================== *)

Lemma find_filter (A : Type) (f : A -> bool) (l : list A) :
  find f l = hd_error (filter f l).
Proof.
  induction l as [|x l IH]; simpl; auto.
  destruct (f x); simpl; auto.
Qed.

Lemma filter_none (A : Type) (f : A -> bool) (l : list A) :
  (forall x, In x l -> f x = false) -> filter f l = [].
Proof.
  induction l as [|x l IH]; simpl; intros H; auto.
  rewrite (H x) by now left. apply IH. intros y Hy. apply H. now right.
Qed.

(** C5, as the code has it.  The claim that a score without a covering
    entry is reported as unresolvable fails: with the scale A [80,100],
    B [70,74.99], E [0,69.99] and the score 77, no entry covers the score,
    [get_letter_grade] answers 'E', [get_grade_point] and [getGradePoint]
    answer 0, and the report keeps the grade with grade point 0 and counts
    its credits. *)
Lemma no_match_is_defaulted_example :
  (forall r, In r Examples.gapScale -> covers 77 "2024" r = false) /\
  get_letter_grade Examples.gapScale 77 "2024" = "E"%string /\
  get_grade_point Examples.gapScale 77 "2024" = 0%Q /\
  getGradePoint Examples.gapScale 77 "2024" = 0%Q /\
  exists a,
    report Examples.gapScale "2024" [Examples.courseP] [Examples.studentX]
           [Examples.grade "student-x" "course-p" 77 "B"] = [a] /\
    map snd (courses a) = [Build_CourseGrade 77 "B" 0 3] /\
    totalCredits a = Double.ofQ 3 /\ gpa a = Double.zero.
Proof.
  split.
  - intros r [<-|[<-|[<-|[]]]]; reflexivity.
  - split; [reflexivity|]. split; [reflexivity|]. split; [reflexivity|].
    eexists. split; [vm_compute; reflexivity|]. vm_compute. repeat split.
Qed.

(** C5, amended.  When no entry of the curriculum covers the score (a gap,
    or no scale at all), [get_letter_grade] returns the default 'E' and
    [get_grade_point] and [getGradePoint] return the default 0. *)
Theorem no_match_defaults (t : table) (p_score : Q) (p_curriculum : string) :
  (forall r, In r t -> covers p_score p_curriculum r = false) ->
  get_letter_grade t p_score p_curriculum = "E"%string /\
  get_grade_point t p_score p_curriculum = 0%Q /\
  getGradePoint t p_score p_curriculum = 0%Q.
Proof.
  intros H. apply filter_none in H.
  unfold get_letter_grade, get_grade_point, getGradePoint, select_limit_1.
  rewrite find_filter, H. simpl. auto.
Qed.

Lemma no_match_defaults_witness :
  get_letter_grade Examples.gapScale 77 "2024" = "E"%string /\
  get_grade_point Examples.gapScale 77 "2024" = 0%Q /\
  getGradePoint Examples.gapScale 77 "2024" = 0%Q.
Proof.
  apply (no_match_defaults Examples.gapScale 77 "2024"%string).
  intros r [<-|[<-|[<-|[]]]]; reflexivity.
Defined.

Lemma sort_descending (t : table) : descending t -> JS.sort byMinScoreDesc t = t.
Proof.
  induction 1 as [|x l Hs IH Hx]; simpl; auto.
  rewrite IH. destruct l as [|y l]; simpl; auto.
  inversion Hx as [|? ? Hxy _]; subst.
  assert (E : Qle_bool (byMinScoreDesc x y) 0 = true)
    by (apply Qle_bool_iff; unfold byMinScoreDesc; lra).
  now rewrite E.
Qed.


(** C6, as the code has it.  The claim that the highest bracket wins fails:
    with the rows B [70,84.99] (3.0) and A [80,100] (4.0), scanned in this
    order, the score 82 is covered by both; the first match by descending
    [minScore] is A, but [get_grade_point] returns B's 3.0 and
    [getGradePoint] returns 0. *)
Lemma overlap_not_highest_bracket :
  List.length (filter (covers 82 "2024") Examples.overlapScale) = 2%nat /\
  option_map grade_point (spec_resolveGrade Examples.overlapScale 82 "2024") = Some 4%Q /\
  option_map letter_grade (spec_resolveGrade Examples.overlapScale 82 "2024")
    = Some "A"%string /\
  get_grade_point Examples.overlapScale 82 "2024" = 3%Q /\
  get_letter_grade Examples.overlapScale 82 "2024" = "B"%string /\
  getGradePoint Examples.overlapScale 82 "2024" = 0%Q.
Proof.
  repeat split.
Qed.

(** C6, amended.  When a score is covered by more than one entry of its
    curriculum, [get_letter_grade] and [get_grade_point] return the first
    covering row in the scan order of the table, and [getGradePoint]
    returns 0; when the rows are scanned in descending [min_score] order,
    the row the SQL functions take is the first match by descending
    [minScore] (the highest bracket). *)
Theorem overlap_resolution (t : table) (p_score : Q) (p_curriculum : string) :
  (forall r1 r2 rest,
     filter (covers p_score p_curriculum) t = r1 :: r2 :: rest ->
     get_letter_grade t p_score p_curriculum = letter_grade r1 /\
     get_grade_point t p_score p_curriculum = grade_point r1 /\
     getGradePoint t p_score p_curriculum = 0%Q) /\
  (descending t ->
     select_limit_1 t p_score p_curriculum = spec_resolveGrade t p_score p_curriculum).
Proof.
  split.
  - intros r1 r2 rest H.
    unfold get_letter_grade, get_grade_point, getGradePoint, select_limit_1.
    rewrite find_filter, H. simpl. auto.
  - intros H. unfold spec_resolveGrade. now rewrite sort_descending.
Qed.

Lemma overlap_resolution_witness :
  (get_letter_grade Examples.overlapScale 82 "2024" = "B"%string /\
   get_grade_point Examples.overlapScale 82 "2024" = 3%Q /\
   getGradePoint Examples.overlapScale 82 "2024" = 0%Q) /\
  select_limit_1 default_2024 82 "2024" = spec_resolveGrade default_2024 82 "2024".
Proof.
  split.
  - exact (proj1 (overlap_resolution Examples.overlapScale 82 "2024"%string)
             _ _ _ eq_refl).
  - apply (proj2 (overlap_resolution default_2024 82 "2024"%string)).
    unfold descending, default_2024.
    repeat (constructor; [|repeat (constructor; [simpl; lra|]); constructor]).
    constructor.
Defined.

(* ===================================================================== *)
(** * The upload components *)
(* ===================================================================== *)

(** ** The letter-grade mappings *)

(** C9.  The two upload components use the same mapping, which differs from
    the one of the grade-entry component: the score 80 is 'B+' for the
    former and 'A-' for the latter.  Neither depends on the grading-scale
    table: the Excel upload stores 'B+' for 80 although the table of
    curriculum 2024 says 'A-', and the grade entry stores 'C-' for 50
    although the table says 'D'. *)
Theorem letter_grade_mappings_differ :
  (forall s, ExcelGradeUpload.getLetterGrade s = GradeUpload.getLetterGrade s) /\
  (exists s : Q, (0 <= s <= 100)%Q /\
     GradeUpload.getLetterGrade (Num s) <> ManualGradeInput.calculateLetterGrade (Num s)) /\
  ExcelGradeUpload.getLetterGrade (Num 80) = "B+"%string /\
  ManualGradeInput.calculateLetterGrade (Num 80) = "A-"%string /\
  (exists st,
     ExcelGradeUpload.handleUpload UploadExamples.backend []
       [UploadExamples.excelRow "2024001" (Num 80)] = Some st /\
     map Supabase.letter_grade (ExcelGradeUpload.grades st) = ["B+"%string]) /\
  Supabase.letter_grade (ManualGradeInput.gradeToSave "course-p" "student-x" (Num 80))
    = "A-"%string /\
  get_letter_grade default_2024 80 "2024" = "A-"%string /\
  ManualGradeInput.calculateLetterGrade (Num 50) = "C-"%string /\
  get_letter_grade default_2024 50 "2024" = "D"%string.
Proof.
  split; [reflexivity|].
  split.
  { exists 80%Q. split; [split; vm_compute; discriminate|]. vm_compute. discriminate. }
  split; [reflexivity|]. split; [reflexivity|].
  split; [eexists; split; vm_compute; reflexivity|].
  repeat split.
Qed.

(** ** Row-by-row processing *)

Module UploadFacts.
Import Supabase UploadSpec GradesTable UploadRuns.

Lemma upsert_In (grades : list GradeRecord) (r x : GradeRecord) :
  In x (upsert grades r) -> In x grades \/ x = r.
Proof.
  induction grades as [|g grades IH]; simpl.
  - intros [<-|[]]. now right.
  - destruct (same_key g r); simpl.
    + intros [<-|H]; auto.
    + intros [<-|H]; auto. destruct (IH H); auto.
Qed.

(** *** Excel upload *)

Section Excel.
Import ExcelGradeUpload.
Variable be : Backend.

Abbreviation excelStudentMissing := (UploadSpec.excelStudentMissing be).
Abbreviation excelCourseMissing := (UploadSpec.excelCourseMissing be).
Abbreviation excelHandled := (UploadSpec.excelHandled be).

Ltac excel_error reason :=
  eexists; split; [reflexivity|]; split; [|simpl; lia];
  split; [right; eexists; split; [reflexivity | reason]|];
  repeat split; intros; simpl; try reflexivity; try discriminate; try congruence.

Lemma excel_processRow (st : State) (row : UploadedRow) :
  exists out,
    processedRows (processRow be st row) = processedRows st ++ [out] /\
    excelHandled row out /\
    (successCount (processRow be st row) + errorCount (processRow be st row)
     = S (successCount st + errorCount st))%nat.
Proof.
  unfold processRow, tryRow, UploadSpec.excelHandled, UploadSpec.excelStudentMissing,
    UploadSpec.excelCourseMissing, UploadSpec.excelAccepted, bind.
  change (JS.not_string (nim row) || JS.lt (score row) 0 || JS.gt (score row) 100)
    with (UploadSpec.excelInvalid row).
  destruct (UploadSpec.excelInvalid row) eqn:E1.
  { excel_error ltac:(now apply invalid_row). }
  destruct (student_by_nim_angkatan be (nim row) (or_empty (angkatan row)))
    as [e|[sid|]] eqn:E2.
  { excel_error ltac:(now apply student_lookup_failed). }
  2:{ excel_error ltac:(now apply student_not_found with None). }
  destruct (JS.not_string sid) eqn:E3.
  { excel_error ltac:(now apply student_not_found with (Some sid)). }
  destruct (course_by_code be (courseCode row)) as [e|[cid|]] eqn:E4.
  { excel_error ltac:(now apply course_lookup_failed with sid). }
  2:{ excel_error ltac:(now apply course_not_found with sid None). }
  destruct (JS.not_string cid) eqn:E5.
  { excel_error ltac:(now apply course_not_found with sid (Some cid)). }
  destruct (upsert_grade be _) as [e|[m|]] eqn:E6.
  { excel_error ltac:(now apply upsert_failed with sid cid). }
  { excel_error ltac:(now apply upsert_refused with sid cid). }
  eexists. split; [reflexivity|]. split; [|simpl; lia].
  split; [left; split; [reflexivity|]; split; [reflexivity|];
          exists sid, cid; repeat split; assumption|].
  repeat split; intros; simpl; try reflexivity; try discriminate.
Qed.

Lemma excel_fold (preview : list UploadedRow) (st : State) :
  exists outs,
    processedRows (fold_left (processRow be) preview st) = processedRows st ++ outs /\
    Forall2 excelHandled preview outs /\
    (successCount (fold_left (processRow be) preview st)
     + errorCount (fold_left (processRow be) preview st)
     = successCount st + errorCount st + List.length preview)%nat.
Proof.
  revert st. induction preview as [|row preview IH]; intros st; simpl.
  - exists []. rewrite app_nil_r. split; [reflexivity|]. split; [constructor | lia].
  - destruct (excel_processRow st row) as (out & Hout & Hh & Hc).
    destruct (IH (processRow be st row)) as (outs & Houts & Hall & Hcs).
    exists (out :: outs). split; [|split].
    + rewrite Houts, Hout, <- app_assoc. reflexivity.
    + now constructor.
    + lia.
Qed.
End Excel.

(** *** CSV upload *)

Section Csv.
Import GradeUpload.
Variable parseFloat : string -> JS.number.
Variable be : Backend.

Abbreviation csvMissingField := (UploadSpec.csvMissingField parseFloat).
Abbreviation csvStudentMissing := (UploadSpec.csvStudentMissing be).
Abbreviation csvCourseMissing := (UploadSpec.csvCourseMissing be).
Abbreviation csvMustFail := (UploadSpec.csvMustFail parseFloat be).

Lemma csv_processRow (st : State) (row : Row) :
  (processRow parseFloat be st row = failed st \/
   exists r, processRow parseFloat be st row = succeeded st r /\
             JS.not_number (Supabase.score r) = false) /\
  (csvMustFail row = true -> processRow parseFloat be st row = failed st).
Proof.
  unfold processRow, tryRow, UploadSpec.csvMustFail, UploadSpec.csvMissingField, UploadSpec.csvStudentMissing,
    UploadSpec.csvCourseMissing, bind.
  destruct (nimOf row) as [nim|]; destruct (courseCodeOf row) as [code|]; simpl;
    try (split; [left|]; reflexivity).
  - destruct (JS.not_string nim) eqn:E1; simpl; [split; [left|]; reflexivity|].
    destruct (JS.not_string code) eqn:E2; simpl; [split; [left|]; reflexivity|].
    destruct (JS.not_number (scoreOf parseFloat row)) eqn:E3; simpl;
      [split; [left|]; reflexivity|].
    destruct (student_by_nim be nim) as [e|[sid|]]; simpl;
      try (split; [left|]; reflexivity).
    destruct (JS.not_string sid); [split; [left|]; reflexivity|].
    destruct (course_by_code be code) as [e|[cid|]]; simpl;
      try (split; [left|]; reflexivity).
    destruct (JS.not_string cid); [split; [left; reflexivity | discriminate]|].
    destruct (upsert_grade be _) as [e|[m|]]; simpl;
      try (split; [left; reflexivity | discriminate]).
    split; [|discriminate]. right. eexists. split; [reflexivity|]. exact E3.
Qed.

Lemma csv_fold (csvData : list Row) (st : State) :
  let st' := fold_left (processRow parseFloat be) csvData st in
  (successCount st' + failedCount st'
   = successCount st + failedCount st + List.length csvData)%nat /\
  (failedCount st + List.length (filter csvMustFail csvData) <= failedCount st')%nat /\
  (forall r, In r (grades st') ->
     In r (grades st) \/ JS.not_number (Supabase.score r) = false).
Proof.
  revert st. induction csvData as [|row csvData IH]; intros st; simpl.
  - split; [lia|]. split; [lia|]. auto.
  - destruct (IH (processRow parseFloat be st row)) as (H1 & H2 & H3).
    destruct (csv_processRow st row) as [[E|(r & E & Hr)] Hfail].
    + rewrite E in *. simpl in *.
      split; [lia|]. split; [destruct (csvMustFail row); simpl; lia | exact H3].
    + destruct (csvMustFail row) eqn:Em.
      * rewrite (Hfail eq_refl) in *. simpl in *. split; [lia|]. split; [lia | exact H3].
      * rewrite E in *. simpl in *. split; [lia|]. split; [lia|].
        intros x Hx. destruct (H3 x Hx) as [Hin|Hn]; [|now right].
        apply upsert_In in Hin as [Hin| ->]; [now left | now right].
Qed.
Abbreviation csvHandled := (UploadSpec.csvHandled parseFloat be).

Lemma csv_processRow_verdict (row : Row) : exists v, csvHandled row v.
Proof.
  unfold UploadSpec.csvHandled, processRow, tryRow, UploadSpec.csvMustFail,
    UploadSpec.csvMissingField, UploadSpec.csvStudentMissing, UploadSpec.csvCourseMissing,
    bind.
  destruct (nimOf row) as [nim|]; destruct (courseCodeOf row) as [code|]; simpl;
    try (exists None; repeat split; intros; try reflexivity; discriminate).
  destruct (JS.not_string nim) eqn:E1; simpl;
    [exists None; repeat split; intros; try reflexivity; discriminate|].
  destruct (JS.not_string code) eqn:E2; simpl;
    [exists None; repeat split; intros; try reflexivity; discriminate|].
  destruct (JS.not_number (scoreOf parseFloat row)) eqn:E3; simpl;
    [exists None; repeat split; intros; try reflexivity; discriminate|].
  destruct (student_by_nim be nim) as [e|[sid|]]; simpl;
    try (exists None; repeat split; intros; try reflexivity; discriminate).
  destruct (JS.not_string sid);
    [exists None; repeat split; intros; try reflexivity; discriminate|].
  destruct (course_by_code be code) as [e|[cid|]]; simpl;
    try (exists None; repeat split; intros; try reflexivity; discriminate).
  destruct (JS.not_string cid);
    [exists None; repeat split; intros; try reflexivity; discriminate|].
  destruct (upsert_grade be _) as [e|[m|]]; simpl;
    try (exists None; repeat split; intros; try reflexivity; discriminate).
  eexists (Some _). split; [reflexivity|]. split; [discriminate|].
  intros r H. injection H as <-. simpl. auto.
Qed.

(** The loop takes the rows one by one, in their order: the state it
    reaches is the one of the verdicts of the rows, each applied once. *)
Lemma csv_fold_verdicts (csvData : list Row) :
  exists vs,
    Forall2 csvHandled csvData vs /\
    forall st, fold_left (processRow parseFloat be) csvData st
               = csvRun st (storedBy vs) (failuresOf vs).
Proof.
  induction csvData as [|row csvData (vs & Hall & Hrun)].
  - exists []. split; [constructor|]. intros st. destruct st.
    unfold csvRun, upsertAll, storedBy, failuresOf. simpl. now rewrite !Nat.add_0_r.
  - destruct (csv_processRow_verdict row) as [v Hv].
    exists (v :: vs). split; [now constructor|].
    intros st. simpl. rewrite (proj1 Hv st), Hrun.
    unfold csvRun, storedBy, failuresOf, upsertAll. destruct v as [r|]; simpl; f_equal; lia.
Qed.
End Csv.

End UploadFacts.

Import Supabase UploadSpec UploadFacts.




(** The two uploads do not check the score in the same way.  The CSV
    upload has no range check: with a backend that accepts every upsert, a
    row with the score 150 is stored, with the letter 'A'.  The range check
    of the Excel upload is false on [NaN]: such a row reaches the upsert. *)
Lemma score_checks_examples :
  (GradeUpload.gradesAfter
     (GradeUpload.handleUpload UploadExamples.parseFloat_decimal UploadExamples.backend []
        [UploadExamples.csvRow "2024001" "CS101" "150"])
   = [ Build_GradeRecord "student-x" "course-p" (Num 150) "A" ]) /\
  (excelInvalid (UploadExamples.excelRow "2024001" NaN) = false) /\
  (option_map ExcelGradeUpload.grades
     (ExcelGradeUpload.handleUpload UploadExamples.backend []
        [UploadExamples.excelRow "2024001" NaN])
   = Some [ Build_GradeRecord "student-x" "course-p" NaN "E" ]).
Proof.
  repeat split.
Qed.

(** C10.  In the CSV upload a row whose parsed score is 0 is counted as
    failed and nothing is upserted for it, whatever the backend answers;
    hence every grade the upload writes has a score that is neither 0 nor
    [NaN]. *)
Theorem csv_zero_score_fails (parseFloat : string -> JS.number) (be : Backend) :
  (forall st row q,
     GradeUpload.scoreOf parseFloat row = Num q -> (q == 0)%Q ->
     GradeUpload.failedCount (GradeUpload.processRow parseFloat be st row)
       = S (GradeUpload.failedCount st) /\
     GradeUpload.successCount (GradeUpload.processRow parseFloat be st row)
       = GradeUpload.successCount st /\
     GradeUpload.grades (GradeUpload.processRow parseFloat be st row)
       = GradeUpload.grades st) /\
  (forall grades0 csvData r,
     In r (GradeUpload.gradesAfter (GradeUpload.handleUpload parseFloat be grades0 csvData)) ->
     In r grades0 \/ exists q, Supabase.score r = Num q /\ ~ (q == 0)%Q).
Proof.
  split.
  - intros st row q Hq Hz.
    assert (E : GradeUpload.processRow parseFloat be st row = GradeUpload.failed st).
    { apply csv_processRow. unfold UploadSpec.csvMustFail, UploadSpec.csvMissingField.
      rewrite Hq. simpl. apply Qeq_bool_iff in Hz. rewrite Hz.
      now rewrite orb_true_r. }
    rewrite E. simpl. auto.
  - intros grades0 csvData r Hr.
    destruct (csv_fold parseFloat be csvData (GradeUpload.initial grades0))
      as (_ & _ & H3).
    destruct (H3 r Hr) as [Hin|Hn]; [now left|]. right.
    destruct (Supabase.score r) as [|q]; [discriminate|].
    exists q. split; [reflexivity|]. simpl in Hn.
    intros Hq. apply Qeq_bool_iff in Hq. congruence.
Qed.

Lemma csv_zero_score_fails_witness :
  let st := GradeUpload.processRow UploadExamples.parseFloat_decimal UploadExamples.backend
              (GradeUpload.initial []) (UploadExamples.csvRow "2024001" "CS101" "0") in
  GradeUpload.failedCount st = 1%nat /\ GradeUpload.successCount st = 0%nat /\
  GradeUpload.grades st = [].
Proof.
  apply (proj1 (csv_zero_score_fails UploadExamples.parseFloat_decimal
                  UploadExamples.backend)
           (GradeUpload.initial []) (UploadExamples.csvRow "2024001" "CS101" "0") 0%Q).
  - reflexivity.
  - reflexivity.
Defined.

(* ===================================================================== *)
(** * Further properties of the semester report *)
(* ===================================================================== *)

Module ViewFacts.
Import JS SortSpec JSFacts GradingScales SemesterGradeReport ReportSpec RankingFacts
  AggregationFacts.
Local Open Scope Q_scope.

Section SortShapes.
Variable A : Type.
Variable cmp : A -> A -> Q.

(** A list already in order is left as it is. *)
Lemma sort_ordered (l : list A) :
  StronglySorted (before cmp) l -> sort cmp l = l.
Proof.
  induction 1 as [|x l Hs IH Hx]; simpl; auto.
  rewrite IH. destruct l as [|y l]; simpl; auto.
  inversion Hx as [|? ? Hxy _]; subst.
  apply Qle_bool_iff in Hxy. now rewrite Hxy.
Qed.

Lemma insert_last (x : A) (l : list A) :
  Forall (fun y => 0 < cmp x y) l -> insert cmp x l = l ++ [x].
Proof.
  induction 1 as [|y l Hy Hl IH]; simpl; auto.
  destruct (Qle_bool (cmp x y) 0) eqn:E.
  - apply Qle_bool_iff in E. lra.
  - now rewrite IH.
Qed.

(** A list in strictly opposite order is reversed. *)
Lemma sort_opposite (l : list A) :
  StronglySorted (fun a b => 0 < cmp a b) l -> sort cmp l = rev l.
Proof.
  induction 1 as [|x l Hs IH Hx]; simpl; auto.
  rewrite IH. apply insert_last.
  apply Forall_forall. intros y Hy. rewrite Forall_forall in Hx.
  apply Hx. now apply in_rev.
Qed.
End SortShapes.

Lemma assignRanks_increasing (l : list StudentGrade) (i : nat) :
  StronglySorted (fun a b => (rank a < rank b)%nat) (assignRanks i l).
Proof.
  revert i. induction l as [|x l IH]; intros i; simpl; constructor.
  - apply IH.
  - apply Forall_forall. intros y Hy.
    apply assignRanks_In in Hy as (n & y0 & _ & ->). simpl. lia.
Qed.

Lemma rankNumber_lt (a b : StudentGrade) :
  (rank a < rank b)%nat -> rankNumber a < rankNumber b.
Proof.
  intros H. unfold rankNumber. rewrite <- Zlt_Qlt. lia.
Qed.

Lemma StronglySorted_impl (A : Type) (R S : A -> A -> Prop) (l : list A) :
  (forall a b, R a b -> S a b) -> StronglySorted R l -> StronglySorted S l.
Proof.
  intros HRS. induction 1 as [|x l Hs IH Hx]; constructor; auto.
  eapply Forall_impl; [|exact Hx]. auto.
Qed.

Section Consistent.
Variable localeCompare : string -> string -> Q.
Hypothesis lc_opposite : forall a b, localeCompare b a == - localeCompare a b.
Hypothesis lc_trans : forall a b c,
    localeCompare a b <= 0 -> localeCompare b c <= 0 -> localeCompare a c <= 0.

Lemma viewCompare_opposite f d a b :
  viewCompare localeCompare f d b a == - viewCompare localeCompare f d a b.
Proof.
  unfold viewCompare. destruct f, d; try rewrite lc_opposite; ring.
Qed.

Lemma viewCompare_total f d a b :
  before (viewCompare localeCompare f d) a b \/
  before (viewCompare localeCompare f d) b a.
Proof.
  unfold before. pose proof (viewCompare_opposite f d a b) as H.
  destruct (Qlt_le_dec 0 (viewCompare localeCompare f d a b)); [right | left]; lra.
Qed.

Lemma viewCompare_trans f d a b c :
  before (viewCompare localeCompare f d) a b ->
  before (viewCompare localeCompare f d) b c ->
  before (viewCompare localeCompare f d) a c.
Proof.
  unfold before, viewCompare. destruct f, d; intros H1 H2; try lra.
  - now apply lc_trans with (nim b).
  - pose proof (lc_opposite (nim a) (nim b)). pose proof (lc_opposite (nim b) (nim c)).
    pose proof (lc_opposite (nim a) (nim c)).
    assert (localeCompare (nim c) (nim a) <= 0)
      by (apply lc_trans with (nim b); lra).
    lra.
  - now apply lc_trans with (name b).
  - pose proof (lc_opposite (name a) (name b)). pose proof (lc_opposite (name b) (name c)).
    pose proof (lc_opposite (name a) (name c)).
    assert (localeCompare (name c) (name a) <= 0)
      by (apply lc_trans with (name b); lra).
    lra.
Qed.
End Consistent.

End ViewFacts.
Import ViewFacts.

(** X1.  With the initial setting (sort by rank, ascending)
    [getSortedStudents] shows the report in the order in which it was
    ranked; sorting by rank, descending, shows it reversed. *)
Theorem sorted_view_by_rank (localeCompare : string -> string -> Q)
        scales cur cs ss gs :
  getSortedStudents localeCompare by_rank asc (report scales cur cs ss gs)
  = report scales cur cs ss gs /\
  getSortedStudents localeCompare by_rank desc (report scales cur cs ss gs)
  = rev (report scales cur cs ss gs).
Proof.
  unfold getSortedStudents, report. split.
  - apply sort_ordered.
    eapply StronglySorted_impl; [|apply assignRanks_increasing].
    intros a b H. apply rankNumber_lt in H. unfold before, viewCompare. lra.
  - apply sort_opposite.
    eapply StronglySorted_impl; [|apply assignRanks_increasing].
    intros a b H. apply rankNumber_lt in H. unfold viewCompare. lra.
Qed.

(** X2.  For a [localeCompare] that is a consistent comparator,
    [getSortedStudents] returns the same entries (none lost, none added,
    ranks untouched), ordered by the chosen field in the chosen
    direction. *)
Theorem sorted_view_sorted (localeCompare : string -> string -> Q)
        (f : SortField) (d : SortDirection) (studentGrades : list StudentGrade) :
  (forall a b, localeCompare b a == - localeCompare a b)%Q ->
  (forall a b c, localeCompare a b <= 0 -> localeCompare b c <= 0 ->
                 localeCompare a c <= 0)%Q ->
  Permutation (getSortedStudents localeCompare f d studentGrades) studentGrades /\
  StronglySorted (fun a b => viewCompare localeCompare f d a b <= 0)%Q
                 (getSortedStudents localeCompare f d studentGrades).
Proof.
  intros Hopp Htrans. split.
  - apply sort_perm.
  - apply (@sort_sorted _ (viewCompare localeCompare f d)).
    + intros a b. now apply viewCompare_total.
    + intros a b c. now apply viewCompare_trans.
Qed.

Lemma sorted_view_sorted_witness :
  let byLength := fun a b : string =>
    (inject_Z (Z.of_nat (String.length a)) - inject_Z (Z.of_nat (String.length b)))%Q in
  Permutation (getSortedStudents byLength by_name desc Examples.reportWX)
              Examples.reportWX /\
  StronglySorted (fun a b => viewCompare byLength by_name desc a b <= 0)%Q
                 (getSortedStudents byLength by_name desc Examples.reportWX).
Proof.
  intros byLength.
  apply (sorted_view_sorted byLength by_name desc Examples.reportWX).
  - intros a b. unfold byLength. ring.
  - intros a b c. unfold byLength. intros H1 H2. lra.
Defined.

Module BoundsFacts.
Import JS SortSpec JSFacts GradingScales SemesterGradeReport ReportSpec RankingFacts
  AggregationFacts DoubleSpec DoubleFacts.
Local Open Scope Q_scope.

Lemma obj_set_values_In (A : Type) (o : object A) (k : string) (x v : A) :
  In v (obj_values (obj_set o k x)) -> In v (obj_values o) \/ v = x.
Proof.
  unfold obj_values. induction o as [|[k0 v0] o IH]; simpl.
  - intros [<-|[]]. now right.
  - destruct (String.eqb k0 k); simpl.
    + intros [<-|H]; auto.
    + intros [<-|H]; auto. destruct (IH H); auto.
Qed.

Lemma fold_obj_set_values (es : list (string * CourseGrade)) (o : object CourseGrade)
      (v : CourseGrade) :
  In v (obj_values (fold_left (fun o e => obj_set o (fst e) (snd e)) es o)) ->
  In v (obj_values o) \/ In v (map snd es).
Proof.
  revert o. induction es as [|e es IH]; intros o; simpl; auto.
  intros H. destruct (IH _ H) as [H'|H']; auto.
  apply obj_set_values_In in H' as [H'| ->]; auto.
Qed.

Lemma gradeEntries_values scales cur cs k gs (v : CourseGrade) :
  In v (map snd (gradeEntries scales cur cs k gs)) ->
  exists g course, In g gs /\ In course cs /\ v = courseGradeOf scales cur g course.
Proof.
  unfold gradeEntries. induction gs as [|g gs IH]; simpl; [tauto|].
  rewrite map_app, in_app_iff. intros [H|H].
  2:{ destruct (IH H) as (g' & course & Hg & Hc & E). exists g', course. auto. }
  unfold entriesOf in H. destruct (String.eqb (g_student_id g) k); [|destruct H].
  destruct (find _ cs) as [course|] eqn:E; [|destruct H].
  destruct H as [<-|[]]. apply find_some in E as [E _].
  exists g, course. split; [now left|]. split; [exact E | reflexivity].
Qed.

Lemma getGradePoint_bounds (scales : table) (s : Q) (cur : string) :
  (forall r, In r scales -> 0 <= grade_point r <= 4) ->
  0 <= getGradePoint scales s cur <= 4.
Proof.
  intros H. unfold getGradePoint, maybeSingle.
  destruct (filter (covers s cur) scales) as [|r [|r' rest]] eqn:E; try lra.
  assert (Hr : In r scales).
  { apply (proj1 (filter_In (covers s cur) r scales)). rewrite E. now left. }
  specialize (H r Hr). unfold or_zero.
  destruct (Qeq_bool (grade_point r) 0); lra.
Qed.

(** A sum of non-negative doubles that has become infinite stays so. *)
Lemma fold_add_Inf (l : list Q) :
  Forall (fun c => 0 <= c) l ->
  fold_left Double.add (map Double.ofQ l) (Double.Inf false) = Double.Inf false.
Proof.
  induction 1 as [|c l Hc Hl IH]; cbn [fold_left map]; [reflexivity|].
  rewrite (ofQ_nonneg Hc).
  destruct (round_cases false c) as [->|[-> _]]; exact IH.
Qed.

(** A finite sum of non-negative doubles is at least the sum it started
    from. *)
Lemma fold_add_grows (l : list Q) :
  Forall (fun c => 0 <= c) l ->
  forall C C', representable C ->
    fold_left Double.add (map Double.ofQ l) (Double.Fin false C) = Double.Fin false C' ->
    C <= C'.
Proof.
  induction 1 as [|c l Hc Hl IH]; intros C C' RC; cbn [fold_left map].
  - intros H. injection H as <-. apply Qle_refl.
  - rewrite (ofQ_nonneg Hc). pose proof (representable_nonneg RC) as C0.
    destruct (round_cases false c) as [->|[-> _]].
    + cbn [Double.add]. rewrite (fold_add_Inf Hl). discriminate.
    + pose proof (rnd_nonneg Hc) as R0. rewrite (add_nonneg C0 R0).
      destruct (round_cases false (C + Double.rnd c)) as [->|[-> _]].
      * rewrite (fold_add_Inf Hl). discriminate.
      * intros H. apply IH in H; [|apply rnd_representable; lra].
        eapply Qle_trans; [|exact H].
        rewrite <- (rnd_exact RC) at 1. apply rnd_mono; lra.
Qed.

Lemma lt_pow2_1024 (q : Q) : q < Double.pow2 1022 -> 4 * q < Double.pow2 1024.
Proof.
  intros H. replace 1024%Z with (2 + 1022)%Z by reflexivity.
  rewrite pow2_add. change (Double.pow2 2) with 4. lra.
Qed.

(** The weighted grade points stay below four times the credits, in
    doubles: the rounding of a sum of products is monotone, and scaling by
    4 commutes with the rounding of the credit sum. *)
Lemma weighted_sum_bounds (l : list CourseGrade) :
  Forall (fun cg => 0 <= cg_grade_point cg <= 4 /\ 0 <= credits cg) l ->
  forall W C C',
    0 <= W -> W <= 4 * C -> representable C ->
    fold_left Double.add (map (fun cg => Double.ofQ (credits cg)) l) (Double.Fin false C)
      = Double.Fin false C' ->
    C' < Double.pow2 1022 ->
    exists W',
      fold_left Double.add (map weighted l) (Double.Fin false W) = Double.Fin false W' /\
      0 <= W' /\ W' <= 4 * C'.
Proof.
  induction 1 as [|cg l [[G0 G4] Hc] Hl IH]; intros W C C' W0 WC RC; cbn [fold_left map].
  - intros H Hlt. injection H as <-. exists W. auto.
  - assert (Hcs : Forall (fun c => 0 <= c) (map credits l)).
    { apply Forall_forall. intros c Hin. apply in_map_iff in Hin as (x & <- & Hx).
      rewrite Forall_forall in Hl. now apply Hl. }
    assert (Emap : forall a,
               fold_left Double.add (map (fun cg => Double.ofQ (credits cg)) l) a
               = fold_left Double.add (map Double.ofQ (map credits l)) a).
    { intros a. now rewrite map_map. }
    pose proof (representable_nonneg RC) as C0.
    rewrite !Emap. rewrite (ofQ_nonneg Hc).
    destruct (round_cases false (credits cg)) as [->|[-> Hfin]].
    { cbn [Double.add]. rewrite (fold_add_Inf Hcs). discriminate. }
    pose proof (rnd_nonneg Hc) as R0.
    pose proof (rnd_representable Hc) as RR.
    rewrite (add_nonneg C0 R0).
    destruct (round_cases false (C + Double.rnd (credits cg))) as [->|[-> Hfin1]].
    { rewrite (fold_add_Inf Hcs). discriminate. }
    set (rc := Double.rnd (credits cg)) in *.
    set (C1 := Double.rnd (C + rc)) in *.
    assert (RC1 : representable C1) by (apply rnd_representable; lra).
    intros Hfold Hlt.
    pose proof (fold_add_grows Hcs RC1 Hfold) as HC1.
    assert (Hrc : rc <= C1).
    { unfold C1. rewrite <- (rnd_exact RR) at 1. fold rc. apply rnd_mono; lra. }
    assert (H4C1 : 4 * C1 < Double.pow2 1024) by (apply lt_pow2_1024; lra).
    (* the grade point *)
    change (weighted cg)
      with (Double.mul (Double.ofQ (cg_grade_point cg)) (Double.ofQ (credits cg))).
    rewrite (ofQ_nonneg G0), (ofQ_nonneg Hc).
    assert (R4 : Double.rnd 4 == 4).
    { apply rnd_exact. exists 1%Z, 2%Z. split; [lia|]. split; [lia | reflexivity]. }
    destruct (@round_le (cg_grade_point cg) 4 G0 G4) as (rg & -> & Rg0 & Rg4).
    { rewrite R4. reflexivity. }
    rewrite R4 in Rg4.
    rewrite (round_below false (credits cg) Hfin). fold rc. cbn [Double.mul xorb].
    (* the product *)
    assert (S4rc : Double.rnd (4 * rc) == 4 * rc).
    { rewrite rnd_scale4; [|exact R0 | now apply representable_ongrid].
      now rewrite (rnd_exact RR). }
    destruct (@round_le (rg * rc) (4 * rc)) as (P & -> & P0 & P4).
    { now apply Qmult_le_0_compat. }
    { apply Qmult_le_compat_r; assumption. }
    { rewrite S4rc. lra. }
    rewrite S4rc in P4.
    (* the sum *)
    rewrite (add_nonneg W0 P0).
    assert (S4 : Double.rnd (4 * (C + rc)) == 4 * C1).
    { unfold C1. apply rnd_scale4; [lra|].
      apply ongrid_plus; now apply representable_ongrid. }
    destruct (@round_le (W + P) (4 * (C + rc))) as (W1 & -> & W10 & W14).
    { lra. }
    { lra. }
    { rewrite S4. exact H4C1. }
    rewrite S4 in W14.
    rewrite <- Emap in Hfold.
    exact (IH W1 C1 C' W10 W14 RC1 Hfold Hlt).
Qed.

Lemma ofQ_4 : Double.ofQ 4 = Double.Fin false 4.
Proof. vm_compute. reflexivity. Qed.

Lemma ofQ_pow2_1022 : Double.ofQ (Double.pow2 1022) = Double.Fin false (Double.pow2 1022).
Proof. vm_compute. reflexivity. Qed.

Lemma leb_Fin (a b : Q) :
  a <= b -> Double.leb (Double.Fin false a) (Double.Fin false b) = true.
Proof.
  intros H. apply leb_spec; try reflexivity. right. split; [reflexivity | exact H].
Qed.

(** A sum of non-negative doubles is infinite or a non-negative finite
    double. *)
Lemma fold_add_sign (l : list Q) :
  Forall (fun c => 0 <= c) l ->
  forall C, 0 <= C ->
    fold_left Double.add (map Double.ofQ l) (Double.Fin false C) = Double.Inf false \/
    exists C', fold_left Double.add (map Double.ofQ l) (Double.Fin false C)
               = Double.Fin false C' /\ 0 <= C'.
Proof.
  induction 1 as [|c l Hc Hl IH]; intros C C0; cbn [fold_left map].
  - right. exists C. auto.
  - rewrite (ofQ_nonneg Hc).
    destruct (round_cases false c) as [->|[-> _]].
    + left. cbn [Double.add]. apply (fold_add_Inf Hl).
    + pose proof (rnd_nonneg Hc) as R0. rewrite (add_nonneg C0 R0).
      destruct (round_cases false (C + Double.rnd c)) as [->|[-> _]].
      * left. apply (fold_add_Inf Hl).
      * apply IH. apply rnd_nonneg. lra.
Qed.

Lemma withTotals_gpa_bounds (s : StudentGrade) :
  Forall (fun cg => 0 <= cg_grade_point cg <= 4 /\ 0 <= credits cg)
         (obj_values (courses s)) ->
  Double.ltb (totalCredits (withTotals s)) (Double.ofQ (Double.pow2 1022)) = true ->
  Double.leb Double.zero (gpa (withTotals s)) = true /\
  Double.leb (gpa (withTotals s)) (Double.ofQ 4) = true.
Proof.
  intros H Hlt. rewrite ofQ_4, withTotals_gpa.
  destruct (Double.gtb (totalCredits (withTotals s)) Double.zero) eqn:E;
    [|split; apply leb_Fin; lra].
  destruct (withTotals_totals s) as (_ & Hw & Hc). rewrite Hw, Hc in *.
  unfold dsum, Double.zero in *. rewrite ofQ_pow2_1022 in Hlt.
  assert (Hcs : Forall (fun c => 0 <= c) (map credits (obj_values (courses s)))).
  { apply Forall_forall. intros c Hin. apply in_map_iff in Hin as (x & <- & Hx).
    rewrite Forall_forall in H. now apply H. }
  destruct (fold_left Double.add
              (map (fun cg => Double.ofQ (credits cg)) (obj_values (courses s)))
              (Double.Fin false 0)) as [|t|t C'] eqn:EC.
  - discriminate.
  - destruct t; discriminate.
  - assert (Ht : t = false /\ 0 <= C').
    { rewrite <- (map_map credits Double.ofQ) in EC.
      destruct (fold_add_sign Hcs (Qle_refl 0)) as [HI|(C2 & HF & HC2)].
      - rewrite HI in EC. discriminate.
      - rewrite HF in EC. injection EC as <- <-. split; [reflexivity | exact HC2]. }
    destruct Ht as [-> C0].
    assert (Hpos : 0 < C').
    { unfold Double.gtb in E. cbn [Double.ltb Double.toQ] in E.
      apply negb_true_iff, Qle_bool_false in E. exact E. }
    assert (Hsmall : C' < Double.pow2 1022).
    { cbn [Double.ltb Double.toQ] in Hlt.
      apply negb_true_iff, Qle_bool_false in Hlt. exact Hlt. }
    destruct (@weighted_sum_bounds _ H 0 0 C') as (W' & -> & W0 & W4);
      [lra | lra | now apply representable_0 | exact EC | exact Hsmall |].
    rewrite (div_nonneg W' Hpos).
    assert (R4 : Double.rnd 4 == 4).
    { apply rnd_exact. exists 1%Z, 2%Z. split; [lia|]. split; [lia | reflexivity]. }
    destruct (@round_le (W' / C') 4) as (r & -> & r0 & r4).
    { apply Qle_shift_div_l; [exact Hpos | lra]. }
    { apply Qle_shift_div_r; [exact Hpos | lra]. }
    { rewrite R4. reflexivity. }
    rewrite R4 in r4. split; apply leb_Fin; assumption.
Qed.

(** With non-negative scores and credits and grade points between 0 and
    4, the three sort keys of a summarised entry are numbers, as long as
    the credit total stays below 2^1022. *)
Lemma withTotals_numericKeys (s : StudentGrade) :
  Forall (fun cg => 0 <= cg_grade_point cg <= 4 /\ 0 <= credits cg)
         (obj_values (courses s)) ->
  Forall (fun cg => 0 <= score cg) (obj_values (courses s)) ->
  Double.ltb (totalCredits (withTotals s)) (Double.ofQ (Double.pow2 1022)) = true ->
  numericKeys (withTotals s).
Proof.
  intros H Hs Hlt. split; [|split].
  - destruct (withTotals_gpa_bounds s H Hlt) as [H0 _].
    now apply leb_notNaN in H0.
  - destruct (withTotals_totals s) as (_ & Hw & Hc). rewrite Hw. rewrite Hc in Hlt.
    unfold dsum, Double.zero in *. rewrite ofQ_pow2_1022 in Hlt.
    assert (Hcs : Forall (fun c => 0 <= c) (map credits (obj_values (courses s)))).
    { apply Forall_forall. intros c Hin. apply in_map_iff in Hin as (x & <- & Hx).
      rewrite Forall_forall in H. now apply H. }
    rewrite <- (map_map credits Double.ofQ) in Hlt.
    destruct (fold_add_sign Hcs (Qle_refl 0)) as [HI|(C' & HF & HC')].
    + rewrite HI in Hlt. discriminate.
    + rewrite HF in Hlt. cbn [Double.ltb Double.toQ] in Hlt.
      apply negb_true_iff, Qle_bool_false in Hlt.
      rewrite (map_map credits Double.ofQ) in HF.
      destruct (@weighted_sum_bounds _ H 0 0 C') as (W' & -> & _);
        [lra | lra | now apply representable_0 | exact HF | exact Hlt |].
      reflexivity.
  - destruct (withTotals_totals s) as (Hsc & _). rewrite Hsc. unfold dsum, Double.zero.
    rewrite <- (map_map score Double.ofQ).
    assert (Hss : Forall (fun c => 0 <= c) (map score (obj_values (courses s)))).
    { apply Forall_forall. intros c Hin. apply in_map_iff in Hin as (x & <- & Hx).
      rewrite Forall_forall in Hs. now apply Hs. }
    destruct (fold_add_sign Hss (Qle_refl 0)) as [->|(S' & -> & _)]; reflexivity.
Qed.

End BoundsFacts.
Import BoundsFacts.

(** X3.  When every row of the grading scale has a grade point between 0
    and 4 and no course has negative credits (the bounds the tables
    enforce), every [gpa] of the report lies between 0 and 4, as long as
    the credit total of the entry stays below 2^1022, so that four times
    the total is a finite double. *)
Theorem report_gpa_bounds scales cur cs ss gs (a : StudentGrade) :
  (forall r, In r scales -> 0 <= grade_point r <= 4)%Q ->
  (forall c, In c cs -> 0 <= c_credits c)%Q ->
  In a (report scales cur cs ss gs) ->
  Double.ltb (totalCredits a) (Double.ofQ (Double.pow2 1022)) = true ->
  Double.leb Double.zero (gpa a) = true /\
  Double.leb (gpa a) (Double.ofQ 4) = true.
Proof.
  intros Hscale Hcredits H.
  apply report_In in H as (a0 & n & Hin & -> & _).
  apply studentsList_values in Hin as (s & _ & ->).
  cbn [set_rank gpa totalCredits].
  apply withTotals_gpa_bounds. apply Forall_forall. intros v Hv.
  unfold entryOf, build in Hv. cbn [set_courses courses] in Hv.
  apply fold_obj_set_values in Hv as [[]|Hv].
  apply gradeEntries_values in Hv as (g & course & _ & Hc & ->).
  cbn [courseGradeOf cg_grade_point credits].
  split; [now apply getGradePoint_bounds | now apply Hcredits].
Qed.

Lemma report_gpa_bounds_witness :
  Double.leb Double.zero
    (gpa (nth 0 Examples.reportX (newStudentGrade Examples.studentX))) = true /\
  Double.leb (gpa (nth 0 Examples.reportX (newStudentGrade Examples.studentX)))
    (Double.ofQ 4) = true.
Proof.
  apply (report_gpa_bounds Examples.scale "2024"%string
           [Examples.courseP; Examples.courseQ] [Examples.studentX] Examples.gradesX).
  - intros r [<-|[<-|[<-|[]]]]; simpl; split; discriminate.
  - intros c [<-|[<-|[]]]; simpl; discriminate.
  - vm_compute. left. reflexivity.
  - vm_compute. reflexivity.
Defined.

(** The bound on the credit total is needed: with a course of 2^1024
    credits the credit total and the weighted grade points are both
    [Infinity], and the [gpa], their quotient, is [NaN]. *)
Lemma credit_overflow_example :
  exists a,
    Examples.reportOverflow = [a] /\
    totalCredits a = Double.Inf false /\
    totalGradePoint a = Double.Inf false /\
    gpa a = Double.NaN.
Proof.
  eexists. split; [vm_compute; reflexivity|]. vm_compute. repeat split.
Qed.

(** X21.  The sort keys are numbers.  When every row of the grading scale
    has a grade point between 0 and 4, no course has negative credits and
    no grade a negative score (the bounds the tables enforce), the [gpa],
    the weighted grade points and the [totalScore] of an entry of the
    report are numbers, none is [NaN], as long as the credit total of the
    entry stays below 2^1022. *)
Theorem report_keys_numeric scales cur cs ss gs (a : StudentGrade) :
  (forall r, In r scales -> 0 <= grade_point r <= 4)%Q ->
  (forall c, In c cs -> 0 <= c_credits c)%Q ->
  (forall g, In g gs -> 0 <= g_score g)%Q ->
  In a (report scales cur cs ss gs) ->
  Double.ltb (totalCredits a) (Double.ofQ (Double.pow2 1022)) = true ->
  numericKeys a.
Proof.
  intros Hscale Hcredits Hscores H.
  apply report_In in H as (a0 & n & Hin & -> & _).
  apply studentsList_values in Hin as (s & _ & ->).
  intros Hlt.
  assert (Hv : forall v, In v (obj_values (courses (entryOf scales cur cs gs s))) ->
               exists g course, In g gs /\ In course cs /\
                                v = courseGradeOf scales cur g course).
  { intros v Hv. unfold entryOf, build in Hv. cbn [set_courses courses] in Hv.
    apply fold_obj_set_values in Hv as [[]|Hv].
    now apply gradeEntries_values in Hv. }
  apply withTotals_numericKeys.
  - apply Forall_forall. intros v Hin. destruct (Hv v Hin) as (g & course & _ & Hc & ->).
    cbn [courseGradeOf cg_grade_point credits].
    split; [now apply getGradePoint_bounds | now apply Hcredits].
  - apply Forall_forall. intros v Hin. destruct (Hv v Hin) as (g & course & Hg & _ & ->).
    cbn [courseGradeOf score]. now apply Hscores.
  - exact Hlt.
Qed.

Lemma report_keys_numeric_witness :
  numericKeys (nth 0 Examples.reportX (newStudentGrade Examples.studentX)).
Proof.
  apply (report_keys_numeric Examples.scale "2024"%string
           [Examples.courseP; Examples.courseQ] [Examples.studentX] Examples.gradesX).
  - intros r [<-|[<-|[<-|[]]]]; simpl; split; discriminate.
  - intros c [<-|[<-|[]]]; simpl; discriminate.
  - intros g Hg. vm_compute in Hg. destruct Hg as [<-|[<-|[]]]; simpl; discriminate.
  - vm_compute. left. reflexivity.
  - vm_compute. reflexivity.
Defined.

(** ** The exported sheet *)

Module ExportFacts.
Import JS GradingScales SemesterGradeReport AggregationFacts ExportSpec.
Local Open Scope Q_scope.

Lemma Qgtb_true (a b : Q) : Qgtb a b = true <-> b < a.
Proof.
  unfold Qgtb. rewrite negb_true_iff. split; intros H.
  - apply Qnot_le_lt. intros Hle. apply Qle_bool_iff in Hle. congruence.
  - destruct (Qle_bool a b) eqn:E; auto. apply Qle_bool_iff in E. lra.
Qed.

Section Blocks.
Variables (A B : Type) (f : A -> list B).
Hypothesis block : forall x, List.length (f x) = 4%nat.

Lemma flat_map_block_length (l : list A) :
  List.length (flat_map f l) = (4 * List.length l)%nat.
Proof.
  induction l as [|x l IH]; simpl; auto.
  rewrite length_app, block, IH. lia.
Qed.

Lemma flat_map_block_nth (l : list A) (j i : nat) (x : A) (c : B) :
  nth_error l j = Some x -> nth_error (f x) i = Some c ->
  nth_error (flat_map f l) (4 * j + i) = Some c.
Proof.
  revert j. induction l as [|a l IH]; intros j Hj Hi.
  - destruct j; discriminate.
  - change (flat_map f (a :: l)) with (f a ++ flat_map f l).
    destruct j as [|j]; simpl in Hj.
    + injection Hj as ->. replace (4 * 0 + i)%nat with i by lia.
      rewrite nth_error_app1; [exact Hi|].
      apply nth_error_Some. congruence.
    + rewrite nth_error_app2 by (rewrite block; lia).
      rewrite block. replace (4 * S j + i - 4)%nat with (4 * j + i)%nat by lia.
      now apply IH.
Qed.
End Blocks.

Section Sheet.
Variable toFixed2 : Double.double -> string.
Variable cs : list Course.

Lemma courseCells_length (student : StudentGrade) (course : Course) :
  List.length (courseCells toFixed2 student course) = 4%nat.
Proof.
  unfold courseCells. now destruct (obj_get (courses student) (c_id course)).
Qed.

Lemma dataRow_length (index : nat) (student : StudentGrade) :
  List.length (dataRow toFixed2 cs index student) = (8 + 4 * List.length cs)%nat.
Proof.
  unfold dataRow. rewrite !length_app.
  rewrite (flat_map_block_length _ (courseCells_length student)). simpl. lia.
Qed.

Lemma dataRows_length (index : nat) (students : list StudentGrade) :
  List.length (dataRows toFixed2 cs index students) = List.length students.
Proof.
  revert index. induction students as [|s l IH]; intros index; simpl; auto.
Qed.

Lemma dataRows_nth (index n : nat) (students : list StudentGrade) :
  nth_error (dataRows toFixed2 cs index students) n =
  option_map (dataRow toFixed2 cs (index + n)) (nth_error students n).
Proof.
  revert index n. induction students as [|s l IH]; intros index n; simpl.
  - now destruct n.
  - destruct n as [|n]; simpl.
    + now rewrite Nat.add_0_r.
    + rewrite IH. now replace (S index + n)%nat with (index + S n)%nat by lia.
Qed.

Lemma dataRow_cells (index j : nat) (student : StudentGrade) (course : Course)
      (grade : CourseGrade) :
  nth_error cs j = Some course ->
  obj_get (courses student) (c_id course) = Some grade ->
  nth_error (dataRow toFixed2 cs index student) (3 + 4 * j) = Some (CNum (score grade)) /\
  nth_error (dataRow toFixed2 cs index student) (3 + 4 * j + 1)
  = Some (CStr (cg_letter_grade grade)).
Proof.
  intros Hj Hg. unfold dataRow.
  assert (Hlen : (4 * j + 1 < List.length (flat_map (courseCells toFixed2 student) cs))%nat).
  { rewrite (flat_map_block_length _ (courseCells_length student)).
    assert (j < List.length cs)%nat by (apply nth_error_Some; congruence). lia. }
  split.
  - change (3 + 4 * j)%nat with (S (S (S (4 * j)))). simpl.
    rewrite nth_error_app1 by lia.
    replace (j + (j + (j + (j + 0))))%nat with (4 * j + 0)%nat by lia.
    apply (flat_map_block_nth _ (courseCells_length student) _ _ _ Hj).
    unfold courseCells. now rewrite Hg.
  - replace (3 + 4 * j + 1)%nat with (S (S (S (4 * j + 1)))) by lia. simpl.
    rewrite nth_error_app1 by lia.
    apply (flat_map_block_nth _ (courseCells_length student) _ _ _ Hj).
    unfold courseCells. now rewrite Hg.
Qed.

Lemma styleCourses_none (row col : nat) (l : list Course) :
  styleCourses row col None l = [].
Proof.
  revert col. induction l as [|c l IH]; intros col; simpl; auto.
Qed.

Lemma styleCourses_spec (row : nat) (student : StudentGrade) (l : list Course)
      (col : nat) (s : Styled) :
  In s (styleCourses row col (Some student) l) ->
  exists j course grade,
    nth_error l j = Some course /\
    obj_get (courses student) (c_id course) = Some grade /\
    score grade < 75 /\
    at_row s = row /\ style s = highlightStyle (score grade) /\
    (at_col s = (col + 4 * j)%nat \/ at_col s = (col + 4 * j + 1)%nat).
Proof.
  revert col. induction l as [|course l IH]; intros col; simpl; [tauto|].
  rewrite in_app_iff. intros [H|H].
  - destruct (obj_get (courses student) (c_id course)) as [grade|] eqn:Eg;
      [|destruct H].
    destruct (Qgtb 75 (score grade)) eqn:E; [|destruct H].
    apply Qgtb_true in E.
    exists 0%nat, course, grade. simpl.
    destruct H as [<-|[<-|[]]]; simpl;
      (split; [reflexivity|]; split; [exact Eg|]; split; [exact E|];
       split; [reflexivity|]; split; [reflexivity|]); [left | right]; lia.
  - destruct (IH _ H) as (j & c & g & Hj & Hg & Hlt & Hr & Hs & Hc).
    exists (S j), c, g. simpl.
    split; [exact Hj|]. split; [exact Hg|]. split; [exact Hlt|].
    split; [exact Hr|]. split; [exact Hs|]. destruct Hc; [left | right]; lia.
Qed.
End Sheet.

End ExportFacts.
Import GradingScales SemesterGradeReport ExportSpec ExportFacts.

(** X4.  The sheet built by [exportToExcel] is rectangular: two header
    rows and one row per student, each of 8 + 4 n cells for n courses. *)
Theorem export_rectangular (toFixed2 : Double.double -> string) (cs : list Course)
        (students : list StudentGrade) :
  List.length (worksheetData toFixed2 cs students) = (2 + List.length students)%nat /\
  Forall (fun row => List.length row = (8 + 4 * List.length cs)%nat)
         (worksheetData toFixed2 cs students).
Proof.
  unfold worksheetData. split.
  - simpl. now rewrite dataRows_length.
  - constructor; [|constructor].
    + unfold headerRow1. rewrite !length_app.
      rewrite flat_map_block_length by reflexivity. simpl. lia.
    + unfold headerRow2. rewrite !length_app.
      rewrite flat_map_block_length by reflexivity. simpl. lia.
    + apply Forall_forall. intros row Hrow.
      apply In_nth_error in Hrow as [n Hn]. rewrite dataRows_nth in Hn.
      destruct (nth_error students n); [|discriminate].
      injection Hn as <-. apply dataRow_length.
Qed.

(** X5.  Every highlight of [exportToExcel] lands on the cells of a grade
    below 75: the styled address holds that grade's score or, one column to
    the right, its letter grade, in the row of the student the grade
    belongs to; the colour is the red one exactly for scores below 70. *)
Theorem export_highlights_aligned (toFixed2 : Double.double -> string) (cs : list Course)
        (students : list StudentGrade) (s : Styled) :
  In s (styledCells toFixed2 cs students) ->
  exists student course grade,
    nth_error students (at_row s - 2) = Some student /\
    In course cs /\
    obj_get (courses student) (c_id course) = Some grade /\
    (score grade < 75)%Q /\
    (fillColor (style s) = "FFCCCC"%string <-> (score grade < 70)%Q) /\
    (cellAt (worksheetData toFixed2 cs students) (at_row s) (at_col s)
       = Some (CNum (score grade)) \/
     cellAt (worksheetData toFixed2 cs students) (at_row s) (at_col s)
       = Some (CStr (cg_letter_grade grade))).
Proof.
  unfold styledCells. intros H. apply in_flat_map in H as (row & Hrow & Hs).
  apply in_seq in Hrow.
  destruct (nth_error students (row - 2)) as [student|] eqn:En;
    [|rewrite styleCourses_none in Hs; destruct Hs].
  apply styleCourses_spec in Hs
    as (j & course & grade & Hj & Hg & Hlt & Hr & Hst & Hc).
  exists student, course, grade. rewrite Hr.
  split; [exact En|]. split; [eapply nth_error_In; eauto|].
  split; [exact Hg|]. split; [exact Hlt|]. split.
  - rewrite Hst. unfold highlightStyle.
    destruct (Qgtb 70 (score grade)) eqn:E; simpl.
    + apply Qgtb_true in E. tauto.
    + split; [discriminate|]. intros Hlt70. apply Qgtb_true in Hlt70. congruence.
  - destruct (@dataRow_cells toFixed2 cs (row - 2) j student course grade Hj Hg)
      as [H1 H2].
    assert (Hcell : forall c, cellAt (worksheetData toFixed2 cs students) row c
                              = nth_error (dataRow toFixed2 cs (row - 2) student) c).
    { intros c. unfold cellAt, worksheetData.
      destruct row as [|[|row]]; try lia. simpl.
      rewrite dataRows_nth. simpl in En. rewrite Nat.sub_0_r in En. rewrite En.
      simpl. now rewrite Nat.sub_0_r. }
    rewrite Hcell. destruct Hc as [-> | ->]; [left; exact H1 | right; exact H2].
Qed.

Lemma export_highlights_aligned_witness :
  let toFixed2 := fun _ : Double.double => "0.00"%string in
  let cs := [Examples.courseP; Examples.courseQ] in
  let s := {| at_row := 2; at_col := 7;
              style := {| fillColor := "FFFFCC"; fontColor := "CC8800" |} |} in
  exists student course grade,
    nth_error Examples.reportX (at_row s - 2) = Some student /\
    In course cs /\
    obj_get (courses student) (c_id course) = Some grade /\
    (score grade < 75)%Q /\
    (fillColor (style s) = "FFCCCC"%string <-> (score grade < 70)%Q) /\
    (cellAt (worksheetData toFixed2 cs Examples.reportX) (at_row s) (at_col s)
       = Some (CNum (score grade)) \/
     cellAt (worksheetData toFixed2 cs Examples.reportX) (at_row s) (at_col s)
       = Some (CStr (cg_letter_grade grade))).
Proof.
  intros toFixed2 cs s.
  apply (export_highlights_aligned toFixed2 cs Examples.reportX s).
  vm_compute. left. reflexivity.
Defined.

(* ===================================================================== *)
(** * Further properties of grade resolution *)
(* ===================================================================== *)

(** X6.  When exactly one row of the curriculum covers the score, the SQL
    functions and the report's [getGradePoint] agree: the letter grade and
    the grade point are those of that row. *)
Theorem single_cover_agreement (t : table) (p_score : Q) (p_curriculum : string)
        (r : GradingScale) :
  filter (covers p_score p_curriculum) t = [r] ->
  get_letter_grade t p_score p_curriculum = letter_grade r /\
  get_grade_point t p_score p_curriculum = grade_point r /\
  (getGradePoint t p_score p_curriculum == grade_point r)%Q /\
  (getGradePoint t p_score p_curriculum == get_grade_point t p_score p_curriculum)%Q.
Proof.
  intros H.
  unfold get_letter_grade, get_grade_point, getGradePoint, select_limit_1.
  rewrite find_filter, H. simpl. unfold JS.or_zero.
  destruct (Qeq_bool (grade_point r) 0) eqn:E.
  - apply Qeq_bool_iff in E. repeat (split; [reflexivity || (symmetry; exact E)|]).
    symmetry; exact E.
  - repeat (split; [reflexivity|]). reflexivity.
Qed.

Lemma single_cover_agreement_witness :
  get_letter_grade Examples.scale 90 "2024" = "A"%string /\
  get_grade_point Examples.scale 90 "2024" = 4%Q /\
  (getGradePoint Examples.scale 90 "2024" == 4)%Q /\
  (getGradePoint Examples.scale 90 "2024" == get_grade_point Examples.scale 90 "2024")%Q.
Proof.
  apply (@single_cover_agreement Examples.scale 90 "2024"%string
           (Build_GradingScale "2024" "A" 85 100 4 EmptyString)).
  reflexivity.
Defined.

Lemma Qle_bool_hundredths (a b : Z) :
  Qle_bool (a # 100) (b # 100) = (a <=? b)%Z.
Proof.
  unfold Qle_bool. simpl.
  destruct (Z.leb_spec a b); destruct (Z.leb_spec (a * 100) (b * 100)); lia.
Qed.

Lemma Qle_bool_int_hundredths (a b : Z) :
  Qle_bool (inject_Z a) (b # 100) = (a * 100 <=? b)%Z.
Proof.
  unfold Qle_bool. simpl.
  destruct (Z.leb_spec (a * 100) b); destruct (Z.leb_spec (a * 100) (b * 1)); lia.
Qed.

Lemma Qle_bool_hundredths_int (a b : Z) :
  Qle_bool (a # 100) (inject_Z b) = (a <=? b * 100)%Z.
Proof.
  unfold Qle_bool. simpl.
  destruct (Z.leb_spec a (b * 100)); destruct (Z.leb_spec (a * 1) (b * 100)); lia.
Qed.

(** X7.  The scale seeded for curriculum 2024 covers every score with two
    decimals between 0 and 100 by exactly one row.  It does not cover the
    scores strictly between 84.99 and 85: those resolve to the default
    'E' with grade point 0. *)
Theorem seeded_scale_coverage :
  (forall n : Z, (0 <= n <= 10000)%Z ->
     exists r, filter (covers (n # 100) "2024") default_2024 = [r]) /\
  (forall s : Q, (8499 # 100 < s)%Q -> (s < 85)%Q ->
     filter (covers s "2024") default_2024 = [] /\
     get_letter_grade default_2024 s "2024" = "E"%string /\
     get_grade_point default_2024 s "2024" = 0%Q /\
     getGradePoint default_2024 s "2024" = 0%Q).
Proof.
  split.
  - intros n Hn. unfold default_2024, covers. simpl.
    change 85%Q with (inject_Z 85). change 100%Q with (inject_Z 100).
    change 80%Q with (inject_Z 80). change 75%Q with (inject_Z 75).
    change 70%Q with (inject_Z 70). change 65%Q with (inject_Z 65).
    change 60%Q with (inject_Z 60). change 55%Q with (inject_Z 55).
    change 50%Q with (inject_Z 50). change 0%Q with (inject_Z 0).
    rewrite !Qle_bool_int_hundredths, !Qle_bool_hundredths, !Qle_bool_hundredths_int.
    repeat match goal with
           | |- context [(?a <=? ?b)%Z] => destruct (Z.leb_spec a b); simpl; try lia
           end;
      eexists; reflexivity.
  - intros s Hlo Hhi.
    assert (E : filter (covers s "2024") default_2024 = []).
    { apply filter_none. intros r Hr. unfold covers.
      assert (H : forall a b : Q, ~ (a <= b)%Q -> Qle_bool a b = false).
      { intros a b Hab. destruct (Qle_bool a b) eqn:E; auto.
        apply Qle_bool_iff in E. contradiction. }
      unfold default_2024 in Hr. simpl in Hr.
      destruct Hr as [<-|[<-|[<-|[<-|[<-|[<-|[<-|[<-|[<-|[]]]]]]]]]]; simpl;
        first [ rewrite (H _ s) by lra; reflexivity
              | rewrite (H s) by lra; apply andb_false_r ]. }
    split; [exact E|].
    unfold get_letter_grade, get_grade_point, getGradePoint, select_limit_1.
    rewrite find_filter, E. simpl. auto.
Qed.

Lemma seeded_scale_coverage_witness :
  (exists r, filter (covers (8250 # 100) "2024") default_2024 = [r]) /\
  get_letter_grade default_2024 (84995 # 1000) "2024" = "E"%string.
Proof.
  split.
  - apply (proj1 seeded_scale_coverage 8250%Z). lia.
  - apply (proj2 seeded_scale_coverage (84995 # 1000)); reflexivity.
Defined.

(* ===================================================================== *)
(** * Further properties of the uploads *)
(* ===================================================================== *)

(** ** The grades table under upserts *)

Module GradesTableFacts.
Import Supabase GradesTable UploadFacts.

Lemma key_eqb_eq (a b : string * string) : key_eqb a b = true <-> a = b.
Proof.
  destruct a as [a1 a2], b as [b1 b2]. unfold key_eqb. simpl.
  rewrite andb_true_iff, !String.eqb_eq. split.
  - intros [-> ->]. reflexivity.
  - intros H. injection H as -> ->. auto.
Qed.

Lemma key_eqb_refl (a : string * string) : key_eqb a a = true.
Proof.
  now apply key_eqb_eq.
Qed.

Lemma key_eqb_neq (a b : string * string) : a <> b -> key_eqb a b = false.
Proof.
  intros H. destruct (key_eqb a b) eqn:E; auto. apply key_eqb_eq in E. contradiction.
Qed.

Lemma same_key_keys (a b : GradeRecord) :
  same_key a b = key_eqb (gradeKey a) (gradeKey b).
Proof.
  reflexivity.
Qed.

Lemma lookup_upsert (t : list GradeRecord) (r : GradeRecord) (k : string * string) :
  lookup (upsert t r) k = if key_eqb (gradeKey r) k then Some r else lookup t k.
Proof.
  unfold lookup. induction t as [|g t IH]; simpl.
  - now destruct (key_eqb (gradeKey r) k).
  - rewrite same_key_keys. destruct (key_eqb (gradeKey g) (gradeKey r)) eqn:E; simpl.
    + apply key_eqb_eq in E. rewrite E. now destruct (key_eqb (gradeKey r) k).
    + destruct (key_eqb (gradeKey g) k) eqn:Ek.
      * apply key_eqb_eq in Ek. subst k. now rewrite key_eqb_neq
          by (intros H; rewrite H, key_eqb_refl in E; discriminate).
      * exact IH.
Qed.

Lemma upsert_keys_In (t : list GradeRecord) (r : GradeRecord) (k : string * string) :
  In k (map gradeKey (upsert t r)) <-> In k (map gradeKey t) \/ k = gradeKey r.
Proof.
  induction t as [|g t IH]; simpl.
  - split; [intros [<-|[]]; auto | intros [[]| ->]; auto].
  - rewrite same_key_keys. destruct (key_eqb (gradeKey g) (gradeKey r)) eqn:E; simpl.
    + apply key_eqb_eq in E. rewrite E. intuition.
    + rewrite IH. intuition.
Qed.

Lemma upsert_keys_present (t : list GradeRecord) (r : GradeRecord) :
  In (gradeKey r) (map gradeKey t) -> map gradeKey (upsert t r) = map gradeKey t.
Proof.
  induction t as [|g t IH]; simpl; [tauto|].
  rewrite same_key_keys. destruct (key_eqb (gradeKey g) (gradeKey r)) eqn:E; simpl.
  - apply key_eqb_eq in E. now rewrite E.
  - intros [H|H]; [rewrite H, key_eqb_refl in E; discriminate|]. now rewrite IH.
Qed.

Lemma upsert_NoDup (t : list GradeRecord) (r : GradeRecord) :
  NoDup (map gradeKey t) -> NoDup (map gradeKey (upsert t r)).
Proof.
  induction t as [|g t IH]; simpl; intros Hnd.
  - repeat constructor. simpl. tauto.
  - inversion Hnd as [|? ? Hnotin Hnd']; subst.
    rewrite same_key_keys. destruct (key_eqb (gradeKey g) (gradeKey r)) eqn:E; simpl.
    + apply key_eqb_eq in E. rewrite <- E. now constructor.
    + constructor; [|now apply IH].
      rewrite upsert_keys_In. intros [H|H]; [contradiction|].
      rewrite H, key_eqb_refl in E. discriminate.
Qed.

Lemma lookup_None (t : list GradeRecord) (k : string * string) :
  ~ In k (map gradeKey t) -> lookup t k = None.
Proof.
  unfold lookup. induction t as [|g t IH]; simpl; auto.
  intros H. rewrite key_eqb_neq by tauto. apply IH. tauto.
Qed.

(** Two tables with the same keys in the same order, each key once, and the
    same record for every key are equal. *)
Lemma table_ext (t1 t2 : list GradeRecord) :
  NoDup (map gradeKey t1) ->
  map gradeKey t1 = map gradeKey t2 ->
  (forall k, lookup t1 k = lookup t2 k) ->
  t1 = t2.
Proof.
  revert t2. induction t1 as [|a t1 IH]; intros [|b t2] Hnd Hkeys Hlook;
    try discriminate; auto.
  simpl in Hkeys.
  assert (Hab : gradeKey a = gradeKey b)
    by exact (f_equal (hd (gradeKey a)) Hkeys).
  apply (f_equal (@tl _)) in Hkeys. simpl in Hkeys.
  inversion Hnd as [|? ? Hnotin Hnd']; subst.
  assert (a = b).
  { specialize (Hlook (gradeKey a)). unfold lookup in Hlook. simpl in Hlook.
    rewrite <- Hab, key_eqb_refl in Hlook. congruence. }
  subst b. f_equal. apply IH; auto.
  intros k. destruct (key_eqb (gradeKey a) k) eqn:E.
  - apply key_eqb_eq in E. subst k.
    rewrite !lookup_None; auto. now rewrite <- Hkeys.
  - specialize (Hlook k). unfold lookup in *. simpl in Hlook. now rewrite E in Hlook.
Qed.

Lemma upsertAll_NoDup (rs t : list GradeRecord) :
  NoDup (map gradeKey t) -> NoDup (map gradeKey (upsertAll t rs)).
Proof.
  unfold upsertAll. revert t. induction rs as [|r rs IH]; intros t H; simpl; auto.
  apply IH. now apply upsert_NoDup.
Qed.

Lemma upsertAll_In (rs t : list GradeRecord) (x : GradeRecord) :
  In x (upsertAll t rs) -> In x t \/ In x rs.
Proof.
  unfold upsertAll. revert t. induction rs as [|r rs IH]; intros t H; simpl in *; auto.
  destruct (IH _ H) as [H'|H']; auto.
  apply upsert_In in H' as [H'| ->]; auto.
Qed.

Lemma upsertAll_keys_In (rs t : list GradeRecord) (k : string * string) :
  In k (map gradeKey t) \/ In k (map gradeKey rs) ->
  In k (map gradeKey (upsertAll t rs)).
Proof.
  unfold upsertAll. revert t. induction rs as [|r rs IH]; intros t H; simpl in *.
  - tauto.
  - apply IH. rewrite upsert_keys_In. intuition.
Qed.

Lemma upsertAll_keys_present (rs t : list GradeRecord) :
  (forall r, In r rs -> In (gradeKey r) (map gradeKey t)) ->
  map gradeKey (upsertAll t rs) = map gradeKey t.
Proof.
  unfold upsertAll. revert t. induction rs as [|r rs IH]; intros t H; simpl; auto.
  rewrite IH.
  - apply upsert_keys_present. apply H. now left.
  - intros r' Hr'. rewrite upsert_keys_present by (apply H; now left).
    apply H. now right.
Qed.

Lemma lookup_upsertAll (rs t : list GradeRecord) (k : string * string) :
  lookup (upsertAll t rs) k = lastWrite k (lookup t k) rs.
Proof.
  unfold upsertAll, lastWrite. revert t. induction rs as [|r rs IH]; intros t; simpl; auto.
  now rewrite IH, lookup_upsert.
Qed.

Lemma lastWrite_twice (k : string * string) (rs : list GradeRecord)
      (acc : option GradeRecord) :
  lastWrite k (lastWrite k acc rs) rs = lastWrite k acc rs.
Proof.
  assert (H : forall acc, lastWrite k acc rs = acc \/
                          forall acc', lastWrite k acc' rs = lastWrite k acc rs).
  { unfold lastWrite. induction rs as [|r rs IH]; intros a; simpl; auto.
    destruct (key_eqb (gradeKey r) k); auto. }
  destruct (H acc) as [E|E]; [now rewrite !E | apply E].
Qed.

(** Writing the same sequence of records a second time changes nothing. *)
Lemma upsertAll_idempotent (rs t : list GradeRecord) :
  NoDup (map gradeKey t) ->
  upsertAll (upsertAll t rs) rs = upsertAll t rs.
Proof.
  intros Hnd. apply table_ext.
  - now apply upsertAll_NoDup, upsertAll_NoDup.
  - apply upsertAll_keys_present. intros r Hr.
    apply upsertAll_keys_In. right. now apply in_map.
  - intros k. rewrite !lookup_upsertAll. apply lastWrite_twice.
Qed.

End GradesTableFacts.

(** ** Runs of the upload loops *)

Module UploadRunFacts.
Import Supabase GradesTable UploadRuns GradesTableFacts.

Section Excel.
Import ExcelGradeUpload.
Variable be : Backend.

(** What the loop does with a row does not depend on the state it is in. *)
Lemma excel_processRow_uniform (row : UploadedRow) :
  (exists m, forall st, processRow be st row = push_error st row m) \/
  (exists r, (forall st, processRow be st row = push_success st row r) /\
             Supabase.score r = score row /\ excelWritten r).
Proof.
  unfold processRow, tryRow, bind.
  destruct (JS.not_string (nim row)); simpl; [left; eexists; reflexivity|].
  destruct (JS.lt (score row) 0) eqn:E1; simpl; [left; eexists; reflexivity|].
  destruct (JS.gt (score row) 100) eqn:E2; simpl; [left; eexists; reflexivity|].
  destruct (student_by_nim_angkatan be (nim row) (or_empty (angkatan row)))
    as [e|[sid|]]; try (left; eexists; reflexivity).
  destruct (JS.not_string sid); [left; eexists; reflexivity|].
  destruct (course_by_code be (courseCode row)) as [e|[cid|]];
    try (left; eexists; reflexivity).
  destruct (JS.not_string cid); [left; eexists; reflexivity|].
  destruct (upsert_grade be _) as [e|[m|]]; try (left; eexists; reflexivity).
  right. eexists. split; [reflexivity|]. split; [reflexivity|].
  unfold excelWritten. simpl. auto.
Qed.

Lemma excelRun_nil (st : State) : excelRun st [] [] 0 = st.
Proof.
  destruct st. unfold excelRun, upsertAll. simpl.
  now rewrite app_nil_r, !Nat.add_0_r.
Qed.

Lemma excelRun_error (st : State) (row : UploadedRow) (m : string) outs rs ne :
  excelRun (push_error st row m) outs rs ne
  = excelRun st (with_status row error (Some m) :: outs) rs (S ne).
Proof.
  unfold excelRun, push_error. simpl. rewrite <- app_assoc. simpl.
  f_equal. lia.
Qed.

Lemma excelRun_success (st : State) (row : UploadedRow) (r : GradeRecord) outs rs ne :
  excelRun (push_success st row r) outs rs ne
  = excelRun st (with_status row success (message row) :: outs) (r :: rs) ne.
Proof.
  unfold excelRun, push_success. simpl. rewrite <- app_assoc. simpl.
  f_equal. lia.
Qed.

Lemma excel_fold_uniform (preview : list UploadedRow) :
  exists outs rs ne,
    (forall st, fold_left (processRow be) preview st = excelRun st outs rs ne) /\
    shownSuccessCount outs = List.length rs /\
    shownErrorCount outs = ne /\
    (List.length rs + ne = List.length preview)%nat /\
    Forall excelWritten rs.
Proof.
  induction preview as [|row preview (outs & rs & ne & Hrun & Hs & He & Hlen & Hw)].
  - exists [], [], 0%nat. split; [intros st; simpl; now rewrite excelRun_nil|].
    repeat split; constructor.
  - destruct (excel_processRow_uniform row) as [[m Hm]|(r & Hr & _ & Hrw)].
    + exists (with_status row error (Some m) :: outs), rs, (S ne).
      split; [intros st; simpl; now rewrite Hm, Hrun, excelRun_error|].
      unfold shownSuccessCount, shownErrorCount in *. simpl.
      split; [exact Hs|]. split; [now rewrite He|]. split; [lia | exact Hw].
    + exists (with_status row success (message row) :: outs), (r :: rs), ne.
      split; [intros st; simpl; now rewrite Hr, Hrun, excelRun_success|].
      unfold shownSuccessCount, shownErrorCount in *. simpl.
      split; [now rewrite Hs|]. split; [exact He|]. split; [lia | now constructor].
Qed.
End Excel.

Section Csv.
Import GradeUpload.
Variable parseFloat : string -> JS.number.
Variable be : Backend.

Lemma csv_processRow_uniform (row : Row) :
  (forall st, processRow parseFloat be st row = failed st) \/
  (exists r, (forall st, processRow parseFloat be st row = succeeded st r) /\
             csvWritten r).
Proof.
  unfold processRow, tryRow, bind.
  destruct (nimOf row) as [nim|]; [|now left].
  destruct (courseCodeOf row) as [code|]; [|now left].
  destruct (JS.not_string nim); simpl; [now left|].
  destruct (JS.not_string code); simpl; [now left|].
  destruct (JS.not_number (scoreOf parseFloat row)) eqn:E; simpl; [now left|].
  destruct (student_by_nim be nim) as [e|[sid|]]; try now left.
  destruct (JS.not_string sid); [now left|].
  destruct (course_by_code be code) as [e|[cid|]]; try now left.
  destruct (JS.not_string cid); [now left|].
  destruct (upsert_grade be _) as [e|[m|]]; try now left.
  right. eexists. split; [reflexivity|]. unfold csvWritten. simpl. auto.
Qed.

Lemma csvRun_nil (st : State) : csvRun st [] 0 = st.
Proof.
  destruct st. unfold csvRun, upsertAll. simpl. now rewrite !Nat.add_0_r.
Qed.

Lemma csv_fold_uniform (csvData : list Row) :
  exists rs nf,
    (forall st, fold_left (processRow parseFloat be) csvData st = csvRun st rs nf) /\
    (List.length rs + nf = List.length csvData)%nat /\
    Forall csvWritten rs.
Proof.
  induction csvData as [|row csvData (rs & nf & Hrun & Hlen & Hw)].
  - exists [], 0%nat. split; [intros st; simpl; now rewrite csvRun_nil|].
    split; [reflexivity | constructor].
  - destruct (csv_processRow_uniform row) as [Hf|(r & Hr & Hrw)].
    + exists rs, (S nf). split; [|split; [simpl; lia | exact Hw]].
      intros st. simpl. rewrite Hf, Hrun. unfold csvRun, failed. simpl.
      f_equal. lia.
    + exists (r :: rs), nf. split; [|split; [simpl; lia | now constructor]].
      intros st. simpl. rewrite Hr, Hrun. unfold csvRun, succeeded. simpl.
      f_equal. lia.
Qed.
End Csv.

End UploadRunFacts.

Import Supabase GradesTable UploadRuns GradesTableFacts UploadRunFacts.

Lemma excel_handleUpload_run (be : Backend) (grades0 : list GradeRecord)
      (preview : list ExcelGradeUpload.UploadedRow) (st : ExcelGradeUpload.State) :
  ExcelGradeUpload.handleUpload be grades0 preview = Some st ->
  st = fold_left (ExcelGradeUpload.processRow be) preview
                 (ExcelGradeUpload.initial grades0) /\
  preview <> [].
Proof.
  unfold ExcelGradeUpload.handleUpload.
  destruct preview as [|row preview]; [discriminate|].
  intros H. injection H as <-. split; [reflexivity | discriminate].
Qed.

(** X8.  The numbers shown after an Excel upload, counted from the rows by
    their status, are the counters of the loop, and together they are the
    number of rows of the preview: no row is left pending. *)
Theorem excel_summary_counts (be : Backend) (grades0 : list GradeRecord)
        (preview : list ExcelGradeUpload.UploadedRow) (st : ExcelGradeUpload.State) :
  ExcelGradeUpload.handleUpload be grades0 preview = Some st ->
  ExcelGradeUpload.shownSuccessCount (ExcelGradeUpload.processedRows st)
    = ExcelGradeUpload.successCount st /\
  ExcelGradeUpload.shownErrorCount (ExcelGradeUpload.processedRows st)
    = ExcelGradeUpload.errorCount st /\
  (ExcelGradeUpload.shownSuccessCount (ExcelGradeUpload.processedRows st)
   + ExcelGradeUpload.shownErrorCount (ExcelGradeUpload.processedRows st)
   = List.length preview)%nat.
Proof.
  intros H. destruct (excel_fold_uniform be preview)
    as (outs & rs & ne & Hrun & Hs & He & Hlen & _).
  apply excel_handleUpload_run in H as [-> _].
  rewrite Hrun. simpl. rewrite Hs, He. auto.
Qed.

Lemma excel_summary_counts_witness :
  exists st,
    ExcelGradeUpload.handleUpload UploadExamples.backend []
      [ UploadExamples.excelRow "2024001" (JS.Num 85);
        UploadExamples.excelRow "404" (JS.Num 90) ] = Some st /\
    ExcelGradeUpload.shownSuccessCount (ExcelGradeUpload.processedRows st)
      = ExcelGradeUpload.successCount st /\
    ExcelGradeUpload.shownErrorCount (ExcelGradeUpload.processedRows st)
      = ExcelGradeUpload.errorCount st.
Proof.
  eexists. split; [reflexivity|].
  destruct (@excel_summary_counts UploadExamples.backend []
              [ UploadExamples.excelRow "2024001" (JS.Num 85);
                UploadExamples.excelRow "404" (JS.Num 90) ] _ eq_refl)
    as (H1 & H2 & _).
  split; [exact H1 | exact H2].
Defined.

(** X9.  Both uploads keep the grades table free of duplicates: when every
    (student, course) pair occurs once before the upload, it occurs once
    after it. *)
Theorem uploads_keep_keys_unique :
  (forall be grades0 preview st,
     NoDup (map gradeKey grades0) ->
     ExcelGradeUpload.handleUpload be grades0 preview = Some st ->
     NoDup (map gradeKey (ExcelGradeUpload.grades st))) /\
  (forall parseFloat be grades0 csvData,
     NoDup (map gradeKey grades0) ->
     NoDup (map gradeKey
              (GradeUpload.gradesAfter
                 (GradeUpload.handleUpload parseFloat be grades0 csvData)))).
Proof.
  split.
  - intros be grades0 preview st Hnd H.
    destruct (excel_fold_uniform be preview) as (outs & rs & ne & Hrun & _).
    apply excel_handleUpload_run in H as [-> _].
    rewrite Hrun. simpl. now apply upsertAll_NoDup.
  - intros parseFloat be grades0 csvData Hnd.
    destruct (csv_fold_uniform parseFloat be csvData) as (rs & nf & Hrun & _).
    unfold GradeUpload.handleUpload. simpl. rewrite Hrun. simpl.
    now apply upsertAll_NoDup.
Qed.

Lemma uploads_keep_keys_unique_witness :
  NoDup (map gradeKey
           (GradeUpload.gradesAfter
              (GradeUpload.handleUpload UploadExamples.parseFloat_decimal
                 UploadExamples.backend []
                 [ UploadExamples.csvRow "2024001" "CS101" "85";
                   UploadExamples.csvRow "2024001" "CS101" "90" ]))).
Proof.
  apply (proj2 uploads_keep_keys_unique). constructor.
Defined.

(** X10.  Every record in the grades table after an upload is either a
    record that was there before or one whose letter grade is the mapping
    [getLetterGrade] of its score; the Excel upload writes no score below 0
    or above 100, the CSV upload no score that is 0 or [NaN]. *)
Theorem uploads_write_mapped_letters :
  (forall be grades0 preview st r,
     ExcelGradeUpload.handleUpload be grades0 preview = Some st ->
     In r (ExcelGradeUpload.grades st) ->
     In r grades0 \/ excelWritten r) /\
  (forall parseFloat be grades0 csvData r,
     In r (GradeUpload.gradesAfter
             (GradeUpload.handleUpload parseFloat be grades0 csvData)) ->
     In r grades0 \/ csvWritten r).
Proof.
  split.
  - intros be grades0 preview st r H Hr.
    destruct (excel_fold_uniform be preview) as (outs & rs & ne & Hrun & _ & _ & _ & Hw).
    apply excel_handleUpload_run in H as [-> _].
    rewrite Hrun in Hr. simpl in Hr.
    apply upsertAll_In in Hr as [Hr|Hr]; [now left|].
    right. rewrite Forall_forall in Hw. now apply Hw.
  - intros parseFloat be grades0 csvData r Hr.
    destruct (csv_fold_uniform parseFloat be csvData) as (rs & nf & Hrun & _ & Hw).
    unfold GradeUpload.handleUpload in Hr. simpl in Hr. rewrite Hrun in Hr. simpl in Hr.
    apply upsertAll_In in Hr as [Hr|Hr]; [now left|].
    right. rewrite Forall_forall in Hw. now apply Hw.
Qed.

Lemma uploads_write_mapped_letters_witness :
  excelWritten (Build_GradeRecord "student-x" "course-p" (JS.Num 85) "A").
Proof.
  destruct (proj1 uploads_write_mapped_letters UploadExamples.backend []
              [UploadExamples.excelRow "2024001" (JS.Num 85)] _
              (Build_GradeRecord "student-x" "course-p" (JS.Num 85) "A") eq_refl)
    as [[]|H].
  - vm_compute. left. reflexivity.
  - exact H.
Defined.

(** X11.  Uploading the same rows a second time changes nothing: with a
    grades table that holds every (student, course) pair once, the second
    run of the Excel upload ends in the same state as the first, and the
    second run of the CSV upload in the same outcome. *)
Theorem reupload_idempotent :
  (forall be grades0 preview st,
     NoDup (map gradeKey grades0) ->
     ExcelGradeUpload.handleUpload be grades0 preview = Some st ->
     ExcelGradeUpload.handleUpload be (ExcelGradeUpload.grades st) preview = Some st) /\
  (forall parseFloat be grades0 csvData,
     NoDup (map gradeKey grades0) ->
     GradeUpload.handleUpload parseFloat be
       (GradeUpload.gradesAfter (GradeUpload.handleUpload parseFloat be grades0 csvData))
       csvData
     = GradeUpload.handleUpload parseFloat be grades0 csvData).
Proof.
  split.
  - intros be grades0 preview st Hnd H.
    destruct (excel_fold_uniform be preview) as (outs & rs & ne & Hrun & _).
    apply excel_handleUpload_run in H as [-> Hne].
    unfold ExcelGradeUpload.handleUpload.
    destruct preview as [|row preview]; [contradiction|].
    rewrite !Hrun. unfold excelRun. simpl.
    now rewrite upsertAll_idempotent.
  - intros parseFloat be grades0 csvData Hnd.
    destruct (csv_fold_uniform parseFloat be csvData) as (rs & nf & Hrun & _).
    unfold GradeUpload.handleUpload. rewrite !Hrun. unfold csvRun. simpl.
    now rewrite upsertAll_idempotent.
Qed.

Lemma reupload_idempotent_witness :
  let rows := [ UploadExamples.csvRow "2024001" "CS101" "85";
                UploadExamples.csvRow "2024001" "CS101" "90" ] in
  GradeUpload.handleUpload UploadExamples.parseFloat_decimal UploadExamples.backend
    (GradeUpload.gradesAfter
       (GradeUpload.handleUpload UploadExamples.parseFloat_decimal
          UploadExamples.backend [] rows))
    rows
  = GradeUpload.handleUpload UploadExamples.parseFloat_decimal UploadExamples.backend
      [] rows.
Proof.
  intros rows.
  apply (proj2 reupload_idempotent UploadExamples.parseFloat_decimal
           UploadExamples.backend [] rows).
  constructor.
Defined.

(** ** Blank score cells *)

Lemma or_empty_Some (a : string) : ExcelGradeUpload.or_empty (Some a) = a.
Proof.
  unfold ExcelGradeUpload.or_empty, JS.or_string, JS.not_opt_string, JS.not_string.
  destruct (String.eqb_spec a EmptyString) as [->|]; reflexivity.
Qed.

Lemma excel_accepts (be : Backend) (st : ExcelGradeUpload.State)
      (r : ExcelGradeUpload.UploadedRow) (a sid cid : string) :
  JS.not_string (ExcelGradeUpload.nim r) = false ->
  JS.lt (ExcelGradeUpload.score r) 0 = false ->
  JS.gt (ExcelGradeUpload.score r) 100 = false ->
  ExcelGradeUpload.angkatan r = Some a ->
  student_by_nim_angkatan be (ExcelGradeUpload.nim r) a = Returns (Some sid) ->
  JS.not_string sid = false ->
  course_by_code be (ExcelGradeUpload.courseCode r) = Returns (Some cid) ->
  JS.not_string cid = false ->
  upsert_grade be
    (Build_GradeRecord sid cid (ExcelGradeUpload.score r)
       (ExcelGradeUpload.getLetterGrade (ExcelGradeUpload.score r)))
  = Returns None ->
  ExcelGradeUpload.processRow be st r
  = ExcelGradeUpload.push_success st r
      (Build_GradeRecord sid cid (ExcelGradeUpload.score r)
         (ExcelGradeUpload.getLetterGrade (ExcelGradeUpload.score r))).
Proof.
  intros Hnim Hlt Hgt Ha Hstudent Hsid Hcourse Hcid Hupsert.
  unfold ExcelGradeUpload.processRow, ExcelGradeUpload.tryRow, bind.
  rewrite Hnim, Hlt, Hgt, Ha, or_empty_Some, Hstudent, Hsid, Hcourse, Hcid. simpl.
  now rewrite Hupsert.
Qed.

(** X12.  A sheet row without a score ([Nilai], [nilai] and [Score] absent,
    empty or 0) gets the score [parseFloat('0')].  With [parseFloat('0') = 0]
    the Excel upload accepts such a row: when the student and the course
    are found and the backend accepts the upsert, the grade is stored with
    score 0 and letter 'E'.  The CSV upload counts a row without score as
    failed. *)
Theorem blank_score_cells (parseFloat : string -> JS.number) :
  parseFloat "0"%string = JS.Num 0 ->
  (forall trim numberToString selectedCourse selectedAngkatan row,
     ExcelGradeUpload.not_value (JS.obj_get row "Nilai") = true ->
     ExcelGradeUpload.not_value (JS.obj_get row "nilai") = true ->
     ExcelGradeUpload.not_value (JS.obj_get row "Score") = true ->
     let r := ExcelGradeUpload.previewRow parseFloat trim numberToString
                selectedCourse selectedAngkatan row in
     ExcelGradeUpload.score r = JS.Num 0 /\
     forall be st sid cid,
       JS.not_string (ExcelGradeUpload.nim r) = false ->
       student_by_nim_angkatan be (ExcelGradeUpload.nim r) selectedAngkatan
         = Returns (Some sid) ->
       JS.not_string sid = false ->
       course_by_code be selectedCourse = Returns (Some cid) ->
       JS.not_string cid = false ->
       upsert_grade be (Build_GradeRecord sid cid (JS.Num 0) "E") = Returns None ->
       ExcelGradeUpload.processRow be st r
       = ExcelGradeUpload.push_success st r
           (Build_GradeRecord sid cid (JS.Num 0) "E")) /\
  (forall be st (row : GradeUpload.Row),
     JS.not_opt_string (JS.obj_get row "Nilai") = true ->
     JS.not_opt_string (JS.obj_get row "score") = true ->
     GradeUpload.processRow parseFloat be st row = GradeUpload.failed st).
Proof.
  intros Hzero. split.
  - intros trim numberToString selectedCourse selectedAngkatan row H1 H2 H3 r.
    assert (Hscore : ExcelGradeUpload.score r = JS.Num 0).
    { unfold r, ExcelGradeUpload.previewRow. simpl.
      unfold ExcelGradeUpload.or_text, ExcelGradeUpload.or_value.
      rewrite H1, H2, H3. simpl. exact Hzero. }
    split; [exact Hscore|].
    intros be st sid cid Hnim Hstudent Hsid Hcourse Hcid Hupsert.
    pose proof (@excel_accepts be st r selectedAngkatan sid cid Hnim) as H.
    rewrite Hscore in H. apply H; auto.
  - intros be st row H1 H2.
    apply (UploadFacts.csv_processRow parseFloat be st row).
    unfold UploadSpec.csvMustFail, UploadSpec.csvMissingField, GradeUpload.scoreOf,
      GradeUpload.scoreText, JS.or_string.
    rewrite H1, H2. simpl. rewrite Hzero. simpl.
    now rewrite !orb_true_r.
Qed.

Lemma blank_score_cells_witness :
  let r := ExcelGradeUpload.previewRow UploadExamples.parseFloat_decimal
             UploadExamples.trim_ascii (fun _ => EmptyString) "CS101" "2024"
             [("NIM"%string, ExcelGradeUpload.VStr " 2024001 ")] in
  ExcelGradeUpload.processRow UploadExamples.backend (ExcelGradeUpload.initial []) r
  = ExcelGradeUpload.push_success (ExcelGradeUpload.initial []) r
      (Build_GradeRecord "student-x" "course-p" (JS.Num 0) "E").
Proof.
  intros r.
  apply (proj2 (proj1 (blank_score_cells UploadExamples.parseFloat_decimal eq_refl)
                  UploadExamples.trim_ascii (fun _ => EmptyString)
                  "CS101"%string "2024"%string
                  [("NIM"%string, ExcelGradeUpload.VStr " 2024001 ")]
                  eq_refl eq_refl eq_refl));
    reflexivity.
Defined.

(** ** [parseCSV] *)

Module ParseFacts.
Import JS JSFacts GradeUpload.

Lemma fillRow_keys (headers : list string) (row : Row) (index : nat)
      (values : list string) (h : string) :
  obj_get (fillRow row headers index values) h <> None <->
  obj_get row h <> None \/ In h headers.
Proof.
  revert row index. induction headers as [|header rest IH]; intros row index; simpl.
  - tauto.
  - rewrite IH. destruct (String.eqb_spec header h) as [->|Hne].
    + rewrite obj_get_set_eq. split; [auto | intros _; left; discriminate].
    + rewrite obj_get_set_ne by assumption. tauto.
Qed.

Lemma fillRow_other (headers : list string) (row : Row) (index : nat)
      (values : list string) (h : string) :
  ~ In h headers -> obj_get (fillRow row headers index values) h = obj_get row h.
Proof.
  revert row index. induction headers as [|header rest IH]; intros row index H; simpl.
  - reflexivity.
  - simpl in H. rewrite IH by tauto. apply obj_get_set_ne. tauto.
Qed.

(** The value under a header is the cell below its last occurrence. *)
Lemma fillRow_value (headers : list string) (row : Row) (index i : nat)
      (values : list string) (h : string) :
  nth_error headers i = Some h ->
  (forall j, (i < j)%nat -> nth_error headers j <> Some h) ->
  obj_get (fillRow row headers index values) h = Some (valueAt values (index + i)).
Proof.
  revert row index i. induction headers as [|header rest IH]; intros row index i Hi Hlast.
  - destruct i; discriminate.
  - destruct i as [|i]; simpl in *.
    + injection Hi as ->. rewrite fillRow_other.
      * rewrite obj_get_set_eq. now rewrite Nat.add_0_r.
      * intros Hin. apply In_nth_error in Hin as [j Hj].
        apply (Hlast (S j)); [lia | exact Hj].
    + rewrite (IH _ (S index) i Hi).
      * now replace (S index + i)%nat with (index + S i)%nat by lia.
      * intros j Hj. apply (Hlast (S j)). lia.
Qed.

Section Rows.
Variable trim : string -> string.

Lemma parseCSV_In (text : string) (row : Row) :
  In row (parseCSV trim text) ->
  exists line,
    In line (tl (split "010" (trim text))) /\
    JS.not_string (trim line) = false /\
    row = fillRow [] (headersOf trim text) 0 (map trim (split "," line)).
Proof.
  unfold parseCSV. intros H. apply in_flat_map in H as (line & Hline & Hrow).
  unfold parseLine in Hrow.
  destruct (JS.not_string (trim line)) eqn:E; [destruct Hrow|].
  destruct Hrow as [<-|[]]. exists line. auto.
Qed.
(** The rows are the non-blank lines after the header line, in their
    order, each filled from its own cells. *)
Lemma parseCSV_map (text : string) :
  parseCSV trim text
  = map (fun line => fillRow [] (headersOf trim text) 0 (map trim (split "," line)))
        (filter (fun line => negb (JS.not_string (trim line)))
                (tl (split "010" (trim text)))).
Proof.
  unfold parseCSV. induction (tl (split "010" (trim text))) as [|line lines IH]; simpl; auto.
  rewrite IH. unfold parseLine. now destruct (JS.not_string (trim line)).
Qed.
End Rows.

End ParseFacts.
Import ParseFacts.

(** X13.  [parseCSV] returns one row per non-blank line after the header
    line, and every row has exactly the (trimmed) header names as its keys:
    a line with too few cells still defines every header, and the cells
    beyond the last header are dropped. *)
Theorem parseCSV_rows (trim : string -> string) (text : string) :
  List.length (GradeUpload.parseCSV trim text)
  = List.length (filter (fun line => negb (JS.not_string (trim line)))
                        (tl (GradeUpload.split "010" (trim text)))) /\
  forall row, In row (GradeUpload.parseCSV trim text) ->
    forall h, JS.obj_get row h <> None <-> In h (GradeUpload.headersOf trim text).
Proof.
  split.
  - unfold GradeUpload.parseCSV.
    induction (tl (GradeUpload.split "010" (trim text))) as [|line lines IH]; simpl; auto.
    rewrite length_app, IH. unfold GradeUpload.parseLine.
    now destruct (JS.not_string (trim line)).
  - intros row Hrow h. apply parseCSV_In in Hrow as (line & _ & _ & ->).
    rewrite fillRow_keys. simpl. split; [|auto].
    intros [H|H]; [now contradiction H | exact H].
Qed.

(** X14.  The row number [k] returned by [parseCSV] is filled from the
    non-blank line number [k] after the header line, and from that line
    alone: under every header the row holds the trimmed cell of this line
    at the last column with that header, and the empty text when the line
    has no such cell. *)
Theorem parseCSV_cells (trim : string -> string) (text : string)
        (k : nat) (row : GradeUpload.Row) :
  nth_error (GradeUpload.parseCSV trim text) k = Some row ->
  exists line,
    nth_error (filter (fun line => negb (JS.not_string (trim line)))
                      (tl (GradeUpload.split "010" (trim text)))) k = Some line /\
    forall (i : nat) (h : string),
      nth_error (GradeUpload.headersOf trim text) i = Some h ->
      (forall j, (i < j)%nat -> nth_error (GradeUpload.headersOf trim text) j <> Some h) ->
      JS.obj_get row h
      = Some (GradeUpload.valueAt (map trim (GradeUpload.split "," line)) i).
Proof.
  rewrite parseCSV_map, nth_error_map. intros H.
  destruct (nth_error _ k) as [line|]; [|discriminate].
  injection H as <-. exists line. split; [reflexivity|].
  intros i h Hi Hlast. now rewrite (fillRow_value _ [] 0 _ Hi Hlast).
Qed.

Lemma parseCSV_cells_witness :
  exists line,
    nth_error (filter (fun line => negb (JS.not_string (UploadExamples.trim_ascii line)))
                      (tl (GradeUpload.split "010"
                             (UploadExamples.trim_ascii UploadExamples.csvText)))) 1
    = Some line /\
    forall (i : nat) (h : string),
      nth_error (GradeUpload.headersOf UploadExamples.trim_ascii UploadExamples.csvText) i
      = Some h ->
      (forall j, (i < j)%nat ->
         nth_error (GradeUpload.headersOf UploadExamples.trim_ascii UploadExamples.csvText) j
         <> Some h) ->
      JS.obj_get [("NIM", "2024001"); ("Kode Mata Kuliah", "CS101");
                  ("Nilai", EmptyString)]%string h
      = Some (GradeUpload.valueAt
                (map UploadExamples.trim_ascii (GradeUpload.split "," line)) i).
Proof.
  apply (@parseCSV_cells UploadExamples.trim_ascii UploadExamples.csvText 1
           [("NIM", "2024001"); ("Kode Mata Kuliah", "CS101");
            ("Nilai", EmptyString)]%string).
  vm_compute. reflexivity.
Defined.

(* ===================================================================== *)
(** * Manual grade entry *)
(* ===================================================================== *)

Module EntryFacts.
Import JS JSFacts Supabase ManualGradeInput EntrySpec.

Lemma obj_set_In (A : Type) (o : object A) (k : string) (x : A) (e : string * A) :
  In e (obj_set o k x) -> In e o \/ snd e = x.
Proof.
  induction o as [|[k0 v0] o IH]; simpl.
  - intros [<-|[]]. now right.
  - destruct (String.eqb k0 k); simpl.
    + intros [<-|H]; auto.
    + intros [<-|H]; auto. destruct (IH H); auto.
Qed.

Lemma filter_keys_NoDup (A : Type) (f : string * A -> bool) (o : object A) :
  NoDup (obj_keys o) -> NoDup (obj_keys (filter f o)).
Proof.
  unfold obj_keys. induction o as [|e o IH]; simpl; intros H; [constructor|].
  inversion H as [|? ? Hnotin Hnd]; subst.
  destruct (f e); simpl; auto. constructor; auto.
  intros Hin. apply Hnotin. apply in_map_iff in Hin as (x & Hx & Hin).
  apply filter_In in Hin as [Hin _]. rewrite <- Hx. now apply in_map.
Qed.
Section Inputs.
Variable Number : string -> JS.number.

Local Abbreviation accepted := (EntrySpec.accepted Number).

Lemma handleScoreChange_accepted (gradeInputs : object string) (studentId value : string) :
  (forall e, In e gradeInputs -> accepted (snd e)) ->
  forall e, In e (handleScoreChange Number gradeInputs studentId value) ->
            accepted (snd e).
Proof.
  intros H e. unfold handleScoreChange.
  destruct (String.eqb_spec value EmptyString) as [->|Hne]; simpl.
  - intros He. apply obj_set_In in He as [He| ->]; [auto | now left].
  - destruct (Number value) as [|q] eqn:E; simpl; [auto|].
    destruct (Qle_bool 0 q) eqn:E0; simpl; [|auto].
    destruct (Qle_bool q 100) eqn:E1; simpl; [|auto].
    intros He. apply obj_set_In in He as [He| ->]; [auto|].
    right. exists q. apply Qle_bool_iff in E0, E1. auto.
Qed.

Lemma handleScoreChange_NoDup (gradeInputs : object string) (studentId value : string) :
  NoDup (obj_keys gradeInputs) ->
  NoDup (obj_keys (handleScoreChange Number gradeInputs studentId value)).
Proof.
  intros H. unfold handleScoreChange.
  destruct (_ || _); [now apply obj_set_NoDup | exact H].
Qed.

Lemma entered_invariant (events : list (string * string)) (start : object string) :
  (forall e, In e start -> accepted (snd e)) -> NoDup (obj_keys start) ->
  let gi := fold_left (fun gradeInputs e =>
                         handleScoreChange Number gradeInputs (fst e) (snd e))
                      events start in
  (forall e, In e gi -> accepted (snd e)) /\ NoDup (obj_keys gi).
Proof.
  revert start. induction events as [|ev events IH]; intros start H1 H2; simpl; auto.
  apply IH; [now apply handleScoreChange_accepted | now apply handleScoreChange_NoDup].
Qed.

End Inputs.

End EntryFacts.
Import EntryFacts.

(** X15.  Whatever is typed into the score fields, starting from empty
    inputs, the records [handleSaveGrades] builds hold a score between 0
    and 100 (never [NaN]), the letter grade [calculateLetterGrade] of that
    score and the selected course, and there is one record per student. *)
Theorem manual_grades_valid (Number : string -> JS.number) (selectedCourse : string)
        (events : list (string * string)) :
  (forall r,
     In r (ManualGradeInput.gradesToSave Number selectedCourse
             (EntrySpec.entered Number events)) ->
     (exists q, score r = JS.Num q /\ (0 <= q <= 100)%Q) /\
     letter_grade r = ManualGradeInput.calculateLetterGrade (score r) /\
     course_id r = selectedCourse) /\
  NoDup (map student_id
           (ManualGradeInput.gradesToSave Number selectedCourse
              (EntrySpec.entered Number events))).
Proof.
  destruct (@entered_invariant Number events []) as [Hadm Hnd];
    [intros e [] | constructor |].
  fold (EntrySpec.entered Number events) in Hadm, Hnd.
  unfold ManualGradeInput.gradesToSave. split.
  - intros r Hr. apply in_map_iff in Hr as (e & <- & He).
    apply filter_In in He as [He Hf]. simpl.
    split; [|split; reflexivity].
    apply andb_true_iff in Hf as [Hf1 Hf2].
    destruct (Hadm e He) as [E|(q & Hq & Hb)].
    + rewrite E in Hf1. discriminate.
    + exists q. auto.
  - rewrite map_map. simpl. rewrite (map_ext _ fst) by reflexivity.
    apply filter_keys_NoDup. exact Hnd.
Qed.

Lemma manual_grades_valid_witness :
  (exists q, score (Build_GradeRecord "student-x" "course-p" (JS.Num 90) "A") = JS.Num q /\
             (0 <= q <= 100)%Q) /\
  letter_grade (Build_GradeRecord "student-x" "course-p" (JS.Num 90) "A")
  = ManualGradeInput.calculateLetterGrade
      (score (Build_GradeRecord "student-x" "course-p" (JS.Num 90) "A")) /\
  course_id (Build_GradeRecord "student-x" "course-p" (JS.Num 90) "A") = "course-p"%string.
Proof.
  apply (proj1 (manual_grades_valid UploadExamples.parseFloat_decimal "course-p"
                  [ ("student-x", "85"); ("student-y", "abc"); ("student-x", "90");
                    ("student-x", "900") ]%string)).
  vm_compute. left. reflexivity.
Defined.

(* ===================================================================== *)
(** * The dashboard *)
(* ===================================================================== *)

Module DashboardFacts.
Import Dashboard.
Local Open Scope Q_scope.

Lemma pointsOf_bounds (letter : string) : 0 <= pointsOf letter <= 4.
Proof.
  unfold pointsOf.
  repeat match goal with
         | |- context [String.eqb ?a ?b] => destruct (String.eqb a b)
         end; split; discriminate.
Qed.

Lemma creditsOf_positive (grade : GradeWithCourse) :
  (forall c, course grade = Some c -> 0 <= credits c) -> 0 < creditsOf grade.
Proof.
  intros H. unfold creditsOf. destruct (course grade) as [c|]; [|reflexivity].
  specialize (H c eq_refl).
  destruct (Qeq_bool (credits c) 0) eqn:E; [reflexivity|].
  apply DoubleFacts.Qeq_bool_false in E. lra.
Qed.

Lemma totals_bounds (grades : list GradeWithCourse) (a b : Q) :
  (forall g c, In g grades -> course g = Some c -> 0 <= credits c) ->
  0 <= a -> a <= 4 * b ->
  let tp := fold_left (fun sum grade => sum + pointsOf (letter_grade grade) * creditsOf grade)
                      grades a in
  let tc := fold_left (fun sum grade => sum + creditsOf grade) grades b in
  0 <= tp /\ tp <= 4 * tc /\ b <= tc /\ (grades <> [] -> b < tc).
Proof.
  revert a b. induction grades as [|g grades IH]; intros a b H Ha Hab; simpl.
  - split; [lra|]. split; [lra|]. split; [lra|]. intros Hne. now contradiction Hne.
  - assert (Hc : 0 < creditsOf g) by (apply creditsOf_positive; intros c; apply H; now left).
    pose proof (pointsOf_bounds (letter_grade g)) as [Hp0 Hp4].
    assert (0 <= pointsOf (letter_grade g) * creditsOf g)
      by (apply Qmult_le_0_compat; lra).
    assert (pointsOf (letter_grade g) * creditsOf g <= 4 * creditsOf g)
      by (apply Qmult_le_compat_r; lra).
    destruct (IH (a + pointsOf (letter_grade g) * creditsOf g) (b + creditsOf g))
      as (T1 & T2 & T3 & _); [intros g' c Hg'; apply H; now right | lra | lra |].
    split; [exact T1|]. split; [exact T2|]. split; [lra|]. intros _. lra.
Qed.

End DashboardFacts.



(** X17.  For a score with two decimals between 0 and 100 that was stored
    by an upload, the grade point the dashboard derives from the stored
    letter is never above the grade point the report resolves from the
    scale seeded for curriculum 2024; it is strictly below for the scores
    from 50 to 84.99, and the same elsewhere. *)
Theorem dashboard_below_report (n : Z) :
  (0 <= n <= 10000)%Z ->
  (Dashboard.pointsOf (GradeUpload.getLetterGrade (JS.Num (n # 100)))
   <= getGradePoint default_2024 (n # 100) "2024")%Q /\
  ((5000 <= n < 8500)%Z ->
   (Dashboard.pointsOf (GradeUpload.getLetterGrade (JS.Num (n # 100)))
    < getGradePoint default_2024 (n # 100) "2024")%Q) /\
  ((n < 5000 \/ 8500 <= n)%Z ->
   (Dashboard.pointsOf (GradeUpload.getLetterGrade (JS.Num (n # 100)))
    == getGradePoint default_2024 (n # 100) "2024")%Q).
Proof.
  intros Hn.
  unfold GradeUpload.getLetterGrade, JS.ge, getGradePoint, default_2024, covers. simpl.
  change 85%Q with (inject_Z 85). change 100%Q with (inject_Z 100).
  change 80%Q with (inject_Z 80). change 75%Q with (inject_Z 75).
  change 70%Q with (inject_Z 70). change 65%Q with (inject_Z 65).
  change 60%Q with (inject_Z 60). change 55%Q with (inject_Z 55).
  change 50%Q with (inject_Z 50). change 0%Q with (inject_Z 0).
  rewrite !Qle_bool_int_hundredths, !Qle_bool_hundredths, !Qle_bool_hundredths_int.
  repeat match goal with
         | |- context [(?a <=? ?b)%Z] => destruct (Z.leb_spec a b); simpl; try lia
         end;
    (split; [|split]); intros; try lia; vm_compute; try reflexivity;
    intros; discriminate.
Qed.

Lemma dashboard_below_report_witness :
  (Dashboard.pointsOf (GradeUpload.getLetterGrade (JS.Num (8200 # 100)))
   < getGradePoint default_2024 (8200 # 100) "2024")%Q.
Proof.
  assert (Hn : (0 <= 8200 <= 10000)%Z) by lia.
  apply (proj1 (proj2 (@dashboard_below_report 8200%Z Hn))). lia.
Defined.

(* ===================================================================== *)
(** * Editing the grading scales *)
(* ===================================================================== *)

Module ScaleFacts.
Import GradingScales GradingScaleManagement EntrySpec.

Lemma lt_false (q b : Q) : JS.lt (JS.Num q) b = false <-> (b <= q)%Q.
Proof.
  simpl. rewrite negb_false_iff. apply Qle_bool_iff.
Qed.

Lemma gt_false (q b : Q) : JS.gt (JS.Num q) b = false <-> (q <= b)%Q.
Proof.
  simpl. rewrite negb_false_iff. apply Qle_bool_iff.
Qed.

Section Relabel.
Variable newName fromName : string.

Local Abbreviation relabel := (EntrySpec.relabel newName).

Lemma filter_relabel (s : Q) (gs : table) :
  filter (covers s newName)
         (map relabel (filter (fun r => String.eqb (curriculum r) fromName) gs))
  = map relabel (filter (covers s fromName) gs).
Proof.
  induction gs as [|r gs IH]; simpl; auto.
  unfold covers at 2. destruct (String.eqb (curriculum r) fromName) eqn:E; simpl.
  - unfold covers at 1. simpl. rewrite String.eqb_refl. simpl.
    destruct (Qle_bool (min_score r) s && Qle_bool s (max_score r)); simpl;
      now rewrite IH.
  - exact IH.
Qed.
End Relabel.

Lemma filter_other_curriculum (s : Q) (cur : string) (t : table) :
  (forall r, In r t -> curriculum r <> cur) -> filter (covers s cur) t = [].
Proof.
  intros H. apply filter_none. intros r Hr. unfold covers.
  destruct (String.eqb_spec (curriculum r) cur) as [E|]; [|reflexivity].
  exfalso. now apply (H r Hr).
Qed.

End ScaleFacts.
Import ScaleFacts.

(** X18.  [handleSubmit] sends an entry to the table exactly when the
    three numbers parse and satisfy the CHECK constraints of the table
    (scores between 0 and 100, minimum not above maximum, grade point
    between 0 and 4); the entry it sends carries the parsed numbers and
    the curriculum and letter of the form. *)
Theorem submit_matches_table_checks (parseFloat : string -> JS.number)
        (formData : GradingScaleManagement.GradingScaleForm) (editingId : option string) :
  (forall id d,
     GradingScaleManagement.handleSubmit parseFloat formData editingId
       = GradingScaleManagement.Send id d ->
     id = editingId /\ EntrySpec.table_checks d /\
     parseFloat (GradingScaleManagement.f_min_score formData) = JS.Num (min_score d) /\
     parseFloat (GradingScaleManagement.f_max_score formData) = JS.Num (max_score d) /\
     parseFloat (GradingScaleManagement.f_grade_point formData) = JS.Num (grade_point d) /\
     curriculum d = GradingScaleManagement.f_curriculum formData /\
     GradingScales.letter_grade d = GradingScaleManagement.f_letter_grade formData) /\
  (forall a b c,
     parseFloat (GradingScaleManagement.f_min_score formData) = JS.Num a ->
     parseFloat (GradingScaleManagement.f_max_score formData) = JS.Num b ->
     parseFloat (GradingScaleManagement.f_grade_point formData) = JS.Num c ->
     (0 <= a /\ a <= 100)%Q -> (0 <= b /\ b <= 100)%Q -> (a <= b)%Q ->
     (0 <= c /\ c <= 4)%Q ->
     exists d,
       GradingScaleManagement.handleSubmit parseFloat formData editingId
       = GradingScaleManagement.Send editingId d).
Proof.
  unfold GradingScaleManagement.handleSubmit. split.
  - intros id d.
    destruct (parseFloat (GradingScaleManagement.f_min_score formData)) as [|a];
      [discriminate|].
    destruct (parseFloat (GradingScaleManagement.f_max_score formData)) as [|b];
      [discriminate|].
    destruct (parseFloat (GradingScaleManagement.f_grade_point formData)) as [|c];
      [discriminate|].
    destruct (JS.lt (JS.Num a) 0) eqn:E1; [discriminate|].
    destruct (JS.gt (JS.Num a) 100) eqn:E2; [discriminate|].
    destruct (JS.lt (JS.Num b) 0) eqn:E3; [discriminate|].
    destruct (JS.gt (JS.Num b) 100) eqn:E4; [discriminate|]. cbn [orb].
    destruct (Qle_bool a b) eqn:E5; [|discriminate]. cbn [negb].
    destruct (JS.lt (JS.Num c) 0) eqn:E6; [discriminate|].
    destruct (JS.gt (JS.Num c) 4) eqn:E7; [discriminate|]. cbn [orb].
    intros H. injection H as <- <-. simpl.
    apply lt_false in E1, E3, E6. apply gt_false in E2, E4, E7.
    apply Qle_bool_iff in E5. unfold EntrySpec.table_checks. simpl. tauto.
  - intros a b c -> -> -> [Ha0 Ha1] [Hb0 Hb1] Hab [Hc0 Hc1].
    apply lt_false in Ha0, Hb0, Hc0. apply gt_false in Ha1, Hb1, Hc1.
    apply Qle_bool_iff in Hab.
    rewrite Ha0, Ha1, Hb0, Hb1, Hc0, Hc1, Hab. cbn [orb negb]. eexists. reflexivity.
Qed.

Lemma submit_matches_table_checks_witness :
  exists d,
    GradingScaleManagement.handleSubmit UploadExamples.parseFloat_decimal
      (GradingScaleManagement.Build_GradingScaleForm
         "2024" "A" "85" "100" "4.00" "Sangat Baik") None
    = GradingScaleManagement.Send None d.
Proof.
  apply (proj2 (submit_matches_table_checks UploadExamples.parseFloat_decimal
                  (GradingScaleManagement.Build_GradingScaleForm
                     "2024" "A" "85" "100" "4.00" "Sangat Baik") None)
           85%Q 100%Q (400 # 100)%Q);
    try reflexivity; try (split; discriminate); discriminate.
Defined.

(** X19.  A curriculum made by [handleCopyCurriculum] grades like its
    source: if the table has no row of the new (trimmed) name yet, then
    after the copied rows are added, every score resolves in the new
    curriculum to the letter grade and grade point that the listed scales
    give it in the source curriculum. *)
Theorem copied_curriculum_grades_alike (trim : string -> string)
        (gradingScales : table) (fromCurriculum answer : string)
        (newScales t : table) (s : Q) :
  GradingScaleManagement.handleCopyCurriculum trim gradingScales fromCurriculum
    (Some answer) = Some newScales ->
  (forall r, In r t -> curriculum r <> trim answer) ->
  getGradePoint (t ++ newScales) s (trim answer)
    = getGradePoint gradingScales s fromCurriculum /\
  get_grade_point (t ++ newScales) s (trim answer)
    = get_grade_point gradingScales s fromCurriculum /\
  get_letter_grade (t ++ newScales) s (trim answer)
    = get_letter_grade gradingScales s fromCurriculum.
Proof.
  unfold GradingScaleManagement.handleCopyCurriculum. intros H Hfresh.
  destruct (JS.not_string answer || String.eqb (trim answer) EmptyString);
    [discriminate|].
  assert (E : newScales
              = map (EntrySpec.relabel (trim answer))
                    (filter (fun r => String.eqb (curriculum r) fromCurriculum)
                            gradingScales)).
  { destruct (filter _ gradingScales); [discriminate|]. now injection H as <-. }
  clear H. subst newScales.
  unfold getGradePoint, get_grade_point, get_letter_grade, select_limit_1.
  rewrite !find_filter, filter_app, filter_other_curriculum by assumption.
  simpl. rewrite filter_relabel.
  destruct (filter (covers s fromCurriculum) gradingScales) as [|r [|r' rest]];
    simpl; auto.
Qed.

Lemma copied_curriculum_grades_alike_witness :
  getGradePoint
    (Examples.scale ++ map (EntrySpec.relabel "2025") Examples.scale) 90 "2025"
  = getGradePoint Examples.scale 90 "2024".
Proof.
  apply (@copied_curriculum_grades_alike UploadExamples.trim_ascii Examples.scale
           "2024"%string " 2025 "%string
           (map (EntrySpec.relabel "2025") Examples.scale) Examples.scale 90%Q).
  - reflexivity.
  - intros r [<-|[<-|[<-|[]]]]; discriminate.
Defined.

(* ===================================================================== *)
(** * The transcript *)
(* ===================================================================== *)

Module TranscriptFacts.
Import TranscriptPrint TranscriptSpec DoubleSpec DoubleFacts.
Local Open Scope Q_scope.

Lemma coursesOf_counted (grades : list GradeRow) :
  map t_score (coursesOf grades) = map score (counted grades).
Proof.
  unfold coursesOf, counted. induction grades as [|g grades IH]; simpl; auto.
  destruct (course g); simpl; now rewrite IH.
Qed.

Lemma fold_scores (l : list TranscriptCourse) (a : Double.double) :
  fold_left (fun sum c => Double.add sum (Double.ofQ (t_score c))) l a
  = fold_left Double.add (map Double.ofQ (map t_score l)) a.
Proof.
  revert a. induction l as [|c l IH]; intros a; simpl; auto.
Qed.

(** A whole number up to [2^53] is a double. *)
Lemma representable_Z (n : Z) : (0 <= n <= 2 ^ 53)%Z -> representable (inject_Z n).
Proof.
  intros H. exists n, 0%Z. split; [exact H|]. split; [lia|].
  change (Double.pow2 0) with 1. ring.
Qed.

Lemma Z_below_overflow (n : Z) : (n <= 2 ^ 53)%Z -> inject_Z n < Double.pow2 1024.
Proof.
  intros H. apply Qle_lt_trans with (inject_Z (2 ^ 53)); [now rewrite <- Zle_Qle|].
  rewrite inject_Z_pow2 by lia. apply pow2_lt. lia.
Qed.

(** Rounding keeps bounds that are whole numbers up to [2^53]. *)
Lemma round_between (q : Q) (lo hi : Z) :
  (0 <= lo)%Z -> (hi <= 2 ^ 53)%Z ->
  inject_Z lo <= q -> q <= inject_Z hi ->
  exists r, Double.round false q = Double.Fin false r /\
            inject_Z lo <= r /\ r <= inject_Z hi.
Proof.
  intros Hlo Hhi H1 H2.
  assert (L0 : 0 <= inject_Z lo) by (change 0 with (inject_Z 0); now rewrite <- Zle_Qle).
  assert (Hle : (lo <= hi)%Z) by (rewrite Zle_Qle; lra).
  assert (Rlo : Double.rnd (inject_Z lo) == inject_Z lo)
    by (apply rnd_exact, representable_Z; lia).
  assert (Rhi : Double.rnd (inject_Z hi) == inject_Z hi)
    by (apply rnd_exact, representable_Z; lia).
  destruct (@round_le q (inject_Z hi)) as (r & E & _ & Hr); [lra | exact H2 | |].
  { rewrite Rhi. now apply Z_below_overflow. }
  exists r. split; [exact E|]. rewrite Rhi in Hr. split; [|exact Hr].
  assert (Er : r = Double.rnd q).
  { destruct (round_cases false q) as [Hc|[Hc _]]; rewrite Hc in E;
      [discriminate | now injection E]. }
  rewrite Er, <- Rlo. apply rnd_mono; [exact L0 | exact H1].
Qed.

(** The running sum of scores between two whole numbers stays between the
    multiples of these numbers, as long as the multiples are doubles. *)
Lemma sum_between (lo hi : Z) (l : list Q) :
  (0 <= lo)%Z ->
  Forall (fun s => inject_Z lo <= s /\ s <= inject_Z hi) l ->
  forall (j : Z) (S : Q),
    (0 <= j)%Z -> (hi * (j + Z.of_nat (List.length l)) <= 2 ^ 53)%Z ->
    inject_Z (lo * j) <= S -> S <= inject_Z (hi * j) ->
    exists S',
      fold_left Double.add (map Double.ofQ l) (Double.Fin false S) = Double.Fin false S' /\
      inject_Z (lo * (j + Z.of_nat (List.length l))) <= S' /\
      S' <= inject_Z (hi * (j + Z.of_nat (List.length l))).
Proof.
  intros Hlo. induction 1 as [|s l [S1 S2] Hl IH]; intros j S Hj Hn H1 H2;
    cbn [fold_left map List.length].
  - exists S. rewrite Z.add_0_r. auto.
  - assert (L0 : 0 <= inject_Z lo) by (change 0 with (inject_Z 0); now rewrite <- Zle_Qle).
    assert (Hle : (lo <= hi)%Z) by (rewrite Zle_Qle; lra).
    cbn [List.length] in Hn. rewrite Nat2Z.inj_succ in *.
    assert (Hs0 : 0 <= s) by lra.
    assert (HS0 : 0 <= S).
    { eapply Qle_trans; [|exact H1]. change 0 with (inject_Z 0). rewrite <- Zle_Qle.
      apply Z.mul_nonneg_nonneg; lia. }
    rewrite (ofQ_nonneg Hs0).
    assert (Hprod : (0 <= hi * (j + Z.of_nat (List.length l)))%Z)
      by (apply Z.mul_nonneg_nonneg; lia).
    assert (Hprodj : (0 <= hi * j)%Z) by (apply Z.mul_nonneg_nonneg; lia).
    assert (Hhi : (hi <= 2 ^ 53)%Z).
    { replace (hi * (j + Z.succ (Z.of_nat (List.length l))))%Z
        with (hi * (j + Z.of_nat (List.length l)) + hi)%Z in Hn by ring. lia. }
    destruct (@round_between s lo hi) as (rs & -> & R1 & R2); [lia | lia | lra | lra |].
    rewrite add_nonneg by lra.
    destruct (@round_between (S + rs) (lo * (j + 1)) (hi * (j + 1)))
      as (S1' & -> & T1 & T2).
    + apply Z.mul_nonneg_nonneg; lia.
    + replace (hi * (j + Z.succ (Z.of_nat (List.length l))))%Z
        with (hi * (j + 1) + hi * Z.of_nat (List.length l))%Z in Hn by ring.
      assert (0 <= hi * Z.of_nat (List.length l))%Z
        by (apply Z.mul_nonneg_nonneg; lia).
      lia.
    + rewrite inject_Z_mult, inject_Z_plus. rewrite inject_Z_mult in H1.
      change (inject_Z 1) with 1. lra.
    + rewrite inject_Z_mult, inject_Z_plus. rewrite inject_Z_mult in H2.
      change (inject_Z 1) with 1. lra.
    + destruct (IH (j + 1)%Z S1') as (S' & E & U1 & U2); [lia | | exact T1 | exact T2 |].
      * now replace (j + 1 + Z.of_nat (List.length l))%Z
          with (j + Z.succ (Z.of_nat (List.length l)))%Z by lia.
      * exists S'. split; [exact E|].
        now replace (j + Z.succ (Z.of_nat (List.length l)))%Z
          with (j + 1 + Z.of_nat (List.length l))%Z by lia.
Qed.

End TranscriptFacts.

(** X20.  The transcript's average score is the mean of the scores of the
    grades that have a course, in double arithmetic: the sum from 0 in the
    order of the grades, every addition rounded, divided by their number;
    grades without a course are left out, and the average is 0 when no
    grade has a course.  When the counted scores lie between two whole
    numbers, so does the average, as long as the upper bound times the
    number of counted grades is at most 2^53. *)
Theorem transcript_average (grades : list TranscriptPrint.GradeRow) :
  let counted := TranscriptSpec.counted grades in
  let n := Z.of_nat (List.length counted) in
  let average := TranscriptPrint.averageScore (TranscriptPrint.coursesOf grades) in
  (counted = [] -> average = Double.zero) /\
  (counted <> [] ->
   average = Double.div (dsum (map (fun g => Double.ofQ (TranscriptPrint.score g)) counted))
                        (Double.ofQ (inject_Z n))) /\
  (forall lo hi : Z,
     counted <> [] ->
     (0 <= lo)%Z -> ((hi + 1) * n <= 2 ^ 53)%Z ->
     (forall g, In g counted ->
                (inject_Z lo <= TranscriptPrint.score g /\
                 TranscriptPrint.score g <= inject_Z hi)%Q) ->
     Double.leb (Double.ofQ (inject_Z lo)) average = true /\
     Double.leb average (Double.ofQ (inject_Z hi)) = true).
Proof.
  cbv zeta.
  assert (Hlen : List.length (TranscriptPrint.coursesOf grades)
                 = List.length (TranscriptSpec.counted grades)).
  { rewrite <- (length_map TranscriptPrint.t_score), TranscriptFacts.coursesOf_counted.
    apply length_map. }
  assert (Havg : TranscriptSpec.counted grades <> [] ->
                 TranscriptPrint.averageScore (TranscriptPrint.coursesOf grades)
                 = Double.div
                     (fold_left Double.add
                        (map Double.ofQ (map TranscriptPrint.score
                                             (TranscriptSpec.counted grades)))
                        Double.zero)
                     (Double.ofQ (inject_Z (Z.of_nat
                        (List.length (TranscriptSpec.counted grades)))))).
  { intros Hne. unfold TranscriptPrint.averageScore.
    destruct (TranscriptPrint.coursesOf grades) as [|c l] eqn:E.
    - exfalso. apply Hne. apply length_zero_iff_nil. now rewrite <- Hlen.
    - rewrite Hlen, <- E, TranscriptFacts.fold_scores, TranscriptFacts.coursesOf_counted.
      reflexivity. }
  split; [|split].
  - intros Hnil. unfold TranscriptPrint.averageScore.
    destruct (TranscriptPrint.coursesOf grades) as [|c l] eqn:E; [reflexivity|].
    rewrite Hnil in Hlen. discriminate Hlen.
  - intros Hne. rewrite (Havg Hne). unfold dsum. now rewrite map_map.
  - intros lo hi Hne Hlo Hn Hb. rewrite (Havg Hne).
    set (l := TranscriptSpec.counted grades) in *.
    assert (Hpos : (1 <= Z.of_nat (List.length l))%Z).
    { destruct l; [contradiction | simpl; lia]. }
    assert (L0 : (0 <= inject_Z lo)%Q)
      by (change 0%Q with (inject_Z 0); now rewrite <- Zle_Qle).
    assert (Hle : (lo <= hi)%Z).
    { destruct l as [|g l']; [contradiction|].
      destruct (Hb g (or_introl eq_refl)) as [B1 B2]. rewrite Zle_Qle.
      eapply Qle_trans; eauto. }
    set (n := Z.of_nat (List.length l)) in *.
    assert (Hhn : (0 <= hi * n)%Z) by (apply Z.mul_nonneg_nonneg; lia).
    assert (Hhn1 : (0 <= hi * (n - 1))%Z) by (apply Z.mul_nonneg_nonneg; lia).
    assert (Hn53 : (0 <= n <= 2 ^ 53)%Z).
    { replace ((hi + 1) * n)%Z with (hi * n + n)%Z in Hn by ring. lia. }
    assert (Hhi53 : (0 <= hi <= 2 ^ 53)%Z).
    { replace ((hi + 1) * n)%Z with (hi * (n - 1) + hi + n)%Z in Hn by ring. lia. }
    assert (Hlo53 : (0 <= lo <= 2 ^ 53)%Z) by lia.
    assert (Rn : (Double.rnd (inject_Z n) == inject_Z n)%Q)
      by (apply DoubleFacts.rnd_exact, TranscriptFacts.representable_Z; exact Hn53).
    assert (Rlo : (Double.rnd (inject_Z lo) == inject_Z lo)%Q)
      by (apply DoubleFacts.rnd_exact, TranscriptFacts.representable_Z; exact Hlo53).
    assert (Rhi : (Double.rnd (inject_Z hi) == inject_Z hi)%Q)
      by (apply DoubleFacts.rnd_exact, TranscriptFacts.representable_Z; exact Hhi53).
    assert (N0 : (0 < inject_Z n)%Q)
      by (change 0%Q with (inject_Z 0); rewrite <- Zlt_Qlt; lia).
    assert (H0 : (0 <= inject_Z hi)%Q)
      by (change 0%Q with (inject_Z 0); rewrite <- Zle_Qle; lia).
    destruct (@TranscriptFacts.sum_between lo hi (map TranscriptPrint.score l) Hlo)
      with (j := 0%Z) (S := 0%Q) as (S' & E & S1 & S2).
    + apply Forall_forall. intros s Hs. apply in_map_iff in Hs as (g & <- & Hg).
      now apply Hb.
    + lia.
    + rewrite length_map. fold n. replace ((hi + 1) * n)%Z with (hi * n + n)%Z in Hn by ring.
      rewrite Z.add_0_l. lia.
    + rewrite Z.mul_0_r. apply Qle_refl.
    + rewrite Z.mul_0_r. apply Qle_refl.
    + unfold Double.zero. rewrite E. rewrite length_map, Z.add_0_l in S1, S2.
      fold n in S1, S2. rewrite inject_Z_mult in S1, S2.
      rewrite (DoubleFacts.ofQ_nonneg (Qlt_le_weak _ _ N0)).
      rewrite (DoubleFacts.round_below false (inject_Z n))
        by (rewrite Rn; apply TranscriptFacts.Z_below_overflow; lia).
      assert (N1 : (0 < Double.rnd (inject_Z n))%Q) by now rewrite Rn.
      rewrite (DoubleFacts.div_nonneg S' N1).
      destruct (@TranscriptFacts.round_between (S' / Double.rnd (inject_Z n)) lo hi)
        as (r & -> & R1 & R2); [lia | lia | | |].
      * apply Qle_shift_div_l; [exact N1 | now rewrite Rn].
      * apply Qle_shift_div_r; [exact N1 | now rewrite Rn].
      * rewrite (DoubleFacts.ofQ_nonneg L0), (DoubleFacts.ofQ_nonneg H0).
        rewrite (DoubleFacts.round_below false (inject_Z lo))
          by (rewrite Rlo; apply TranscriptFacts.Z_below_overflow; lia).
        rewrite (DoubleFacts.round_below false (inject_Z hi))
          by (rewrite Rhi; apply TranscriptFacts.Z_below_overflow; lia).
        split; apply leb_Fin; [now rewrite Rlo | now rewrite Rhi].
Qed.

Lemma transcript_average_witness :
  let grades :=
    [ TranscriptPrint.Build_GradeRow 80 "A-"
        (Some (TranscriptPrint.Build_CourseRow "CS101" "Algoritma" 3));
      TranscriptPrint.Build_GradeRow 55 "C" None;
      TranscriptPrint.Build_GradeRow 90 "A"
        (Some (TranscriptPrint.Build_CourseRow "CS102" "Basis Data" 2)) ] in
  Double.leb (Double.ofQ 0)
    (TranscriptPrint.averageScore (TranscriptPrint.coursesOf grades)) = true /\
  Double.leb (TranscriptPrint.averageScore (TranscriptPrint.coursesOf grades))
    (Double.ofQ 100) = true.
Proof.
  intros grades.
  apply (proj2 (proj2 (transcript_average grades)) 0%Z 100%Z).
  - discriminate.
  - lia.
  - vm_compute. discriminate.
  - intros g Hg. vm_compute in Hg. destruct Hg as [<-|[<-|[]]]; split; discriminate.
Defined.

(** X23.  The mean of equal scores need not be that score: for three grades
    with the score 0.1 the average is 0.10000000000000002. *)
Lemma average_above_scores_example :
  let grades :=
    [ TranscriptPrint.Build_GradeRow (1 # 10) "E"
        (Some (TranscriptPrint.Build_CourseRow "CS101" "Algoritma" 3));
      TranscriptPrint.Build_GradeRow (1 # 10) "E"
        (Some (TranscriptPrint.Build_CourseRow "CS102" "Basis Data" 2));
      TranscriptPrint.Build_GradeRow (1 # 10) "E"
        (Some (TranscriptPrint.Build_CourseRow "CS103" "Jaringan" 2)) ] in
  Double.ltb (Double.ofQ (1 # 10))
    (TranscriptPrint.averageScore (TranscriptPrint.coursesOf grades)) = true /\
  TranscriptPrint.averageScore (TranscriptPrint.coursesOf grades)
  = DoubleSpec.ofFloat
      (PrimFloat.div
         (PrimFloat.add
            (PrimFloat.add (PrimFloat.div (DoubleSpec.float_of 1) (DoubleSpec.float_of 10))
                           (PrimFloat.div (DoubleSpec.float_of 1) (DoubleSpec.float_of 10)))
            (PrimFloat.div (DoubleSpec.float_of 1) (DoubleSpec.float_of 10)))
         (DoubleSpec.float_of 3)) /\
  TranscriptPrint.averageScore (TranscriptPrint.coursesOf grades)
  = Printed.js_0_10000000000000002.
Proof.
  vm_compute. repeat split.
Qed.
